(** * fabric-customizer: the image editor core ([src/lib/core.js])

    A shallow embedding of the parts of the editor that carry arithmetic or
    state-machine content, and the properties they satisfy:

    - the keyboard zoom controller ([zoomWithKeys]),
    - the snapshot history handlers ([undo], [redo]) and the keyboard
      shortcut listeners,
    - the pointer-driven line and path tools (angle snapping, proximity
      snapping, cancellation),
    - the effect sliders ([getUpdatedFilter], [getCurrentEffect]).

    Number model.  A JavaScript Number is an IEEE-754 binary64 value.
    - The effect sliders range over the integers 0..100, so their arithmetic
      is run on binary64 itself ([PrimFloat]), bit for bit.
    - The zoom level ranges over an interval; its arithmetic is carried out
      on exact rationals ([Q]), which is executable.
    - The drawing tools call [Math.sqrt], [Math.atan2], [Math.cos] and
      [Math.sin]; they are carried out on the real numbers ([R]), the Math
      functions being their mathematical counterparts.
    In the last two, rounding error of the binary64 operations is outside the
    model: what is proved there is proved of the exact arithmetic.  Where a
    property stands or falls with the rounding, the operations are run on
    binary64 as well: the angle snap at the angle 0 ([Line64]), the wheel
    zoom ([Zoom64]) and the arrow keys ([Nudge64]). *)

(** Embedded as well:
    - the wheel zoom ([zoomWithMouse]) and the zoom menu, on [Q] like the
      keyboard zoom, and the five keydown listeners of the document together
      ([Page.documentKeydown]),
    - the text-box tool ([textBoxDrawing]) and the gradient builder
      ([generateFabricGradientFromColorStops]), on [R] like the drawing tools,
    - the scan for the opaque bounds of an image ([scanPixels]), on [nat],
    - the tool switch ([setActiveTool], [setActiveSelection]).
    Where fabric fires an event that core.js listens to in the middle of a
    call, whether it fires is left open (a parameter of the model) and the
    listener is the one core.js registers. *)

From Stdlib Require Import ZArith QArith Qround Reals Lra Lqa Lia List Bool String.
From Stdlib Require Floats Uint63.
Import ListNotations.


(* ================================================================== *)
(** * Part I.  The embedding                                           *)
(* ================================================================== *)

(** ** Keyboard events *)

(** The fields of a DOM [KeyboardEvent] the listeners read. *)
Record key_event : Type := KeyEvent {
  which : Z;
  keyCode : Z;
  ctrlKey : bool
}.

(** [e.which || e.keyCode]: the first operand unless it is falsy (0). *)
Definition key_of (e : key_event) : Z :=
  if (which e =? 0)%Z then keyCode e else which e.

(** ** The canvas and its collaborators *)

Local Open Scope Q_scope.

(** [parseInt(x)] for a Number [x]: the Number is printed in decimal and the
    integer prefix is read back, which truncates toward zero (for
    [1e-6 <= |x| < 1e21], the range in which the decimal form has no
    exponent). *)
Definition parseInt (x : Q) : Z := Z.quot (Qnum x) (Zpos (Qden x)).

(** [a > b] on Numbers. *)
Definition Qgt_bool (a b : Q) : bool := negb (Qle_bool a b).

(** An object on the canvas: its identity and its position.  The position
    is kept as exact rationals; the sums the arrow keys make of it are run
    on binary64 Numbers in [Nudge64]. *)
Record fobject : Type := FObject {
  oid : nat;
  left : Q;
  top : Q
}.

(** The fabric canvas, as far as the editor shell reads and writes it.
    [activeObject] is the identity of the selected object, if any. *)
Record canvas : Type := Canvas {
  zoom : Q;
  width : Q;
  height : Q;
  originalW : Q;
  originalH : Q;
  objects : list fobject;
  activeObject : option nat
}.

Definition setZoom (z : Q) (c : canvas) : canvas :=
  Canvas z (width c) (height c) (originalW c) (originalH c)
         (objects c) (activeObject c).

Definition setWidth (w : Q) (c : canvas) : canvas :=
  Canvas (zoom c) w (height c) (originalW c) (originalH c)
         (objects c) (activeObject c).

Definition setHeight (h : Q) (c : canvas) : canvas :=
  Canvas (zoom c) (width c) h (originalW c) (originalH c)
         (objects c) (activeObject c).

Definition setObjects (os : list fobject) (c : canvas) : canvas :=
  Canvas (zoom c) (width c) (height c) (originalW c) (originalH c)
         os (activeObject c).

Definition getZoom (c : canvas) : Q := zoom c.

Definition getActiveObjects (c : canvas) : list nat :=
  match activeObject c with
  | Some i => [i]
  | None => []
  end.

Definition discardActiveObject (c : canvas) : canvas :=
  Canvas (zoom c) (width c) (height c) (originalW c) (originalH c)
         (objects c) None.

(** [canvas.remove(obj)]. *)
Definition remove (i : nat) (c : canvas) : canvas :=
  setObjects (filter (fun o => negb (Nat.eqb (oid o) i)) (objects c)) c.

(** Assignment to a field of the object with identity [i]. *)
Definition updateObject (i : nat) (f : fobject -> fobject) (c : canvas) : canvas :=
  setObjects (map (fun o => if Nat.eqb (oid o) i then f o else o) (objects c)) c.

(** The undo/redo stack is [window.UndoRedoStack()], a collaborator that is
    not part of core.js: the editor only calls its four operations.
    [getValues] returns the pair of the [undo] and the [redo] list. *)
Class UndoRedoStack (H : Type) : Type := {
  getValues : H -> list string * list string;
  push : string -> H -> H;
  history_undo : H -> H;
  history_redo : H -> H
}.

(** Serialization is fabric's and the browser's.  [JSON_parse] is [None]
    where [JSON.parse] throws a [SyntaxError]. *)
Class Serializer : Type := {
  json : Type;
  toJSON : canvas -> json;
  JSON_stringify : json -> string;
  JSON_parse : string -> option json;
  loadFromJSON : json -> canvas -> canvas
}.

(** ** Zoom controller (core.js, 2184-2243) *)

Module Zoom.

Definition minZoom : Q := 5 # 100.
Definition maxZoom : Q := 3.

(** [this.applyZoom] (core.js, 179-183). *)
Definition applyZoom (z : Q) (c : canvas) : canvas :=
  let c := setZoom z c in
  let c := setWidth (originalW c * getZoom c) c in
  setHeight (originalH c * getZoom c) c.

(** [while ((updatedZoom % 25) !== 0) updatedZoom = updatedZoom + step],
    unrolled at most [fuel] times.  [%] on integral Numbers is the remainder
    that takes the sign of the dividend, [Z.rem]. *)
Fixpoint while_not_multiple (step : Z) (fuel : nat) (updatedZoom : Z) : Z :=
  match fuel with
  | O => updatedZoom
  | S fuel' =>
      if negb (Z.rem updatedZoom 25 =? 0)%Z
      then while_not_multiple step fuel' (updatedZoom + step)%Z
      else updatedZoom
  end.

(** No run of the loop takes more than 24 iterations. *)
Definition loop_fuel : nat := 25.

(** "25% jumps" when zooming out (2197-2206). *)
Definition jump_down (z : Q) : Z :=
  let updatedZoom := parseInt (z * 100) in
  if negb (Z.rem updatedZoom 25 =? 0)%Z
  then while_not_multiple (-1) loop_fuel updatedZoom
  else (updatedZoom - 25)%Z.

(** "25% jumps" when zooming in (2220-2229). *)
Definition jump_up (z : Q) : Z :=
  let updatedZoom := parseInt (z * 100) in
  if negb (Z.rem updatedZoom 25 =? 0)%Z
  then while_not_multiple 1 loop_fuel updatedZoom
  else (updatedZoom + 25)%Z.

(** The body of a handler either falls through to the next statement with
    the canvas it has reached, or executes [return]. *)
Inductive flow : Type :=
| Next (c : canvas)
| Return (c : canvas).

Definition andThen (f : flow) (k : canvas -> flow) : flow :=
  match f with
  | Next c => k c
  | Return c => Return c
  end.

Definition finish (f : flow) : canvas :=
  match f with
  | Next c => c
  | Return c => c
  end.

(** ctr -: zoom out (2193-2212). *)
Definition zoomOutBlock (e : key_event) (c : canvas) : flow :=
  if (key_of e =? 189)%Z && ctrlKey e then
    if Qeq_bool (getZoom c) minZoom then Return c
    else
      let updatedZoom := inject_Z (jump_down (getZoom c)) / 100 in
      let updatedZoom := if Qle_bool updatedZoom 0 then minZoom else updatedZoom in
      Next (applyZoom updatedZoom c)
  else Next c.

(** ctr +: zoom in (2216-2235). *)
Definition zoomInBlock (e : key_event) (c : canvas) : flow :=
  if (key_of e =? 187)%Z && ctrlKey e then
    if Qeq_bool (getZoom c) maxZoom then Return c
    else
      let updatedZoom := inject_Z (jump_up (getZoom c)) / 100 in
      let updatedZoom := if Qgt_bool updatedZoom maxZoom then maxZoom else updatedZoom in
      Next (applyZoom updatedZoom c)
  else Next c.

(** ctr 0: reset (2239-2242). *)
Definition zoomResetBlock (e : key_event) (c : canvas) : flow :=
  if ((key_of e =? 96)%Z || (key_of e =? 48)%Z || (key_of e =? 192)%Z) && ctrlKey e
  then Next (applyZoom 1 c)
  else Next c.

(** [zoomWithKeys(e, canvas, applyZoom)]: the three blocks in sequence. *)
Definition zoomWithKeys (e : key_event) (c : canvas) : canvas :=
  finish (andThen (andThen (zoomOutBlock e c) (zoomInBlock e)) (zoomResetBlock e)).

(** The whole-percent form of a zoom level, as the handler computes it. *)
Definition wholePercent (z : Q) : Z := parseInt (z * 100).

(** A run of keyboard events through the listener. *)
Definition zoomWithKeysAll (es : list key_event) (c : canvas) : canvas :=
  fold_left (fun c e => zoomWithKeys e c) es c.

Definition ctrlMinus : key_event := KeyEvent 189 189 true.
Definition ctrlPlus : key_event := KeyEvent 187 187 true.

(** The zoom level ctr - leaves, as a function of the current one. *)
Definition zoomOutValue (z : Q) : Q :=
  if Qeq_bool z minZoom then z
  else if Qle_bool (inject_Z (jump_down z) / 100) 0 then minZoom
       else inject_Z (jump_down z) / 100.

(** The zoom level is within its bounds. *)
Definition zoomInBounds (c : canvas) : Prop := minZoom <= zoom c <= maxZoom.

(** An 800 x 600 canvas without objects, at zoom [z]. *)
Definition blank (z : Q) : canvas := Canvas z (800 * z) (600 * z) 800 600 [] None.

(** *** Zooming with the wheel and the zoom menu *)

(** The fields of a [WheelEvent] the listener reads. *)
Record wheel_event : Type := WheelEvent {
  wheelCtrlKey : bool;
  deltaY : Q
}.

(** [x.toFixed(2)], read back as a Number: the integer [n] for which
    [n / 100] is nearest to [x], the larger one at a tie, on the absolute
    value of [x]. *)
Definition toFixed2 (x : Q) : Q :=
  if Qle_bool 0 x then inject_Z (Qfloor (x * 100 + (1 # 2))) / 100
  else - (inject_Z (Qfloor (- x * 100 + (1 # 2))) / 100).

(** [zoomWithMouse] (core.js, 2246-2256), with the arithmetic carried out
    exactly; [Zoom64.zoomWithMouse] has it on binary64 Numbers. *)
Definition zoomWithMouse (e : wheel_event) (c : canvas) : canvas :=
  if negb (wheelCtrlKey e) then c
  else
    let updatedZoom := toFixed2 (getZoom c) in
    let zoomAmount := if Qgt_bool (deltaY e) 0 then - (5) else 5 in
    let updatedZoom := ((updatedZoom * 100) + zoomAmount) / 100 in
    if Qgt_bool minZoom updatedZoom || Qgt_bool updatedZoom maxZoom then c
    else applyZoom updatedZoom c.

(** The levels the zoom menu offers (core.js, 2012). *)
Definition zoomLevels : list Q :=
  [5 # 100; 1 # 10; 25 # 100; 1 # 2; 75 # 100; 1; 3 # 2; 2; 5 # 2; 3].

(** The change listener of the zoom menu (core.js, 2017-2020), with the
    [k]-th option chosen. *)
Definition selectZoom (k : nat) (c : canvas) : canvas :=
  match nth_error zoomLevels k with
  | Some z => applyZoom z c
  | None => c
  end.

(** Everything that sets the zoom level. *)
Inductive zoom_event : Type :=
| Keydown (e : key_event)
| Wheel (e : wheel_event)
| MenuChoice (k : nat).

Definition zoomStep (c : canvas) (ev : zoom_event) : canvas :=
  match ev with
  | Keydown e => zoomWithKeys e c
  | Wheel e => zoomWithMouse e c
  | MenuChoice k => selectZoom k c
  end.

Definition zoomRun (evs : list zoom_event) (c : canvas) : canvas :=
  fold_left zoomStep evs c.

Definition ctrlZero : key_event := KeyEvent 48 48 true.
Definition wheelUp : wheel_event := WheelEvent true (- (100)).
Definition wheelDown : wheel_event := WheelEvent true 100.

(** The canvas has the size its zoom level gives it. *)
Definition sized (c : canvas) : Prop :=
  width c == originalW c * zoom c /\ height c == originalH c * zoom c.

(** The zoom level ctr + leaves, as a function of the current one. *)
Definition zoomInValue (z : Q) : Q :=
  if Qeq_bool z maxZoom then z
  else if Qgt_bool (inject_Z (jump_up z) / 100) maxZoom then maxZoom
       else inject_Z (jump_up z) / 100.

(** What a zoom handler leaves alone. *)
Definition keepsRest (c c' : canvas) : Prop :=
  originalW c' = originalW c /\ originalH c' = originalH c /\
  objects c' = objects c /\ activeObject c' = activeObject c /\
  (sized c -> sized c').

End Zoom.

(** ** Editor shell: history handlers and keyboard listeners *)

Module Editor.

Section Shell.

Variable H : Type.
Context `{UndoRedoStack H} `{Serializer}.

(** The state the handlers of one [ImageEditor] instance share. *)
Record editor : Type := EditorState {
  ed_canvas : canvas;
  ed_history : H;
  console : list string
}.

(** A statement completes normally or abruptly, with a thrown value. *)
Inductive completion (A : Type) : Type :=
| Normal (a : A)
| Throw (exn : string).

Arguments Normal {A} a.
Arguments Throw {A} exn.

(** Statements run on the editor state; what was written before a [throw]
    stays written. *)
Definition stmt (A : Type) : Type := editor -> completion A * editor.

Definition ret {A : Type} (a : A) : stmt A := fun ed => (Normal a, ed).

Definition bind {A B : Type} (m : stmt A) (k : A -> stmt B) : stmt B :=
  fun ed =>
    match m ed with
    | (Normal a, ed') => k a ed'
    | (Throw x, ed') => (Throw x, ed')
    end.

Definition throw {A : Type} (x : string) : stmt A := fun ed => (Throw x, ed).

(** [try { body } catch (_) { handler }]. *)
Definition try_catch (body handler : stmt unit) : stmt unit :=
  fun ed =>
    match body ed with
    | (Normal a, ed') => (Normal a, ed')
    | (Throw _, ed') => handler ed'
    end.

Definition gets {A : Type} (f : editor -> A) : stmt A := fun ed => (Normal (f ed), ed).

Definition modify (f : editor -> editor) : stmt unit := fun ed => (Normal tt, f ed).

Definition skip : stmt unit := ret tt.

Notation "x <- m ;; k" := (bind m (fun x => k))
  (at level 61, m at next level, right associativity).
Notation "m ;;; k" := (bind m (fun _ => k))
  (at level 61, right associativity).

Definition console_log (msg : string) : stmt unit :=
  modify (fun ed => EditorState (ed_canvas ed) (ed_history ed) (console ed ++ [msg])).

Definition console_error (msg : string) : stmt unit := console_log msg.

Definition setCanvas (f : canvas -> canvas) : stmt unit :=
  modify (fun ed => EditorState (f (ed_canvas ed)) (ed_history ed) (console ed)).

Definition setHistory (f : H -> H) : stmt unit :=
  modify (fun ed => EditorState (ed_canvas ed) (f (ed_history ed)) (console ed)).

(** A string is truthy unless it is empty. *)
Definition truthy (s : string) : bool :=
  match s with
  | EmptyString => false
  | _ => true
  end.

(** [JSON.parse(s)], which throws on a malformed text. *)
Definition parse (s : string) : stmt json :=
  match JSON_parse s with
  | Some j => ret j
  | None => throw "SyntaxError"
  end.

(** [current && this.canvas.loadFromJSON(JSON.parse(current), ...)] *)
Definition restore (current : string) : stmt unit :=
  if truthy current then
    j <- parse current ;;
    setCanvas (loadFromJSON j)
  else skip.

(** [this.undo] (core.js, 119-131). *)
Definition undo : stmt unit :=
  console_log "undo" ;;;
  try_catch
    (undoList <- gets (fun ed => fst (getValues (ed_history ed))) ;;
     if negb (Nat.eqb (List.length undoList) 0) then
       let current := last undoList EmptyString in
       setHistory history_undo ;;;
       restore current
     else skip)
    (console_error "undo failed").

(** [this.redo] (core.js, 136-148). *)
Definition redo : stmt unit :=
  console_log "redo" ;;;
  try_catch
    (redoList <- gets (fun ed => snd (getValues (ed_history ed))) ;;
     if negb (Nat.eqb (List.length redoList) 0) then
       let current := last redoList EmptyString in
       setHistory history_redo ;;;
       restore current
     else skip)
    (console_error "redo failed").

(** The canvas' ['object:modified'] listener (core.js, 319-323). *)
Definition objectModified : stmt unit :=
  console_log "trigger: modified" ;;;
  currentState <- gets (fun ed => toJSON (ed_canvas ed)) ;;
  setHistory (push (JSON_stringify currentState)).

(** The keydown listeners.  [focus] is
    [document.querySelectorAll('textarea:focus, input:focus').length]. *)

(** [ctrZY] (core.js, 164-171). *)
Definition ctrZY (e : key_event) (focus : nat) : stmt unit :=
  let key := key_of e in
  if ctrlKey e && Nat.eqb focus 0 then
    (if (key =? 90)%Z then undo else skip) ;;;
    (if (key =? 89)%Z then redo else skip)
  else skip.

Definition isArrow (key : Z) : bool :=
  (key =? 37)%Z || (key =? 38)%Z || (key =? 39)%Z || (key =? 40)%Z.

Definition setLeft (x : Q) (o : fobject) : fobject := FObject (oid o) x (top o).
Definition setTop (y : Q) (o : fobject) : fobject := FObject (oid o) (left o) y.

(** "move objects with arrow keys" (core.js, 331-360).  With another key
    [activeObject] stays undefined and no statement touches it. *)
Definition arrowKeys (e : key_event) (focus : nat) : stmt unit :=
  let key := key_of e in
  if Nat.ltb 0 focus then skip
  else if isArrow key then
    active <- gets (fun ed => activeObject (ed_canvas ed)) ;;
    match active with
    | None => skip
    | Some i =>
        setCanvas (updateObject i (fun o =>
          if (key =? 37)%Z then setLeft (left o - 1) o
          else if (key =? 39)%Z then setLeft (left o + 1) o
          else if (key =? 38)%Z then setTop (top o - 1) o
          else if (key =? 40)%Z then setTop (top o + 1) o
          else o)) ;;;
        objectModified
    end
  else skip.

(** "delete object on del key" (core.js, 363-379). *)
Definition deleteKey (e : key_event) (focus : nat) : stmt unit :=
  let key := key_of e in
  if (key =? 46)%Z && Nat.eqb focus 0 then
    setCanvas (fun c => fold_left (fun c obj => remove obj c) (getActiveObjects c) c) ;;;
    setCanvas discardActiveObject ;;;
    objectModified
  else skip.

(** [keyZoom] (core.js, 186): the zoom listener is handed the event and the
    canvas, and never the focus. *)
Definition keyZoom (e : key_event) (focus : nat) : stmt unit :=
  setCanvas (Zoom.zoomWithKeys e).

(** One keydown event reaches the listeners in turn.  A listener that
    throws does not keep the others from running. *)
Definition isolated (m : stmt unit) : stmt unit := try_catch m skip.

(** The four listeners the shell registers itself, in the order of their
    registration.  The document has a fifth, the path tool's (core.js,
    1039-1044), which works on the path tool's state: [Page.documentKeydown]
    below runs all five. *)
Definition keydown (e : key_event) (focus : nat) : stmt unit :=
  isolated (ctrZY e focus) ;;;
  isolated (arrowKeys e focus) ;;;
  isolated (deleteKey e focus) ;;;
  isolated (keyZoom e focus).

End Shell.

Arguments Normal {A} a.
Arguments Throw {A} exn.
Arguments EditorState {H} _ _ _.
Arguments ed_canvas {H} _.
Arguments ed_history {H} _.
Arguments console {H} _.
Arguments ret {H A} _ _.
Arguments bind {H A B} _ _ _.
Arguments throw {H A} _ _.
Arguments try_catch {H} _ _ _.
Arguments gets {H A} _ _.
Arguments modify {H} _ _.
Arguments skip {H} _.
Arguments console_log {H} _ _.
Arguments console_error {H} _ _.
Arguments setCanvas {H} _ _.
Arguments setHistory {H} _ _.
Arguments parse {H _} _ _.
Arguments restore {H _} _ _.
Arguments undo {H _ _} _.
Arguments redo {H _ _} _.
Arguments objectModified {H _ _} _.
Arguments ctrZY {H _ _} _ _ _.
Arguments arrowKeys {H _ _} _ _ _.
Arguments deleteKey {H _ _} _ _ _.
Arguments keyZoom {H} _ _ _.
Arguments isolated {H} _ _.
Arguments keydown {H _ _} _ _ _.

(** Modelled from the spec: [window.UndoRedoStack], which core.js calls and
    does not define.  [push] appends a snapshot and clears the redo branch,
    [undo] moves the newest snapshot to the redo branch, [redo] moves it
    back. *)
#[export] Instance listStack : UndoRedoStack (list string * list string) := {|
  getValues := fun h => h;
  push := fun s h => (fst h ++ [s], []);
  history_undo := fun h =>
    match fst h with
    | [] => h
    | _ => (removelast (fst h), snd h ++ [last (fst h) EmptyString])
    end;
  history_redo := fun h =>
    match snd h with
    | [] => h
    | _ => (fst h ++ [last (snd h) EmptyString], removelast (snd h))
    end
|}.

(** A serializer that knows a single document, the empty canvas, written
    ["{}"]; every other text is malformed.  Loading it leaves the canvas
    with no object and nothing selected. *)
#[export] Instance emptyDocument : Serializer := {|
  json := unit;
  toJSON := fun _ => tt;
  JSON_stringify := fun _ => "{}"%string;
  JSON_parse := fun s => if String.eqb s "{}" then Some tt else None;
  loadFromJSON := fun _ c => discardActiveObject (setObjects [] c)
|}.

(** *** Measures for the keyboard listeners *)

(** The step an arrow key makes: 37 left, 38 up, 39 right, 40 down. *)
Definition dx (key : Z) : Q :=
  if (key =? 37)%Z then - (1) else if (key =? 39)%Z then 1 else 0.
Definition dy (key : Z) : Q :=
  if (key =? 37)%Z then 0 else if (key =? 39)%Z then 0
  else if (key =? 38)%Z then - (1) else if (key =? 40)%Z then 1 else 0.

(** The object is where [o] was, moved by the arrow [key]. *)
Definition nudged (key : Z) (o o' : fobject) : Prop :=
  oid o' = oid o /\ (left o' == left o + dx key)%Q /\ (top o' == top o + dy key)%Q.

(** Two arrow keys that point in opposite directions. *)
Definition opposite (k1 k2 : Z) : Prop :=
  (k1 = 37 /\ k2 = 39 \/ k1 = 39 /\ k2 = 37 \/ k1 = 38 /\ k2 = 40 \/ k1 = 40 /\ k2 = 38)%Z.

Definition samePlace (o o' : fobject) : Prop :=
  oid o' = oid o /\ (left o' == left o)%Q /\ (top o' == top o)%Q.

(** A whole number that a binary64 Number holds exactly, as it does the
    whole numbers next to it: there [left + 1] and [left - 1] round
    nothing away. *)
Definition wholeNumber (x : Q) : Prop :=
  exists k : Z, (x == inject_Z k)%Q /\ (Z.abs k < 2 ^ 53)%Z.

(** The selected object sits on whole numbers. *)
Definition onPixelGrid (i : nat) (c : canvas) : Prop :=
  forall o, In o (objects c) -> oid o = i -> wholeNumber (left o) /\ wholeNumber (top o).

(** The keys one of the shell's four keydown listeners acts on. *)
Definition isShortcut (e : key_event) : bool :=
  isArrow (key_of e) || (key_of e =? 46)%Z ||
  (ctrlKey e &&
   ((key_of e =? 90) || (key_of e =? 89) || (key_of e =? 189) || (key_of e =? 187) ||
    (key_of e =? 96) || (key_of e =? 48) || (key_of e =? 192))%Z).

Definition ctrlZ : key_event := KeyEvent 90 90 true.
Definition ctrlY : key_event := KeyEvent 89 89 true.
Definition arrowLeft : key_event := KeyEvent 37 37 false.
Definition arrowRight : key_event := KeyEvent 39 39 false.
Definition deleteKeyEvent : key_event := KeyEvent 46 46 false.

(** A canvas with two objects, the first of them selected. *)
Definition twoObjects : canvas :=
  Canvas 1 800 600 800 600 [FObject 1 10 20; FObject 2 30 40] (Some 1%nat).

End Editor.

(** ** Pointer drawing tools (core.js, 705-1057) *)

Module Drawing.

Local Open Scope R_scope.

(** *** Numbers and Math *)

(** Truncation toward zero. *)
Definition trunc (x : R) : Z :=
  if Rle_dec 0 x then Int_part x else (- Int_part (- x))%Z.

(** [parseInt(x)] for a Number [x] whose decimal form has no exponent: 0,
    or one with 1e-6 <= |x| < 1e21.  (A smaller one is written with an
    exponent, as in [6.7e-9], of which [parseInt] reads the first digit;
    what is proved of [parseInt] below is on Numbers written without.) *)
Definition parseInt (x : R) : R := IZR (trunc x).

(** [a % b]: the remainder that takes the sign of the dividend. *)
Definition js_rem (a b : R) : R := a - b * IZR (trunc (a / b)).

(** [Math.atan2(y, x)]: the angle of the point [(x, y)], in (-PI, PI]. *)
Definition Math_atan2 (y x : R) : R :=
  if Rlt_dec 0 x then atan (y / x)
  else if Rlt_dec x 0 then
    (if Rle_dec 0 y then atan (y / x) + PI else atan (y / x) - PI)
  else if Rlt_dec 0 y then PI / 2
  else if Rlt_dec y 0 then - (PI / 2)
  else 0.

Definition Math_sqrt : R -> R := sqrt.
Definition Math_cos : R -> R := cos.
Definition Math_sin : R -> R := sin.
Definition Math_PI : R := PI.
Definition Math_abs : R -> R := Rabs.

Definition Rleb (a b : R) : bool := if Rle_dec a b then true else false.

(** *** Angle snapping

    The line tool (737-752) and the path tool (871-886) carry the same
    statements; [startX], [startY] is the point the segment starts from. *)

(** [angle = Math.atan2(y2, x2) / Math.PI * 180] *)
Definition rawAngle (x2 y2 : R) : R := Math_atan2 y2 x2 / Math_PI * 180.

(** [angle = parseInt(((angle + 7.5) % 360) / 15) * 15] *)
Definition snapAngle (angle : R) : R :=
  parseInt (js_rem (angle + 7.5) 360 / 15) * 15.

Definition angleSnap (startX startY : R) (pointer : R * R) : R * R :=
  let x2 := fst pointer - startX in
  let y2 := snd pointer - startY in
  let r := Math_sqrt (x2 * x2 + y2 * y2) in
  let angle := rawAngle x2 y2 in
  let angle := snapAngle angle in
  let cosx := r * Math_cos (angle * Math_PI / 180) in
  let sinx := r * Math_sin (angle * Math_PI / 180) in
  (cosx + startX, sinx + startY).

(** *** Objects and the canvas *)

(** A path command: [['M', x, y]], [['L', x, y]] or [['Q', cx, cy, x, y]]. *)
Inductive segment : Type :=
| M (x y : R)
| L (x y : R)
| Qc (cx cy x y : R).

(** [p[1]] and [p[2]]: for a curve these are the control point. *)
Definition at1 (p : segment) : R :=
  match p with M x _ => x | L x _ => x | Qc cx _ _ _ => cx end.
Definition at2 (p : segment) : R :=
  match p with M _ y => y | L _ y => y | Qc _ cy _ _ => cy end.

(** [p[1] = x; p[2] = y] *)
Definition set12 (p : segment) (x y : R) : segment :=
  match p with
  | M _ _ => M x y
  | L _ _ => L x y
  | Qc _ _ ex ey => Qc x y ex ey
  end.

Inductive shape : Type :=
| Line (x1 y1 x2 y2 : R)
| Path (path : list segment).

(** Objects live in a store and are referred to by identity: the tool's
    [lineToDraw] / [pathToDraw] and the canvas hold the same object.
    [onCanvas] lists the objects added to the canvas; [modified] counts the
    ['object:modified'] events triggered.  The dimensions fabric derives from
    a path ([_calcDimensions]) are not kept. *)
Record canvas : Type := Canvas {
  isDrawingLineMode : bool;
  isDrawingPathMode : bool;
  store : list (nat * shape);
  onCanvas : list nat;
  modified : nat
}.

Fixpoint lookup (i : nat) (s : list (nat * shape)) : option shape :=
  match s with
  | [] => None
  | (j, v) :: s' => if Nat.eqb i j then Some v else lookup i s'
  end.

Fixpoint update (i : nat) (v : shape) (s : list (nat * shape)) : list (nat * shape) :=
  match s with
  | [] => []
  | (j, w) :: s' => if Nat.eqb i j then (j, v) :: s' else (j, w) :: update i v s'
  end.

(** A reference no object of the store has. *)
Definition fresh (s : list (nat * shape)) : nat :=
  S (fold_right (fun e m => Nat.max (fst e) m) O s).

Definition write (i : nat) (v : shape) (c : canvas) : canvas :=
  Canvas (isDrawingLineMode c) (isDrawingPathMode c)
         (update i v (store c)) (onCanvas c) (modified c).

(** [new fabric...(); fabricCanvas.add(obj)] *)
Definition add (v : shape) (c : canvas) : nat * canvas :=
  let i := fresh (store c) in
  (i, Canvas (isDrawingLineMode c) (isDrawingPathMode c)
             (store c ++ [(i, v)]) (onCanvas c ++ [i]) (modified c)).

(** [fabricCanvas.remove(obj)] *)
Definition remove (i : nat) (c : canvas) : canvas :=
  Canvas (isDrawingLineMode c) (isDrawingPathMode c)
         (store c) (filter (fun j => negb (Nat.eqb j i)) (onCanvas c)) (modified c).

(** [fabricCanvas.trigger('object:modified')] *)
Definition trigger_modified (c : canvas) : canvas :=
  Canvas (isDrawingLineMode c) (isDrawingPathMode c)
         (store c) (onCanvas c) (S (modified c)).

Definition contains (i : nat) (c : canvas) : bool :=
  existsb (Nat.eqb i) (onCanvas c).

(** A mouse event: [fabricCanvas.getPointer(o.e)] and [o.e.shiftKey]. *)
Record mouse_event : Type := MouseEvent {
  getPointer : R * R;
  shiftKey : bool
}.

(** *** Line tool (709-772) *)

Record lineTool : Type := LineTool {
  isDrawingLine : bool;
  lineToDraw : option nat;
  line_pointer : R * R;
  pointerPoints : R * R * R * R
}.

Definition lineTool_init : lineTool :=
  LineTool false None (0, 0) (0, 0, 0, 0).

(** [lineToDraw.set({x2: x, y2: y})] *)
Definition set_x2y2 (ref : option nat) (x y : R) (c : canvas) : option canvas :=
  match ref with
  | Some i =>
      match lookup i (store c) with
      | Some (Line x1 y1 _ _) => Some (write i (Line x1 y1 x y) c)
      | _ => None
      end
  | None => None
  end.

(** Handlers return [None] where the JavaScript throws a [TypeError]
    (a property read off [undefined] or [null]). *)

Definition lineMouseDown (o : mouse_event) (st : lineTool * canvas)
  : option (lineTool * canvas) :=
  let (t, c) := st in
  if negb (isDrawingLineMode c) then Some st
  else
    let pointer := getPointer o in
    let pointerPoints := (fst pointer, snd pointer, fst pointer, snd pointer) in
    let (i, c) := add (Line (fst pointer) (snd pointer) (fst pointer) (snd pointer)) c in
    Some (LineTool true (Some i) pointer pointerPoints, c).

Definition lineMouseMove (o : mouse_event) (st : lineTool * canvas)
  : option (lineTool * canvas) :=
  let (t, c) := st in
  if negb (isDrawingLine t) then Some st
  else
    let pointer := getPointer o in
    let t := LineTool (isDrawingLine t) (lineToDraw t) pointer (pointerPoints t) in
    if shiftKey o then
      let '(startX, startY, _, _) := pointerPoints t in
      let (x, y) := angleSnap startX startY pointer in
      option_map (fun c => (t, c)) (set_x2y2 (lineToDraw t) x y c)
    else
      option_map (fun c => (t, c)) (set_x2y2 (lineToDraw t) (fst pointer) (snd pointer) c).

Definition lineMouseUp (st : lineTool * canvas) : option (lineTool * canvas) :=
  let (t, c) := st in
  if negb (isDrawingLine t) then Some st
  else
    match lineToDraw t with
    | None => None
    | Some _ =>
        Some (LineTool false (lineToDraw t) (line_pointer t) (pointerPoints t),
              trigger_modified c)
    end.

(** The free endpoint [(x2, y2)] of the line the tool holds. *)
Definition freeEndpoint (st : lineTool * canvas) : option (R * R) :=
  match lineToDraw (fst st) with
  | Some i =>
      match lookup i (store (snd st)) with
      | Some (Line _ _ x2 y2) => Some (x2, y2)
      | _ => None
      end
  | None => None
  end.

(** *** Path tool (781-1054) *)

(** [inRange] (781-790): a square of half-side [radius] around the target. *)
Definition inRange (radius cursorX cursorY targetX targetY : R) : bool :=
  if Rleb (Math_abs (cursorX - targetX)) radius &&
     Rleb (Math_abs (cursorY - targetY)) radius
  then true
  else false.

Record pathTool : Type := PathTool {
  isDrawingPath : bool;
  pathToDraw : option nat;
  path_pointer : R * R;
  updatedPath : segment;
  isMouseDown : bool;
  isDrawingCurve : bool;
  rememberX : R;
  rememberY : R
}.

Definition pathTool_init : pathTool :=
  PathTool false None (0, 0) (L 0 0) false false 0 0.

(** [pathToDraw.path] *)
Definition pathOf (ref : option nat) (c : canvas) : option (nat * list segment) :=
  match ref with
  | Some i =>
      match lookup i (store c) with
      | Some (Path p) => Some (i, p)
      | _ => None
      end
  | None => None
  end.

(** mouse:down (803-848) *)
Definition pathMouseDown (o : mouse_event) (st : pathTool * canvas)
  : option (pathTool * canvas) :=
  let (t, c) := st in
  if negb (isDrawingPathMode c) then Some st
  else
    let pointer := getPointer o in
    let t := PathTool true (pathToDraw t) pointer (updatedPath t) true
                      (isDrawingCurve t) (rememberX t) (rememberY t) in
    match pathToDraw t with
    | None =>
        (* if first point, no extras, just place the point *)
        let (i, c) := add (Path [M (fst pointer) (snd pointer);
                                 L (fst pointer) (snd pointer)]) c in
        Some (PathTool (isDrawingPath t) (Some i) (path_pointer t) (updatedPath t)
                       (isMouseDown t) (isDrawingCurve t) (rememberX t) (rememberY t),
              c)
    | Some _ =>
        (* not the first point, add a new line *)
        match pathOf (pathToDraw t) c with
        | Some (i, path) =>
            Some (t, write i (Path (path ++ [L (fst pointer) (snd pointer)])) c)
        | None => None
        end
    end.

(** "detect and snap to closest line if within range": the loop over
    [snapPoints], left at the first point in range (895-910). *)
Fixpoint snapLoop (pointer : R * R) (snapPoints : list segment)
                  (updatedPath : segment) : segment :=
  match snapPoints with
  | [] => updatedPath
  | p :: rest =>
      match p with
      | Qc _ _ x y =>
          if inRange 10 (fst pointer) (snd pointer) x y
          then set12 updatedPath x y
          else snapLoop pointer rest updatedPath
      | _ =>
          if inRange 10 (fst pointer) (snd pointer) (at1 p) (at2 p)
          then set12 updatedPath (at1 p) (at2 p)
          else snapLoop pointer rest updatedPath
      end
  end.

(** [p[3]] and [p[4]], which only a curve has. *)
Definition at34 (p : segment) : option (R * R) :=
  match p with
  | Qc _ _ x y => Some (x, y)
  | _ => None
  end.

(** [[...path].pop()] *)
Definition lastOf (path : list segment) : option segment :=
  match path with
  | [] => None
  | p :: rest => Some (last rest p)
  end.

(** mouse:move (852-969).  [None] also stands for a Number that would be
    [NaN] (arithmetic on [undefined]). *)
Definition pathMouseMove (o : mouse_event) (st : pathTool * canvas)
  : option (pathTool * canvas) :=
  let (t, c) := st in
  if negb (isDrawingPathMode c) then Some st
  else if negb (isDrawingPath t) then Some st
  else
    (* update the last path command as we move the mouse *)
    let pointer := getPointer o in
    let updatedPath :=
      if negb (isDrawingCurve t) then L (fst pointer) (snd pointer)
      else updatedPath t in
    match pathOf (pathToDraw t) c with
    | None => None
    | Some (i, path) =>
        let path := removelast path in
        (* shift key is down, jump angles *)
        let afterShift :=
          if shiftKey o && negb (isDrawingCurve t) then
            match lastOf path with
            | None => None
            | Some lastPoint =>
                let startX := at1 lastPoint in
                let startY := at2 lastPoint in
                let (x, y) := angleSnap startX startY pointer in
                Some (set12 updatedPath x y)
            end
          else Some updatedPath in
        match afterShift with
        | None => None
        | Some updatedPath =>
            (* detect and snap to closest line if within range *)
            let updatedPath :=
              if Nat.ltb 1 (List.length path) && negb (isDrawingCurve t)
              then snapLoop pointer (removelast path) updatedPath
              else updatedPath in
            (* curve creating *)
            let afterCurve :=
              if isMouseDown t then
                if negb (isDrawingCurve t) && Nat.ltb 1 (List.length path) then
                  match lastOf path with
                  | None => None
                  | Some lastPath =>
                      let (x, y) :=
                        match lastPath with
                        | Qc _ _ x y => (x, y)
                        | _ => (at1 lastPath, at2 lastPath)
                        end in
                      Some (removelast path, Qc x y x y, true, x, y)
                  end
                else if isDrawingCurve t then
                  match at34 updatedPath with
                  | None => None
                  | Some (x3, y4) =>
                      let mouseMoveX := fst pointer - x3 in
                      let mouseMoveY := snd pointer - y4 in
                      Some (path,
                            Qc (rememberX t - mouseMoveX) (rememberY t - mouseMoveY)
                               (rememberX t) (rememberY t),
                            isDrawingCurve t, rememberX t, rememberY t)
                  end
                else Some (path, updatedPath, isDrawingCurve t, rememberX t, rememberY t)
              else Some (path, updatedPath, isDrawingCurve t, rememberX t, rememberY t) in
            match afterCurve with
            | None => None
            | Some (path, updatedPath, curve, rx, ry) =>
                (* add new path *)
                Some (PathTool (isDrawingPath t) (pathToDraw t) pointer updatedPath
                               (isMouseDown t) curve rx ry,
                      write i (Path (path ++ [updatedPath])) c)
            end
        end
    end.

(** mouse:up (971-1004) *)
Definition pathMouseUp (o : mouse_event) (st : pathTool * canvas)
  : option (pathTool * canvas) :=
  let (t, c) := st in
  if negb (isDrawingPathMode c) then
    Some (PathTool (isDrawingPath t) (pathToDraw t) (path_pointer t) (updatedPath t)
                   false false (rememberX t) (rememberY t), c)
  else if isDrawingCurve t then
    (* place current curve by starting a new line *)
    let pointer := getPointer o in
    match pathOf (pathToDraw t) c with
    | None => None
    | Some (i, path) =>
        Some (PathTool (isDrawingPath t) (pathToDraw t) pointer (updatedPath t)
                       false false (rememberX t) (rememberY t),
              write i (Path (path ++ [L (fst pointer) (snd pointer)])) c)
    end
  else
    Some (PathTool (isDrawingPath t) (pathToDraw t) (path_pointer t) (updatedPath t)
                   false false (rememberX t) (rememberY t), c).

(** "cancel drawing, remove last line" (1007-1036) *)
Definition cancelDrawing (st : pathTool * canvas) : option (pathTool * canvas) :=
  let (t, c) := st in
  match pathOf (pathToDraw t) c with
  | None => None
  | Some (i, path) =>
      (* remove last line *)
      let path := removelast path in
      let c := write i (Path path) c in
      let c :=
        if Nat.ltb 1 (List.length path) then c
        else (* if there is no line, just the starting point then remove *)
          remove i c in
      let c := trigger_modified c in
      Some (PathTool false None (path_pointer t) (updatedPath t) (isMouseDown t)
                     (isDrawingCurve t) (rememberX t) (rememberY t), c)
  end.

(** "cancel drawing on esc key or outside click" (1039-1052).
    [inside] is [document.querySelector('.canvas-container').contains(e.target)]. *)
Definition pathKeydown (e : key_event) (st : pathTool * canvas)
  : option (pathTool * canvas) :=
  if negb (isDrawingPath (fst st)) then Some st
  else if (key_of e =? 27)%Z then cancelDrawing st
  else Some st.

Definition pathDocMouseDown (inside : bool) (st : pathTool * canvas)
  : option (pathTool * canvas) :=
  if negb (isDrawingPath (fst st)) then Some st
  else if negb inside then cancelDrawing st
  else Some st.

Definition escape : key_event := KeyEvent 27 27 false.

(** A canvas no drawing tool has touched. *)
Definition untouched : canvas := Canvas false false [] [] 0.

(** The commands of the path the tool is drawing, if it is on the canvas. *)
Definition drawnPath (i : nat) (c : canvas) : option (list segment) :=
  if contains i c then
    match lookup i (store c) with
    | Some (Path p) => Some p
    | _ => None
    end
  else None.

(** *** Measures and runs of events *)

(** Euclidean distance between two points. *)
Definition distance (p q : R * R) : R :=
  sqrt ((fst q - fst p) * (fst q - fst p) + (snd q - snd p) * (snd q - snd p)).

(** The point a path command ends at. *)
Definition endpoint (p : segment) : R * R :=
  match p with
  | M x y => (x, y)
  | L x y => (x, y)
  | Qc _ _ x y => (x, y)
  end.

(** The first command of [snapPoints] whose end point has the pointer in
    range. *)
Definition firstInRange (pointer : R * R) (snapPoints : list segment) : option segment :=
  find (fun p => inRange 10 (fst pointer) (snd pointer) (fst (endpoint p)) (snd (endpoint p)))
       snapPoints.

Definition next {A B : Type} (m : option A) (k : A -> option B) : option B :=
  match m with
  | Some a => k a
  | None => None
  end.

(** The line tool on an empty canvas: press at (0,0), move to (100,5) with
    Shift held, release. *)
Definition shiftLine : option (lineTool * canvas) :=
  let st := (lineTool_init, Canvas true false [] [] 0) in
  next (lineMouseDown (MouseEvent (0, 0) true) st) (fun st =>
  next (lineMouseMove (MouseEvent (100, 5) true) st) lineMouseUp).

(** The same with the pointer moved straight up, to (0,-100). *)
Definition shiftLineUp : option (lineTool * canvas) :=
  let st := (lineTool_init, Canvas true false [] [] 0) in
  next (lineMouseDown (MouseEvent (0, 0) true) st) (fun st =>
  next (lineMouseMove (MouseEvent (0, -100) true) st) lineMouseUp).

(** The path tool on an empty canvas: click at (0,0), move to (100,0), click
    there, then move the pointer to (100,3). *)
Definition twoClicks : option (pathTool * canvas) :=
  let st := (pathTool_init, Canvas false true [] [] 0) in
  next (pathMouseDown (MouseEvent (0, 0) false) st) (fun st =>
  next (pathMouseUp (MouseEvent (0, 0) false) st) (fun st =>
  next (pathMouseMove (MouseEvent (100, 0) false) st) (fun st =>
  next (pathMouseDown (MouseEvent (100, 0) false) st) (fun st =>
  pathMouseUp (MouseEvent (100, 0) false) st)))).

Definition twoClicksThenMove : option (pathTool * canvas) :=
  next twoClicks (pathMouseMove (MouseEvent (100, 3) false)).

(** *** Gestures *)

(** A run of mouse:move events through the line tool. *)
Definition lineMoves (moves : list mouse_event) (st : lineTool * canvas)
  : option (lineTool * canvas) :=
  fold_left (fun acc o => next acc (lineMouseMove o)) moves (Some st).

(** One gesture of the line tool: press, move, release. *)
Definition lineGesture (down : mouse_event) (moves : list mouse_event)
                       (st : lineTool * canvas) : option (lineTool * canvas) :=
  next (lineMouseDown down st) (fun st =>
  next (lineMoves moves st) lineMouseUp).

(** Where a move event puts the free end of a line anchored at [anchor]. *)
Definition lineEnd (anchor : R * R) (o : mouse_event) : R * R :=
  if shiftKey o then angleSnap (fst anchor) (snd anchor) (getPointer o)
  else getPointer o.

(** The pointer events the path tool listens to. *)
Inductive pointer_event : Type :=
| Down (o : mouse_event)
| Move (o : mouse_event)
| Up (o : mouse_event).

Definition pathStep (ev : pointer_event) (st : pathTool * canvas)
  : option (pathTool * canvas) :=
  match ev with
  | Down o => pathMouseDown o st
  | Move o => pathMouseMove o st
  | Up o => pathMouseUp o st
  end.

Definition pathRun (evs : list pointer_event) (st : pathTool * canvas)
  : option (pathTool * canvas) :=
  fold_left (fun acc ev => next acc (pathStep ev)) evs (Some st).

Definition startsWithMove (path : list segment) : Prop :=
  match path with
  | M _ _ :: _ => True
  | _ => False
  end.

(** The state of the path tool between two events: the mode is on, a path
    being drawn is in the store with its starting point and at least one
    more command, and while a curve is edited [updatedPath] is that curve. *)
Definition pathReady (st : pathTool * canvas) : Prop :=
  let (t, c) := st in
  isDrawingPathMode c = true /\
  (isDrawingPath t = true -> pathToDraw t <> None) /\
  (forall i, pathToDraw t = Some i ->
     exists path, lookup i (store c) = Some (Path path) /\
                  (2 <= List.length path)%nat /\ startsWithMove path) /\
  (isDrawingCurve t = true -> pathToDraw t <> None /\ at34 (updatedPath t) <> None).

(** The reflection of the point [p] through the point [e]. *)
Definition mirrored (e p : R * R) : R * R :=
  (fst e - (fst p - fst e), snd e - (snd p - snd e)).

(** A run of mouse:move events through the path tool. *)
Definition pathMoves (moves : list mouse_event) (st : pathTool * canvas)
  : option (pathTool * canvas) :=
  pathRun (map Move moves) st.

(** The path tool after clicks at (0,0) and (100,0), the button still held
    after the second. *)
Definition secondPress : pathTool * canvas :=
  (PathTool true (Some 1%nat) (100, 0) (L 100 0) true false 0 0,
   Canvas false true [(1%nat, Path [M 0 0; L 100 0; L 100 0])] [1%nat] 0).

(** The same with the button released and the pointer moved to (50, 50). *)
Definition previewing : pathTool * canvas :=
  (PathTool true (Some 1%nat) (50, 50) (L 50 50) false false 0 0,
   Canvas false true [(1%nat, Path [M 0 0; L 100 0; L 50 50])] [1%nat] 0).

(** The second segment being pulled into a curve. *)
Definition bending : pathTool * canvas :=
  (PathTool true (Some 1%nat) (120, 30) (Qc 80 (-30) 100 0) true true 100 0,
   Canvas false true [(1%nat, Path [M 0 0; Qc 80 (-30) 100 0])] [1%nat] 0).

End Drawing.

(** ** The keydown listeners of the document, all five *)

Module Page.

Import Editor.

Section Listeners.

Variable H : Type.
Context `{UndoRedoStack H} `{Serializer}.

(** What the keydown listeners of one editor work on: the state of the
    shell, and the path tool with the shapes it draws.  Both look at the one
    fabric canvas; its ['object:modified'] listener is the shell's. *)
Record page : Type := Page {
  pg_editor : editor H;
  pg_path : Drawing.pathTool * Drawing.canvas
}.

(** A listener of the shell, called by the event dispatch: what it throws
    stays with it. *)
Definition onEditor (m : stmt H unit) (p : page) : page :=
  Page (snd (isolated m (pg_editor p))) (pg_path p).

(** The path tool's listener (1039-1044); it does not ask what has focus.
    [cancelDrawing] triggers ['object:modified'], on which the shell's
    listener (319-323) records a snapshot.  Where [cancelDrawing] has no
    path to pop from, its first statement throws and nothing was written. *)
Definition pathEscape (e : key_event) (p : page) : page :=
  if negb (Drawing.isDrawingPath (fst (pg_path p))) then p
  else if (key_of e =? 27)%Z then
    match Drawing.cancelDrawing (pg_path p) with
    | Some st => Page (snd (objectModified (pg_editor p))) st
    | None => p
    end
  else p.

(** One keydown event on the document.  The listeners run in the order
    [init] (199-224) registers them: [ctrZY] (172, from [configUndoRedoStack]),
    the arrow keys (331) and Delete (364, both from [initializeCanvas]),
    the path tool's Escape (1039, from [initializePathDrawing]) and
    [keyZoom] (187, from [initializeZoomEvents]). *)
Definition documentKeydown (e : key_event) (focus : nat) (p : page) : page :=
  let p := onEditor (ctrZY e focus) p in
  let p := onEditor (arrowKeys e focus) p in
  let p := onEditor (deleteKey e focus) p in
  let p := pathEscape e p in
  onEditor (keyZoom e focus) p.

End Listeners.

Arguments Page {H} _ _.
Arguments pg_editor {H} _.
Arguments pg_path {H} _.
Arguments onEditor {H} _ _.
Arguments pathEscape {H _ _} _ _.
Arguments documentKeydown {H _ _} _ _ _.

End Page.

(** ** Effect sliders (core.js, 2522-2625) *)

Module Effects.

Import PrimFloat SpecFloat FloatOps.

Local Open Scope float_scope.

Set Warnings "-inexact-float".

(** An integer as a Number (exact below 2^53). *)
Definition of_Z (z : Z) : float :=
  match z with
  | Z0 => 0
  | Zpos _ => of_uint63 (Uint63.of_Z z)
  | Zneg p => - of_uint63 (Uint63.of_Z (Zpos p))
  end.

(** [Math.round(x)]: the integer nearest to [x], the larger one at a tie;
    that is the floor of [x + 1/2], taken on the exact value
    [n * 2^e] of the Number. *)
Definition Math_round (x : float) : float :=
  match Prim2SF x with
  | S754_finite s m e =>
      if (0 <=? e)%Z then x
      else
        let n := (if s then Z.neg m else Z.pos m) in
        of_Z ((2 * n + 2 ^ (- e)) / 2 ^ (- e + 1))%Z
  | _ => x
  end.

(** A Number is truthy unless it is 0 or NaN; [undefined] is falsy. *)
Definition truthy (x : option float) : bool :=
  match x with
  | Some v => negb (v =? 0) && (v =? v)
  | None => false
  end.

(** [a !== b] on Numbers. *)
Definition neq (a b : float) : bool := negb (a =? b).

(** The image filters the panel creates, each with its one parameter. *)
Inductive filter : Type :=
| Blur (blur : float)
| Brightness (brightness : float)
| Saturation (saturation : float)
| Gamma (gamma : float * float * float).

(** Property reads [x.blur], [x.brightness], [x.saturation], [x.gamma]. *)
Definition get_blur (x : filter) : option float :=
  match x with Blur v => Some v | _ => None end.
Definition get_brightness (x : filter) : option float :=
  match x with Brightness v => Some v | _ => None end.
Definition get_saturation (x : filter) : option float :=
  match x with Saturation v => Some v | _ => None end.
Definition get_gamma (x : filter) : option (float * float * float) :=
  match x with Gamma v => Some v | _ => None end.

(** The selected image. *)
Record selection : Type := Selection {
  sel_opacity : float;
  filters : list filter
}.

Record gamma_rgb : Type := GammaRGB { r : float; g : float; b : float }.

Record effects : Type := EffectValues {
  opacity : float;
  blur : float;
  brightness : float;
  saturation : float;
  gamma : gamma_rgb
}.

(** The [id]s of the six sliders of class [effect] (core.js, 1760-1766). *)
Inductive effect_id : Type :=
| blur_id | brightness_id | saturation_id | gamma_r | gamma_g | gamma_b.

(** [getCurrentEffect] (2526-2564) *)
Definition getCurrentEffect (activeSelection : selection) : effects :=
  let opacity := sel_opacity activeSelection * 100 in
  let blur :=
    match find (fun x => truthy (get_blur x)) (filters activeSelection) with
    | Some (Blur v) => v * 100
    | _ => 0
    end in
  let brightness :=
    match find (fun x => truthy (get_brightness x)) (filters activeSelection) with
    | Some (Brightness v) => ((v + 1) / 2) * 100
    | _ => 50
    end in
  let saturation :=
    match find (fun x => truthy (get_saturation x)) (filters activeSelection) with
    | Some (Saturation v) => ((v + 1) / 2) * 100
    | _ => 50
    end in
  let gamma :=
    match find (fun x => match get_gamma x with Some _ => true | None => false end)
               (filters activeSelection) with
    | Some (Gamma (g0, g1, g2)) =>
        GammaRGB (Math_round (g0 / 0.022)) (Math_round (g1 / 0.022))
                 (Math_round (g2 / 0.022))
    | _ => GammaRGB 45 45 45
    end in
  EffectValues opacity blur brightness saturation gamma.

(** [getUpdatedFilter] (2566-2625) *)
Definition getUpdatedFilter (effects : effects) (effect : effect_id) (value : float)
  : list filter :=
  let updatedEffects :=
    match effect with
    | gamma_r =>
        EffectValues (opacity effects) (blur effects) (brightness effects)
          (saturation effects)
          (GammaRGB value (g (gamma effects)) (b (gamma effects)))
    | gamma_g =>
        EffectValues (opacity effects) (blur effects) (brightness effects)
          (saturation effects)
          (GammaRGB (r (gamma effects)) value (b (gamma effects)))
    | gamma_b =>
        EffectValues (opacity effects) (blur effects) (brightness effects)
          (saturation effects)
          (GammaRGB (r (gamma effects)) (g (gamma effects)) value)
    | blur_id =>
        EffectValues (opacity effects) value (brightness effects)
          (saturation effects) (gamma effects)
    | brightness_id =>
        EffectValues (opacity effects) (blur effects) value
          (saturation effects) (gamma effects)
    | saturation_id =>
        EffectValues (opacity effects) (blur effects) (brightness effects)
          value (gamma effects)
    end in
  let effects := updatedEffects in
  (* rebuild filter array, calc values for fabric *)
  let updatedFilters := [] in
  let updatedFilters :=
    if 0 <? blur effects
    then updatedFilters ++ [Blur (blur effects / 100)]
    else updatedFilters in
  let updatedFilters :=
    if neq (brightness effects) 50
    then updatedFilters ++ [Brightness (((brightness effects / 100) * 2) - 1)]
    else updatedFilters in
  let updatedFilters :=
    if neq (saturation effects) 50
    then updatedFilters ++ [Saturation (((saturation effects / 100) * 2) - 1)]
    else updatedFilters in
  let updatedFilters :=
    if neq (r (gamma effects)) 45 || neq (g (gamma effects)) 45
       || neq (b (gamma effects)) 45
    then updatedFilters ++
           [Gamma (Math_round ((r (gamma effects) * 0.022) * 10) / 10,
                   Math_round ((g (gamma effects) * 0.022) * 10) / 10,
                   Math_round ((b (gamma effects) * 0.022) * 10) / 10)]
    else updatedFilters in
  updatedFilters.

(** The slider position an effect state holds for a slider. *)
Definition slider (effect : effect_id) (e : effects) : float :=
  match effect with
  | blur_id => blur e
  | brightness_id => brightness e
  | saturation_id => saturation e
  | gamma_r => r (gamma e)
  | gamma_g => g (gamma e)
  | gamma_b => b (gamma e)
  end.

(** The neutral position of a slider. *)
Definition neutral (effect : effect_id) : Z :=
  match effect with
  | blur_id => 0
  | brightness_id => 50
  | saturation_id => 50
  | _ => 45
  end.

(** Whether the list holds a filter of the slider's kind. *)
Definition hasEntry (effect : effect_id) (fs : list filter) : bool :=
  existsb (fun x =>
    match effect, x with
    | blur_id, Blur _ => true
    | brightness_id, Brightness _ => true
    | saturation_id, Saturation _ => true
    | gamma_r, Gamma _ => true
    | gamma_g, Gamma _ => true
    | gamma_b, Gamma _ => true
    | _, _ => false
    end) fs.

(** What the change handler of a slider does with the filters (1777-1782),
    followed by a read of the slider positions: set the slider [effect] to
    [value] on a selection whose effect state is [e], then read [effect]
    back. *)
Definition readBack (sel_opacity : float) (e : effects) (effect : effect_id)
                    (value : float) : float :=
  slider effect
    (getCurrentEffect (Selection sel_opacity (getUpdatedFilter e effect value))).

(** The effect state of an image without filters. *)
Definition pristine : effects := getCurrentEffect (Selection 1 []).

(** *** The two mappings, and what they do on the slider positions *)

(** The filter parameter [getUpdatedFilter] computes from a position. *)
Definition fromSlider (effect : effect_id) (value : float) : float :=
  match effect with
  | blur_id => value / 100
  | brightness_id => ((value / 100) * 2) - 1
  | saturation_id => ((value / 100) * 2) - 1
  | _ => Math_round ((value * 0.022) * 10) / 10
  end.

(** The position [getCurrentEffect] computes from a filter parameter. *)
Definition toSlider (effect : effect_id) (param : float) : float :=
  match effect with
  | blur_id => param * 100
  | brightness_id => ((param + 1) / 2) * 100
  | saturation_id => ((param + 1) / 2) * 100
  | _ => Math_round (param / 0.022)
  end.

Definition isGamma (effect : effect_id) : bool :=
  match effect with
  | gamma_r | gamma_g | gamma_b => true
  | _ => false
  end.

(** The positions of a slider: the integers 0..100. *)
Definition sliderRange : list Z := map Z.of_nat (seq 0 101).

Definition mem (v : Z) (l : list Z) : bool := existsb (Z.eqb v) l.

(** The positions at which binary64 rounding leaves a residue in the
    position read back. *)
Definition inexact (effect : effect_id) : list Z :=
  match effect with
  | blur_id => [7; 14; 28; 29; 55; 56; 57; 58]%Z
  | _ => [1; 2; 3; 4; 5; 7; 8; 9; 10; 11; 14; 15; 16; 17; 21; 22; 28; 29;
          55; 56; 57; 58]%Z
  end.

(** The positions a gamma slider can be read back at: one for each of the
    gamma values 0.0, 0.1, ..., 2.2. *)
Definition gamma_exact : list Z :=
  [0; 5; 9; 14; 18; 23; 27; 32; 36; 41; 45; 50; 55; 59; 64; 68; 73; 77; 82;
   86; 91; 95; 100]%Z.

(** [x] is [v] up to a rounding residue: [|x - v| < 2^-46]. *)
Definition near (x : float) (v : Z) : bool := abs (x - of_Z v) <? 0x1p-46.

(** The other two gamma channels of [e] are at their neutral position. *)
Definition othersNeutral (e : effects) (effect : effect_id) : bool :=
  match effect with
  | gamma_r => (g (gamma e) =? 45) && (b (gamma e) =? 45)
  | gamma_g => (r (gamma e) =? 45) && (b (gamma e) =? 45)
  | gamma_b => (r (gamma e) =? 45) && (g (gamma e) =? 45)
  | _ => true
  end.

Definition viaFilter (effect : effect_id) (v : Z) : float :=
  toSlider effect (fromSlider effect (of_Z v)).

(** The position read back after the slider was set to [v]. *)
Definition expected (effect : effect_id) (v : Z) : float :=
  if (v =? neutral effect)%Z then of_Z (neutral effect) else viaFilter effect v.

(** Whether setting the slider to [v] produces a filter that the read finds. *)
Definition produced (effect : effect_id) (v : Z) : bool :=
  match effect with
  | blur_id => (0 <? of_Z v) && truthy (Some (fromSlider effect (of_Z v)))
  | brightness_id => neq (of_Z v) 50 && truthy (Some (fromSlider effect (of_Z v)))
  | saturation_id => neq (of_Z v) 50 && truthy (Some (fromSlider effect (of_Z v)))
  | _ => neq (of_Z v) 45
  end.

(** The facts about one position that are checked by evaluation. *)
Definition props (effect : effect_id) (v : Z) : bool :=
  Bool.eqb (produced effect v) (negb (v =? neutral effect)%Z) &&
  (if (v =? neutral effect)%Z then expected effect v =? of_Z v else true) &&
  (if isGamma effect
   then Bool.eqb (expected effect v =? of_Z v) (mem v gamma_exact) &&
        existsb (fun w => expected effect v =? of_Z w) gamma_exact &&
        (abs (expected effect v - of_Z v) <=? 2)
   else near (expected effect v) v &&
        (Math_round (expected effect v) =? of_Z v) &&
        Bool.eqb (expected effect v =? of_Z v) (negb (mem v (inexact effect)))).

(** *** Kinds of filter and the scale of a slider *)

(** The kind of filter a slider stands for: the three gamma sliders share
    one filter. *)
Inductive filter_kind : Type := KBlur | KBrightness | KSaturation | KGamma.

Definition kindOf (effect : effect_id) : filter_kind :=
  match effect with
  | blur_id => KBlur
  | brightness_id => KBrightness
  | saturation_id => KSaturation
  | _ => KGamma
  end.

Definition kindOfFilter (x : filter) : filter_kind :=
  match x with
  | Blur _ => KBlur
  | Brightness _ => KBrightness
  | Saturation _ => KSaturation
  | Gamma _ => KGamma
  end.

(** Set the slider [effect] to [value], then read the slider [other]. *)
Definition readOther (sel_opacity : float) (e : effects) (effect : effect_id)
                     (value : float) (other : effect_id) : float :=
  slider other
    (getCurrentEffect (Selection sel_opacity (getUpdatedFilter e effect value))).

(** The end points of the filter parameter a slider produces. *)
Definition lowest (effect : effect_id) : float :=
  match effect with
  | blur_id => 0
  | brightness_id => -1
  | saturation_id => -1
  | _ => 0
  end.

Definition highest (effect : effect_id) : float :=
  match effect with
  | blur_id => 1
  | brightness_id => 1
  | saturation_id => 1
  | _ => 2.2
  end.

(** The parameter a filter holds for a slider. *)
Definition paramOf (effect : effect_id) (x : filter) : option float :=
  match effect, x with
  | blur_id, Blur p => Some p
  | brightness_id, Brightness p => Some p
  | saturation_id, Saturation p => Some p
  | gamma_r, Gamma (p, _, _) => Some p
  | gamma_g, Gamma (_, p, _) => Some p
  | gamma_b, Gamma (_, _, p) => Some p
  | _, _ => None
  end.

(** On the slider positions the parameter lies between [lowest] and
    [highest] and does not decrease with the position. *)
Definition rangeOn (effect : effect_id) : bool :=
  forallb (fun v =>
    (lowest effect <=? fromSlider effect (of_Z v)) &&
    (fromSlider effect (of_Z v) <=? highest effect) &&
    forallb (fun w => (w <? v)%Z ||
                      (fromSlider effect (of_Z v) <=? fromSlider effect (of_Z w)))
            sliderRange)
    sliderRange.

End Effects.

(** ** Angle snapping on binary64 Numbers (core.js, 735-752) *)

Module Line64.

Import PrimFloat SpecFloat FloatOps.

Local Open Scope float_scope.

Set Warnings "-inexact-float".

(** [Math.PI], the Number nearest to pi. *)
Definition Math_PI : float := 0x1.921fb54442d18p+1.

(** [Math.sqrt] is correctly rounded. *)
Definition Math_sqrt (x : float) : float := sqrt x.

(** The Number is +0 and not -0. *)
Definition isPlusZero (x : float) : bool := (x =? 0) && (0 <? 1 / x).

(** [Math.atan2], [Math.cos] and [Math.sin] are approximated as the
    implementation sees fit, but for the values ECMAScript fixes: with
    [y] = +0 and [x] > 0 the angle is +0; the cosine of +0 is 1 and its sine
    is +0.  Elsewhere the model has no value. *)
Definition Math_atan2 (y x : float) : option float :=
  if isPlusZero y && (0 <? x) then Some 0 else None.

Definition Math_cos (x : float) : option float :=
  if isPlusZero x then Some 1 else None.

Definition Math_sin (x : float) : option float :=
  if isPlusZero x then Some 0 else None.

(** [a % b] where 0 <= a < b: the remainder is [a]. *)
Definition js_rem (a b : float) : option float :=
  if (0 <=? a) && (a <? b) then Some a else None.

(** [parseInt(x)] of a Number whose text is written without an exponent
    (1e-6 <= |x| < 1e21, or 0): the digits before the point, with the
    sign. *)
Definition parseInt (x : float) : option float :=
  if x =? 0 then Some 0
  else if (1e-6 <=? abs x) && (abs x <? 1e21) then
    match Prim2SF x with
    | S754_finite sign m e =>
        if (0 <=? e)%Z then Some x
        else
          let n := Effects.of_Z (Z.pos m / 2 ^ (- e))%Z in
          Some (if sign then - n else n)
    | _ => None
    end
  else None.

Definition andThen {A B : Type} (m : option A) (k : A -> option B) : option B :=
  match m with
  | Some a => k a
  | None => None
  end.

(** The statements of the Shift branch (736-752), Number by Number. *)
Definition angleSnap (startX startY : float) (pointer : float * float)
  : option (float * float) :=
  let x2 := fst pointer - startX in
  let y2 := snd pointer - startY in
  let r := Math_sqrt (x2 * x2 + y2 * y2) in
  andThen (Math_atan2 y2 x2) (fun a =>
  let angle := a / Math_PI * 180 in
  andThen (js_rem (angle + 7.5) 360) (fun m =>
  andThen (parseInt (m / 15)) (fun q =>
  let angle := q * 15 in
  andThen (Math_cos (angle * Math_PI / 180)) (fun c =>
  andThen (Math_sin (angle * Math_PI / 180)) (fun s =>
  let cosx := r * c in
  let sinx := r * s in
  Some (cosx + startX, sinx + startY)))))).

(** The rational a finite Number stands for. *)
Definition toQ (x : float) : Q :=
  match Prim2SF x with
  | S754_finite sign m e =>
      ((if sign then inject_Z (Z.neg m) else inject_Z (Z.pos m)) * Qpower 2 e)%Q
  | _ => 0%Q
  end.

(** The square of the Euclidean distance, taken exactly. *)
Definition sqDistance (p q : float * float) : Q :=
  ((toQ (fst q) - toQ (fst p)) * (toQ (fst q) - toQ (fst p)) +
   (toQ (snd q) - toQ (snd p)) * (toQ (snd q) - toQ (snd p)))%Q.

End Line64.

(** ** The arrow keys on binary64 Numbers (core.js, 345-353) *)

Module Nudge64.

Import PrimFloat.

Local Open Scope float_scope.

Set Warnings "-inexact-float".

(** What the arrow [key] makes of [left] and [top]. *)
Definition nudge (key : Z) (leftTop : float * float) : float * float :=
  let (left, top) := leftTop in
  if (key =? 37)%Z then (left - 1, top)
  else if (key =? 39)%Z then (left + 1, top)
  else if (key =? 38)%Z then (left, top - 1)
  else if (key =? 40)%Z then (left, top + 1)
  else (left, top).

(** The four pairs of opposite arrows bring [(x, x)] back to itself. *)
Definition comesBack (x : float) : bool :=
  forallb (fun keys : Z * Z =>
             let (l, t) := nudge (snd keys) (nudge (fst keys) (x, x)) in
             (l =? x) && (t =? x))
          [(37, 39); (39, 37); (38, 40); (40, 38)]%Z.

(** The whole numbers from -5000 to 5000. *)
Definition pixels : list float :=
  map (fun k => Effects.of_Z (Z.of_nat k - 5000)) (seq 0 (Z.to_nat 10001)).

End Nudge64.

(** ** The wheel zoom on binary64 Numbers (core.js, 2246-2256) *)

Module Zoom64.

Import PrimFloat SpecFloat FloatOps.

Local Open Scope float_scope.

Set Warnings "-inexact-float".

(** What the wheel zoom reads and writes of the canvas. *)
Record canvas : Type := Canvas {
  zoom : float;
  width : float;
  height : float;
  originalW : float;
  originalH : float
}.

Definition getZoom (c : canvas) : float := zoom c.

Definition minZoom : float := 0.05.
Definition maxZoom : float := 3.

(** [this.applyZoom] (core.js, 179-183). *)
Definition applyZoom (z : float) (c : canvas) : canvas :=
  let c := Canvas z (width c) (height c) (originalW c) (originalH c) in
  let c := Canvas (zoom c) (originalW c * getZoom c) (height c)
                  (originalW c) (originalH c) in
  Canvas (zoom c) (width c) (originalH c * getZoom c) (originalW c) (originalH c).

(** The digits of [x.toFixed(2)], as the integer [n] of the text [n / 100]:
    the integer for which [n / 100] is nearest to the value of [x], the
    larger one at a tie, taken on the absolute value and given the sign of
    [x].  The value of a Number is [m * 2^e] exactly.  Numbers of 2^40 and
    above, infinities and NaN are left out. *)
Definition centi (x : float) : option Z :=
  match Prim2SF x with
  | S754_zero _ => Some 0%Z
  | S754_finite sign m e =>
      if abs x <? 0x1p+40 then
        let n := if (0 <=? e)%Z then (Z.pos m * 2 ^ e * 100)%Z
                 else ((200 * Z.pos m + 2 ^ (- e)) / 2 ^ (- e + 1))%Z in
        Some (if sign then (- n)%Z else n)
      else None
  | _ => None
  end.

(** The text [n / 100] read as a Number: the Number nearest to the
    quotient.  (The text ["-0.00"] reads as -0 and is taken for 0 here; the
    sum with a non-zero [zoomAmount] does not tell them apart.) *)
Definition level (n : Z) : float := Effects.of_Z n / 100.

Record wheel_event : Type := WheelEvent {
  wheelCtrlKey : bool;
  deltaY : float
}.

(** [zoomWithMouse] (core.js, 2246-2256); no canvas where [toFixed] is left
    out. *)
Definition zoomWithMouse (e : wheel_event) (c : canvas) : option canvas :=
  if negb (wheelCtrlKey e) then Some c
  else
    match centi (getZoom c) with
    | None => None
    | Some n =>
        let updatedZoom := level n in
        let zoomAmount := if 0 <? deltaY e then - (5) else 5 in
        let updatedZoom := ((updatedZoom * 100) + zoomAmount) / 100 in
        if (updatedZoom <? minZoom) || (maxZoom <? updatedZoom) then Some c
        else Some (applyZoom updatedZoom c)
    end.

(** A notch of the wheel away from the user and one towards them, with
    ctrl held. *)
Definition wheelUp : wheel_event := WheelEvent true (- (100)).
Definition wheelDown : wheel_event := WheelEvent true 100.

(** The zoom level one notch up from the level [n / 100], and the one a
    notch down from there. *)
Definition up (n : Z) : float := ((level n * 100) + 5) / 100.
Definition down (n : Z) : float := ((level n * 100) + - (5)) / 100.

Definition inBounds (z : float) : bool :=
  negb ((z <? minZoom) || (maxZoom <? z)).

Definition reads (z : float) (n : Z) : bool :=
  match centi z with
  | Some k => (k =? n)%Z
  | None => false
  end.

(** At the level [n / 100] a notch up and a notch down stay in bounds and
    read [n + 5] and [n] again. *)
Definition returns (n : Z) : bool :=
  inBounds (up n) && reads (up n) (n + 5) &&
  inBounds (down (n + 5)) && reads (down (n + 5)) n.

(** The levels 0.05, 0.06, ..., 2.95. *)
Definition levels : list Z := map (fun k => (5 + Z.of_nat k)%Z) (seq 0 291).

(** A canvas of 800 by 600 at the zoom level [z]. *)
Definition blank (z : float) : canvas := Canvas z (800 * z) (600 * z) 800 600.

End Zoom64.

(** ** Text-box tool (core.js, 1063-1139) *)

Module TextBox.

Local Open Scope R_scope.

(** The two objects the tool creates: the rectangle shown while dragging
    and the text box that replaces it.  Texts, fonts and colours are
    constants of the source and are left out. *)
Inductive tobject : Type :=
| Rect (left top width height : R)
| Textbox (left top width : R).

(** The canvas: objects are held by identity; [onCanvas] lists the objects
    added to it, [activeObject] the selected one, [modified] the number of
    ['object:modified'] events triggered. *)
Record canvas : Type := Canvas {
  isDrawingTextMode : bool;
  store : list (nat * tobject);
  onCanvas : list nat;
  activeObject : option nat;
  modified : nat
}.

Fixpoint lookup (i : nat) (s : list (nat * tobject)) : option tobject :=
  match s with
  | [] => None
  | (j, v) :: s' => if Nat.eqb i j then Some v else lookup i s'
  end.

Fixpoint update (i : nat) (v : tobject) (s : list (nat * tobject))
  : list (nat * tobject) :=
  match s with
  | [] => []
  | (j, w) :: s' => if Nat.eqb i j then (j, v) :: s' else (j, w) :: update i v s'
  end.

Definition fresh (s : list (nat * tobject)) : nat :=
  S (fold_right (fun e m => Nat.max (fst e) m) O s).

(** [new fabric...(); fabricCanvas.add(obj)] *)
Definition add (v : tobject) (c : canvas) : nat * canvas :=
  let i := fresh (store c) in
  (i, Canvas (isDrawingTextMode c) (store c ++ [(i, v)]) (onCanvas c ++ [i])
             (activeObject c) (modified c)).

(** [fabricCanvas.remove(obj)] *)
Definition remove (i : nat) (c : canvas) : canvas :=
  Canvas (isDrawingTextMode c) (store c)
         (filter (fun j => negb (Nat.eqb j i)) (onCanvas c))
         (activeObject c) (modified c).

Definition setActiveObject (i : nat) (c : canvas) : canvas :=
  Canvas (isDrawingTextMode c) (store c) (onCanvas c) (Some i) (modified c).

Definition trigger_modified (c : canvas) : canvas :=
  Canvas (isDrawingTextMode c) (store c) (onCanvas c) (activeObject c)
         (S (modified c)).

(** [this.canvas.isDrawingTextMode = b] *)
Definition setTextMode (b : bool) (c : canvas) : canvas :=
  Canvas b (store c) (onCanvas c) (activeObject c) (modified c).

(** [textboxRect.set({...})] on the rectangle with identity [i]; [None]
    where the JavaScript reads a property of [undefined]. *)
Definition setRect (ref : option nat) (f : R * R * R * R -> R * R * R * R)
                   (c : canvas) : option canvas :=
  match ref with
  | Some i =>
      match lookup i (store c) with
      | Some (Rect l t w h) =>
          let '(l', t', w', h') := f (l, t, w, h) in
          Some (Canvas (isDrawingTextMode c) (update i (Rect l' t' w' h') (store c))
                       (onCanvas c) (activeObject c) (modified c))
      | _ => None
      end
  | None => None
  end.

Record textTool : Type := TextTool {
  isDrawingText : bool;
  textboxRect : option nat;
  origX : R;
  origY : R;
  pointer : R * R
}.

Definition textTool_init : textTool := TextTool false None 0 0 (0, 0).

Definition Rgtb (a b : R) : bool := if Rlt_dec b a then true else false.
Definition Rltb (a b : R) : bool := if Rlt_dec a b then true else false.

(** mouse:down (1069-1087) *)
Definition textMouseDown (p : R * R) (st : textTool * canvas) : textTool * canvas :=
  let (t, c) := st in
  if negb (isDrawingTextMode c) then st
  else
    let origX := fst p in
    let origY := snd p in
    let (i, c) := add (Rect origX origY (fst p - origX) (snd p - origY)) c in
    (TextTool true (Some i) origX origY p, c).

(** mouse:move (1090-1115) *)
Definition textMouseMove (p : R * R) (st : textTool * canvas)
  : option (textTool * canvas) :=
  let (t, c) := st in
  if negb (isDrawingText t) then Some st
  else
    let t := TextTool (isDrawingText t) (textboxRect t) (origX t) (origY t) p in
    option_map (fun c => (t, c))
      (setRect (textboxRect t)
         (fun '(l, tp, w, h) =>
            let l := if Rgtb (origX t) (fst p) then Rabs (fst p) else l in
            let tp := if Rgtb (origY t) (snd p) then Rabs (snd p) else tp in
            (l, tp, Rabs (origX t - fst p), Rabs (origY t - snd p)))
         c).

(** mouse:up (1118-1137).  [fired] tells whether [setActiveObject] fires a
    selection event; its listeners (306-307) call [setActiveSelection]
    (154-157), that is [setActiveTool('select')], which turns the text mode
    off (66). *)
Definition textMouseUp (fired : bool) (st : textTool * canvas)
  : option (textTool * canvas) :=
  let (t, c) := st in
  if negb (isDrawingText t) then Some st
  else
    match textboxRect t with
    | Some i =>
        match lookup i (store c) with
        | Some (Rect l tp w h) =>
            (* get final rect coords and replace it with textbox *)
            let textbox := Textbox l tp (if Rltb w 80 then 80 else w) in
            let c := remove i c in
            let (j, c) := add textbox c in
            let c := setActiveObject j c in
            let c := if fired then setTextMode false c else c in
            Some (TextTool false (textboxRect t) (origX t) (origY t) (pointer t),
                  trigger_modified c)
        | _ => None
        end
    | None => None
    end.

Definition next {A B : Type} (m : option A) (k : A -> option B) : option B :=
  match m with
  | Some a => k a
  | None => None
  end.

Definition textMoves (moves : list (R * R)) (st : textTool * canvas)
  : option (textTool * canvas) :=
  fold_left (fun acc p => next acc (textMouseMove p)) moves (Some st).

(** One gesture of the tool: press, move, release. *)
Definition textGesture (fired : bool) (down : R * R) (moves : list (R * R))
                       (st : textTool * canvas) : option (textTool * canvas) :=
  next (textMoves moves (textMouseDown down st)) (textMouseUp fired).

(** The edge [move] leaves after a run of pointer coordinates, from the
    edge [e]: the absolute value of the last coordinate below the anchor. *)
Definition edge (orig : R) (xs : list R) (e : R) : R :=
  fold_left (fun acc x => if Rgtb orig x then Rabs x else acc) xs e.

End TextBox.

(** ** The opaque bounds of an image (core.js, 2358-2414) *)

Module BBox.

(** [data[k] & 0xff000000], as a condition: the alpha byte of the [k]-th
    pixel of the [Uint32Array] is not zero.  Past the end [data[k]] is
    [undefined] and the condition is false. *)
Definition opaque (data : list N) (k : nat) : bool :=
  negb (N.eqb (N.land (nth k data 0%N) 0xff000000) 0).

(** The inner loop of the first two scans: some [x] of the row [y] is
    opaque. *)
Definition rowHit (data : list N) (w y : nat) : bool :=
  existsb (fun x => opaque data (y * w + x)) (seq 0 w).

(** "y1": the rows from the top, left at the first hit. *)
Definition scan_y1 (data : list N) (w h : nat) : option nat :=
  find (rowHit data w) (seq 0 h).

(** "y2": the rows from [h - 1] down to [y1 + 1], left at the first hit.
    With [y1] undefined the condition [y > y1] is false at once. *)
Definition scan_y2 (data : list N) (w h : nat) (y1 : option nat) : option nat :=
  match y1 with
  | Some a => find (rowHit data w) (rev (seq (S a) (h - 1 - a)))
  | None => None
  end.

(** The rows of the last two scans: [y1 <= y < y2], none when either is
    undefined. *)
Definition rows (y1 y2 : option nat) : list nat :=
  match y1, y2 with
  | Some a, Some b => seq a (b - a)
  | _, _ => []
  end.

(** "x1": in each row the columns from the left, left at the first opaque
    one below the current [x1]. *)
Definition scan_x1 (data : list N) (w : nat) (ys : list nat) : nat :=
  fold_left
    (fun x1 y =>
       match find (fun x => Nat.ltb x x1 && opaque data (y * w + x)) (seq 0 w) with
       | Some x => x
       | None => x1
       end)
    ys w.

(** "x2": in each row the columns from [w - 1] down to [x1 + 1], left at the
    first opaque one above the current [x2]. *)
Definition scan_x2 (data : list N) (w : nat) (ys : list nat) (x1 : nat) : nat :=
  fold_left
    (fun x2 y =>
       match find (fun x => Nat.ltb x2 x && opaque data (y * w + x))
                  (rev (seq (S x1) (w - 1 - x1))) with
       | Some x => x
       | None => x2
       end)
    ys O.

(** The object [scanPixels] returns; [None] is [undefined], and for
    [height] the [NaN] that arithmetic on [undefined] gives. *)
Record bbox : Type := BBoxOf {
  x1 : nat;
  x2 : nat;
  y1 : option nat;
  y2 : option nat;
  width : Z;
  height : option Z
}.

Definition scanPixels (data : list N) (w h : nat) : bbox :=
  let y1 := scan_y1 data w h in
  let y2 := scan_y2 data w h y1 in
  let x1 := scan_x1 data w (rows y1 y2) in
  let x2 := scan_x2 data w (rows y1 y2) x1 in
  BBoxOf x1 x2 y1 y2 (Z.of_nat x2 - Z.of_nat x1)
         (match y1, y2 with
          | Some a, Some b => Some (Z.of_nat b - Z.of_nat a)%Z
          | _, _ => None
          end).

(** The pixel in column [x] of row [y] is opaque. *)
Definition opaqueAt (data : list N) (w x y : nat) : Prop :=
  (x < w)%nat /\ opaque data (y * w + x) = true.

(** A 3 x 2 image: the middle pixel of the top row and the two outer
    pixels of the bottom row are opaque. *)
Definition threeByTwo : list N :=
  [0; 0xff000000; 0; 0xff0000ff; 0; 0xff00ff00]%N.

End BBox.

(** ** Choosing a tool (core.js, 46-114 and 154-157) *)

Module Tools.

Local Open Scope string_scope.

(** What the tip container shows: the tip picked at start-up, or one of the
    two texts [setActiveTool] writes. *)
Inductive tip : Type := StartTip | PathTip | ShiftTip.

Inductive cursor : Type := DefaultCursor | Crosshair.

(** The two flags of a canvas object the function writes. *)
Record tobject : Type := TObject {
  selectable : bool;
  evented : bool
}.

(** The editor, as far as [setActiveTool] reads and writes it.
    [activeSelection] is the type of the selected object, [visiblePanel]
    the tool panel with class [visible], with the [type-...] class it was
    given, if any. *)
Record shell : Type := Shell {
  activeTool : option string;
  activeSelection : option string;
  visiblePanel : option (string * option string);
  activeObject : option nat;
  isDrawingLineMode : bool;
  isDrawingPathMode : bool;
  isDrawingMode : bool;
  isDrawingTextMode : bool;
  defaultCursor : cursor;
  selection : bool;
  objects : list tobject;
  shownTip : tip;
  modalPanels : nat;
  console : list string
}.

Definition setTool (v : option string) (s : shell) : shell :=
  Shell v (activeSelection s) (visiblePanel s) (activeObject s)
        (isDrawingLineMode s) (isDrawingPathMode s) (isDrawingMode s)
        (isDrawingTextMode s) (defaultCursor s) (selection s) (objects s)
        (shownTip s) (modalPanels s) (console s).

Definition setSelection (v : option string) (s : shell) : shell :=
  Shell (activeTool s) v (visiblePanel s) (activeObject s)
        (isDrawingLineMode s) (isDrawingPathMode s) (isDrawingMode s)
        (isDrawingTextMode s) (defaultCursor s) (selection s) (objects s)
        (shownTip s) (modalPanels s) (console s).

Definition setPanel (v : option (string * option string)) (s : shell) : shell :=
  Shell (activeTool s) (activeSelection s) v (activeObject s)
        (isDrawingLineMode s) (isDrawingPathMode s) (isDrawingMode s)
        (isDrawingTextMode s) (defaultCursor s) (selection s) (objects s)
        (shownTip s) (modalPanels s) (console s).

Definition setActive (v : option nat) (s : shell) : shell :=
  Shell (activeTool s) (activeSelection s) (visiblePanel s) v
        (isDrawingLineMode s) (isDrawingPathMode s) (isDrawingMode s)
        (isDrawingTextMode s) (defaultCursor s) (selection s) (objects s)
        (shownTip s) (modalPanels s) (console s).

(** The canvas fields lines 63-73 and the [switch] write. *)
Definition setModes (line path draw text : bool) (cur : cursor) (sel : bool)
                    (s : shell) : shell :=
  Shell (activeTool s) (activeSelection s) (visiblePanel s) (activeObject s)
        line path draw text cur sel
        (map (fun _ => TObject sel sel) (objects s))
        (shownTip s) (modalPanels s) (console s).

(** [this.updateTip(str)] (1900-1902) *)
Definition updateTip (t : tip) (s : shell) : shell :=
  Shell (activeTool s) (activeSelection s) (visiblePanel s) (activeObject s)
        (isDrawingLineMode s) (isDrawingPathMode s) (isDrawingMode s)
        (isDrawingTextMode s) (defaultCursor s) (selection s) (objects s)
        t (modalPanels s) (console s).

Definition console_log (msg : string) (s : shell) : shell :=
  Shell (activeTool s) (activeSelection s) (visiblePanel s) (activeObject s)
        (isDrawingLineMode s) (isDrawingPathMode s) (isDrawingMode s)
        (isDrawingTextMode s) (defaultCursor s) (selection s) (objects s)
        (shownTip s) (modalPanels s) (console s ++ [msg]).

(** [this.openDragDropPanel()] (2078-2090): logs and appends a modal. *)
Definition openDragDropPanel (s : shell) : shell :=
  let s := console_log "open drag drop panel" s in
  Shell (activeTool s) (activeSelection s) (visiblePanel s) (activeObject s)
        (isDrawingLineMode s) (isDrawingPathMode s) (isDrawingMode s)
        (isDrawingTextMode s) (defaultCursor s) (selection s) (objects s)
        (shownTip s) (S (modalPanels s)) (console s).

(** The tool panels core.js builds: [background-panel] (526), [draw-panel]
    (1156), [select-panel] (1317) and [shapes-panel] (1840). *)
Definition toolPanels : list string := ["background"; "draw"; "select"; "shapes"].

Definition hasPanel (id : string) : bool := existsb (String.eqb id) toolPanels.

(** [$('.toolpanel#<id>-panel')]: a selection of the panel of that name,
    empty where there is none, and then nothing is done. *)
Definition onPanel (id : string) (f : shell -> shell) (s : shell) : shell :=
  if hasPanel id then f s else s.

Section Fabric.

(** Whether [canvas.discardActiveObject()] fires ['selection:cleared'], from
    the object that was active: fabric's decision, not core.js'. *)
Variable firesSelectionCleared : option nat -> bool.

(** [setActiveTool] (46-114), in the four parts of its text. *)

(** 47-55: the tool and its panel. *)
Definition showPanel (id : string) (s : shell) : shell :=
  let s := setTool (Some id) s in
  let s := setPanel None s in
  if negb (id =? "select") ||
     ((id =? "select") && match activeSelection s with Some _ => true | None => false end)
  then
    let s := onPanel id (setPanel (Some (id ++ "-panel", None))) s in
    if id =? "select" then
      let s := console_log "selection" s in
      onPanel id (setPanel (Some (id ++ "-panel", activeSelection s))) s
    else s
  else s.

(** 57-61: any tool but select lets go of the selection.  [onCleared] is
    what the listeners of ['selection:cleared'] do. *)
Definition leaveSelection (onCleared : shell -> shell) (id : string) (s : shell)
  : shell :=
  if negb (id =? "select") then
    (* this.canvas.discardActiveObject() *)
    let fired := firesSelectionCleared (activeObject s) in
    let s := setActive None s in
    let s := if fired then onCleared s else s in
    setSelection None s
  else s.

(** 63-73: every mode off, everything selectable. *)
Definition resetCanvas (s : shell) : shell :=
  setModes false false false false DefaultCursor true s.

(** 75-113: the [switch]. *)
Definition switchTool (id : string) (s : shell) : shell :=
  if id =? "draw" then
    setModes (isDrawingLineMode s) (isDrawingPathMode s) true (isDrawingTextMode s)
             (defaultCursor s) (selection s) s
  else if id =? "line" then
    setModes true (isDrawingPathMode s) (isDrawingMode s) (isDrawingTextMode s)
             Crosshair false s
  else if id =? "path" then
    updateTip PathTip
      (setModes (isDrawingLineMode s) true (isDrawingMode s) (isDrawingTextMode s)
                Crosshair false s)
  else if id =? "textbox" then
    setModes (isDrawingLineMode s) (isDrawingPathMode s) (isDrawingMode s) true
             Crosshair false s
  else if id =? "upload" then openDragDropPanel s
  else updateTip ShiftTip s.

Definition setActiveTool_body (onCleared : shell -> shell) (id : string) (s : shell)
  : shell :=
  switchTool id (resetCanvas (leaveSelection onCleared id (showPanel id s))).

(** [setActiveTool] and the listener of ['selection:cleared'] (308), which
    is [this.setActiveSelection(null)] (154-157), call each other through
    the event; [n] bounds the depth of the calls. *)
Fixpoint setActiveTool_upto (n : nat) (id : string) (s : shell) : shell :=
  match n with
  | O => s
  | S n =>
      setActiveTool_body
        (fun s => setActiveTool_upto n "select" (setSelection None s)) id s
  end.

(** The calls nest twice at most: the listener chooses ["select"], which
    does not discard. *)
Definition setActiveTool : string -> shell -> shell := setActiveTool_upto 2.

(** [this.setActiveSelection] (154-157) *)
Definition setActiveSelection (sel : option string) (s : shell) : shell :=
  setActiveTool "select" (setSelection sel s).

End Fabric.

(** The drawing modes that are on. *)
Definition modesOn (s : shell) : nat :=
  (if isDrawingLineMode s then 1 else 0) + (if isDrawingPathMode s then 1 else 0) +
  (if isDrawingMode s then 1 else 0) + (if isDrawingTextMode s then 1 else 0).

(** The tools that draw with the pointer on the canvas. *)
Definition drawsWithPointer (id : string) : bool :=
  (id =? "line") || (id =? "path") || (id =? "textbox").

(** fabric, firing ['selection:cleared'] when an object was active. *)
Definition whenActive (active : option nat) : bool :=
  match active with Some _ => true | None => false end.

(** fabric, not firing it. *)
Definition quiet (active : option nat) : bool := false.

(** An editor with a selected rectangle, the select tool chosen. *)
Definition withSelection : shell :=
  Shell (Some "select") (Some "rect") (Some ("select-panel", Some "rect")) (Some 1%nat)
        false false false false DefaultCursor true
        [TObject true true; TObject true true] StartTip 0 [].


(** The fabric canvas as the line and path tools read it, and as the text
    tool reads it: the mode flags are those of the editor's canvas. *)
Definition drawingCanvas (s : shell) (c : Drawing.canvas) : Drawing.canvas :=
  Drawing.Canvas (isDrawingLineMode s) (isDrawingPathMode s)
                 (Drawing.store c) (Drawing.onCanvas c) (Drawing.modified c).

Definition textCanvas (s : shell) (c : TextBox.canvas) : TextBox.canvas :=
  TextBox.Canvas (isDrawingTextMode s) (TextBox.store c) (TextBox.onCanvas c)
                 (TextBox.activeObject c) (TextBox.modified c).

End Tools.

(** ** Gradients from colour stops (core.js, 2270-2322) *)

Module Gradient.

Local Open Scope R_scope.

(** [Math.round(x)]: the integer nearest to [x], the larger one at a tie. *)
Definition Math_round (x : R) : R := IZR (Int_part (x + / 2)).

(** A colour handler of the picker and the colour stop made of it. *)
Record handler : Type := Handler {
  h_color : string;
  position : R
}.

Record colorStop : Type := ColorStop {
  id : nat;
  color : string;
  offset : R
}.

(** What the function returns: a [fabric.Gradient] of one of the two types,
    or the empty object it starts with. *)
Inductive gradient : Type :=
| Linear (x1 y1 x2 y2 : R) (colorStops : list colorStop)
| Radial (x1 y1 r1 x2 y2 r2 : R) (colorStops : list colorStop)
| EmptyObject.

(** [gradAngleToCoords] (2271-2281); [parseInt(angle, 10)] is the angle
    truncated toward zero. *)
Definition gradAngleToCoords (angle : R) : R * R * R * R :=
  let anglePI := (- Drawing.parseInt angle) * (PI / 180) in
  (Math_round (50 + sin anglePI * 50) / 100,
   Math_round (50 + cos anglePI * 50) / 100,
   Math_round (50 + sin (anglePI + PI) * 50) / 100,
   Math_round (50 + cos (anglePI + PI) * 50) / 100).

(** The loop over the handlers (2286-2292), from index [i]. *)
Fixpoint stopsFrom (i : nat) (handlers : list handler) : list colorStop :=
  match handlers with
  | [] => []
  | h :: rest => ColorStop i (h_color h) (position h / 100) :: stopsFrom (S i) rest
  end.

Definition generateFabricGradientFromColorStops
    (handlers : list handler) (width height : R) (orientation : string) (angle : R)
  : gradient :=
  let colorStops := stopsFrom 0 handlers in
  if String.eqb orientation "linear" then
    let '(x1, y1, x2, y2) := gradAngleToCoords angle in
    Linear (x1 * width) (y1 * height) (x2 * width) (y2 * height) colorStops
  else if String.eqb orientation "radial" then
    Radial (width / 2) (height / 2) 0 (width / 2) (height / 2) (width / 2) colorStops
  else EmptyObject.

(** The gradient with its two end points exchanged. *)
Definition reversed (g : gradient) : gradient :=
  match g with
  | Linear x1 y1 x2 y2 stops => Linear x2 y2 x1 y1 stops
  | _ => g
  end.

(** Both end points of a linear gradient lie in the box of the object. *)
Definition inBox (width height : R) (g : gradient) : Prop :=
  match g with
  | Linear x1 y1 x2 y2 _ =>
      0 <= x1 <= width /\ 0 <= y1 <= height /\ 0 <= x2 <= width /\ 0 <= y2 <= height
  | _ => True
  end.

End Gradient.

(* ================================================================== *)
(** * Part II.  Properties                                             *)
(* ================================================================== *)

(** ** Zoom controller *)

Module ZoomFacts.

Import Zoom.

Local Open Scope Q_scope.

(** On integers, the two remainders vanish together. *)
Lemma rem25_eqb (u : Z) : (Z.rem u 25 =? 0)%Z = (u mod 25 =? 0)%Z.
Proof.
  destruct (Z.eqb_spec (Z.rem u 25) 0) as [E|E], (Z.eqb_spec (u mod 25) 0) as [F|F];
    try reflexivity; exfalso.
  - apply F. apply Z.rem_divide in E; [|lia]. apply Z.mod_divide; [lia|exact E].
  - apply E. apply Z.mod_divide in F; [|lia]. apply Z.rem_divide; [lia|exact F].
Qed.

Lemma mod25_opp (u : Z) : (u mod 25 = 0 <-> (- u) mod 25 = 0)%Z.
Proof.
  rewrite !Z.mod_divide by lia. split; intro D.
  - now apply Z.divide_opp_r.
  - apply Z.divide_opp_r in D. now rewrite Z.opp_involutive in D.
Qed.

(** The downward loop stops at the multiple of 25 below, within the fuel. *)
Lemma while_down_spec (fuel : nat) : forall u : Z,
  (u mod 25 < Z.of_nat fuel)%Z ->
  while_not_multiple (-1) fuel u = (u - u mod 25)%Z.
Proof.
  induction fuel as [|fuel IH]; intros u Hu.
  - pose proof (Z.mod_pos_bound u 25). lia.
  - cbn [while_not_multiple]. rewrite rem25_eqb.
    destruct (Z.eqb_spec (u mod 25) 0) as [E|E]; cbn [negb].
    + lia.
    + assert (K : ((u + -1) mod 25 = u mod 25 - 1)%Z).
      { pose proof (Z.mod_pos_bound u 25 ltac:(lia)).
        symmetry. apply (Z.mod_unique_pos _ _ (u / 25)); [lia|].
        pose proof (Z.div_mod u 25 ltac:(lia)). lia. }
      rewrite IH; lia.
Qed.

(** The upward loop stops at the multiple of 25 above, within the fuel. *)
Lemma while_up_spec (fuel : nat) : forall u : Z,
  ((- u) mod 25 < Z.of_nat fuel)%Z ->
  while_not_multiple 1 fuel u = (u + (- u) mod 25)%Z.
Proof.
  induction fuel as [|fuel IH]; intros u Hu.
  - pose proof (Z.mod_pos_bound (-u) 25). lia.
  - cbn [while_not_multiple]. rewrite rem25_eqb.
    destruct (Z.eqb_spec (u mod 25) 0) as [E|E]; cbn [negb].
    + apply mod25_opp in E. lia.
    + assert (E' : ((- u) mod 25 <> 0)%Z) by (intro F; apply E, mod25_opp, F).
      assert (K : ((- (u + 1)) mod 25 = (- u) mod 25 - 1)%Z).
      { pose proof (Z.mod_pos_bound (- u) 25 ltac:(lia)).
        pose proof (Z.div_mod (- u) 25 ltac:(lia)).
        symmetry. apply (Z.mod_unique_pos _ _ ((- u) / 25)); lia. }
      rewrite IH; lia.
Qed.

Lemma parseInt_floor (x : Q) : 0 <= x -> parseInt x = Qfloor x.
Proof.
  intros Hx. unfold parseInt, Qfloor. destruct x as [n d]; cbn.
  apply Z.quot_div_nonneg; [|lia].
  unfold Qle in Hx; cbn in Hx. lia.
Qed.

Lemma jump_down_spec (z : Q) :
  let p := parseInt (z * 100) in
  ((jump_down z) mod 25 = 0 /\ p - 25 <= jump_down z <= p - 1)%Z.
Proof.
  intro p. unfold jump_down. fold p. rewrite rem25_eqb.
  pose proof (Z.mod_pos_bound p 25 ltac:(lia)) as B.
  destruct (Z.eqb_spec (p mod 25) 0) as [E|E]; cbn [negb].
  - split; [|lia]. rewrite <- (Z.mod_add _ 1) by lia.
    replace (p - 25 + 1 * 25)%Z with p by lia. exact E.
  - unfold loop_fuel. rewrite while_down_spec by (cbn; lia). split; [|lia].
    rewrite Zminus_mod_idemp_r. now rewrite Z.sub_diag.
Qed.

Lemma jump_down_nonmultiple (z : Q) :
  (parseInt (z * 100) mod 25 <> 0)%Z ->
  jump_down z = (parseInt (z * 100) - parseInt (z * 100) mod 25)%Z.
Proof.
  intros E. unfold jump_down. rewrite rem25_eqb.
  pose proof (Z.mod_pos_bound (parseInt (z * 100)) 25 ltac:(lia)) as B.
  destruct (Z.eqb_spec (parseInt (z * 100) mod 25) 0) as [F|F]; [contradiction|].
  cbn [negb]. unfold loop_fuel. now rewrite while_down_spec by (cbn; lia).
Qed.

Lemma jump_up_spec (z : Q) :
  let p := parseInt (z * 100) in
  ((jump_up z) mod 25 = 0 /\ p + 1 <= jump_up z <= p + 25)%Z.
Proof.
  intro p. unfold jump_up. fold p. rewrite rem25_eqb.
  pose proof (Z.mod_pos_bound (- p) 25 ltac:(lia)) as B.
  destruct (Z.eqb_spec (p mod 25) 0) as [E|E]; cbn [negb].
  - split; [|lia]. rewrite <- (Z.mod_add _ (-1)) by lia.
    replace (p + 25 + -1 * 25)%Z with p by lia. exact E.
  - assert (E' : ((- p) mod 25 <> 0)%Z) by (intro F; apply E, mod25_opp, F).
    unfold loop_fuel. rewrite while_up_spec by (cbn; lia). split; [|lia].
    apply mod25_opp. replace (- (p + (- p) mod 25))%Z with (- p - (- p) mod 25)%Z by lia.
    rewrite Zminus_mod_idemp_r. now rewrite Z.sub_diag.
Qed.

Lemma parseInt_percent (a : Z) : parseInt (inject_Z a / 100 * 100) = a.
Proof.
  unfold parseInt, inject_Z, Qdiv, Qmult, Qinv; cbn.
  rewrite Z.mul_1_r. apply Z.quot_mul. lia.
Qed.

Lemma percent_le (a : Z) (q : Q) : inject_Z a / 100 <= q <-> inject_Z a <= q * 100.
Proof.
  unfold Qdiv. change (/ 100) with (1 # 100). split; intro K; Lqa.lra.
Qed.

Lemma percent_ge (a : Z) (q : Q) : q <= inject_Z a / 100 <-> q * 100 <= inject_Z a.
Proof.
  unfold Qdiv. change (/ 100) with (1 # 100). split; intro K; Lqa.lra.
Qed.

Lemma percent_bounds (z : Q) :
  0 <= z -> inject_Z (parseInt (z * 100)) <= z * 100 < inject_Z (parseInt (z * 100) + 1).
Proof.
  intros Hz. rewrite parseInt_floor by Lqa.lra. split.
  - apply Qfloor_le.
  - apply Qlt_floor.
Qed.

Lemma percent_nonneg (z : Q) : 0 <= z -> (0 <= parseInt (z * 100))%Z.
Proof.
  intros Hz. rewrite parseInt_floor by Lqa.lra.
  assert (K : (Qfloor 0 <= Qfloor (z * 100))%Z) by (apply Qfloor_resp_le; Lqa.lra).
  exact K.
Qed.

Lemma zoom_applyZoom (z : Q) (c : canvas) : zoom (applyZoom z c) = z.
Proof. reflexivity. Qed.

Lemma zoom_ctrlMinus (c : canvas) :
  zoom (zoomWithKeys ctrlMinus c) = zoomOutValue (zoom c).
Proof.
  unfold zoomWithKeys, zoomOutBlock, zoomOutValue, getZoom.
  change (key_of ctrlMinus =? 189)%Z with true. change (ctrlKey ctrlMinus) with true.
  cbn [andb].
  destruct (Qeq_bool (zoom c) minZoom); [reflexivity|].
  cbn [andThen]. unfold zoomInBlock, zoomResetBlock.
  change (key_of ctrlMinus =? 187)%Z with false.
  change (key_of ctrlMinus =? 96)%Z with false.
  change (key_of ctrlMinus =? 48)%Z with false.
  change (key_of ctrlMinus =? 192)%Z with false.
  cbn [andb orb andThen finish].
  rewrite zoom_applyZoom.
  destruct (Qle_bool _ 0); reflexivity.
Qed.

(** C3, as the code has it.  From a zoom level in [0.05, 3.0] whose whole
    percent is not a multiple of 25, one ctr - gives: above 25 percent, a
    level whose whole percent is a multiple of 25 and that is at most the
    level it started from; below 25 percent, the minimum level 0.05 (whose
    whole percent, 5, is no multiple of 25). *)
Theorem zoom_out_from_off_grid (c : canvas) :
  minZoom <= zoom c <= maxZoom ->
  Z.rem (wholePercent (zoom c)) 25 <> 0%Z ->
  let c' := zoomWithKeys ctrlMinus c in
  ((25 < wholePercent (zoom c))%Z ->
     Z.rem (wholePercent (zoom c')) 25 = 0%Z /\ zoom c' <= zoom c) /\
  ((wholePercent (zoom c) < 25)%Z -> zoom c' == minZoom).
Proof.
  intros [Hlo Hhi] Hrem c'. subst c'. rewrite zoom_ctrlMinus.
  set (z := zoom c) in *. unfold wholePercent in *.
  assert (Hz : 0 <= z) by (unfold minZoom in Hlo; Lqa.lra).
  pose proof (percent_bounds z Hz) as [Pl Pu].
  pose proof (jump_down_spec z) as [Jm [Jl Ju]]. cbv zeta in Jm, Jl, Ju.
  assert (Hmod : (parseInt (z * 100) mod 25 <> 0)%Z).
  { intro F. apply Hrem. apply Z.rem_divide; [lia|]. apply Z.mod_divide; [lia|exact F]. }
  pose proof (jump_down_nonmultiple z Hmod) as Jeq.
  pose proof (Z.mod_pos_bound (parseInt (z * 100)) 25 ltac:(lia)) as B.
  unfold zoomOutValue. split.
  - intros Hp.
    destruct (Qeq_bool z minZoom) eqn:Emin.
    + apply Qeq_bool_iff in Emin. exfalso.
      assert (inject_Z 26 <= z * 100) as K.
      { apply Qle_trans with (inject_Z (parseInt (z * 100))); [|exact Pl].
        rewrite <- Zle_Qle. lia. }
      rewrite Emin in K. vm_compute in K. apply K. reflexivity.
    + destruct (Qle_bool (inject_Z (jump_down z) / 100) 0) eqn:Ele.
      * exfalso. apply Qle_bool_iff in Ele. apply percent_le in Ele.
        assert (jump_down z <= 0)%Z as K.
        { rewrite Zle_Qle. change (inject_Z 0) with 0. Lqa.lra. }
        assert (25 <= jump_down z)%Z; [|lia].
        rewrite Jeq. pose proof (Z.div_mod (parseInt (z * 100)) 25 ltac:(lia)). lia.
      * split.
        -- rewrite parseInt_percent. apply Z.rem_divide; [lia|].
           apply Z.mod_divide; [lia|exact Jm].
        -- apply percent_le. apply Qle_trans with (inject_Z (parseInt (z * 100))); [|exact Pl].
           rewrite <- Zle_Qle. lia.
  - intros Hp.
    destruct (Qeq_bool z minZoom) eqn:Emin.
    + now apply Qeq_bool_iff in Emin.
    + destruct (Qle_bool (inject_Z (jump_down z) / 100) 0) eqn:Ele; [reflexivity|].
      exfalso. assert (Qle_bool (inject_Z (jump_down z) / 100) 0 = true); [|congruence].
      apply Qle_bool_iff. apply percent_le.
      setoid_replace (0 * 100) with (inject_Z 0) by reflexivity.
      rewrite <- Zle_Qle.
      pose proof (percent_nonneg z Hz).
      rewrite Jeq. pose proof (Z.div_mod (parseInt (z * 100)) 25 ltac:(lia)).
      assert (parseInt (z * 100) / 25 = 0)%Z by (apply Z.div_small; lia). lia.
Qed.

(** From 37 percent, ctr - lands on 25 percent. *)
Lemma zoom_out_from_off_grid_witness :
  (minZoom <= zoom (blank (37 # 100)) <= maxZoom) /\
  Z.rem (wholePercent (zoom (blank (37 # 100)))) 25 <> 0%Z /\
  (25 < wholePercent (zoom (blank (37 # 100))))%Z /\
  Z.rem (wholePercent (zoom (zoomWithKeys ctrlMinus (blank (37 # 100))))) 25 = 0%Z /\
  zoom (zoomWithKeys ctrlMinus (blank (37 # 100))) <= zoom (blank (37 # 100)).
Proof.
  assert (Hb : minZoom <= zoom (blank (37 # 100)) <= maxZoom)
    by (split; vm_compute; discriminate).
  assert (Hr : Z.rem (wholePercent (zoom (blank (37 # 100)))) 25 <> 0%Z)
    by (vm_compute; discriminate).
  assert (Hp : (25 < wholePercent (zoom (blank (37 # 100))))%Z)
    by (vm_compute; reflexivity).
  split; [exact Hb|]. split; [exact Hr|]. split; [exact Hp|].
  exact (proj1 (zoom_out_from_off_grid (blank (37 # 100)) Hb Hr) Hp).
Defined.

(** From 10 percent, a level the zoom menu offers, ctr - gives 5 percent:
    the level it lands on is not on a multiple of 25. *)
Lemma zoom_out_from_ten_percent :
  (minZoom <= zoom (blank (1 # 10)) <= maxZoom) /\
  Z.rem (wholePercent (zoom (blank (1 # 10)))) 25 <> 0%Z /\
  wholePercent (zoom (zoomWithKeys ctrlMinus (blank (1 # 10)))) = 5%Z /\
  Z.rem (wholePercent (zoom (zoomWithKeys ctrlMinus (blank (1 # 10))))) 25 <> 0%Z.
Proof.
  split; [split; vm_compute; discriminate|].
  split; [vm_compute; discriminate|].
  split; [vm_compute; reflexivity|vm_compute; discriminate].
Qed.

Lemma zoomOutBlock_bounds (e : key_event) (c : canvas) :
  zoomInBounds c -> zoomInBounds (finish (zoomOutBlock e c)).
Proof.
  intros [Hlo Hhi]. unfold zoomOutBlock, getZoom.
  destruct ((key_of e =? 189)%Z && ctrlKey e); [|split; assumption].
  destruct (Qeq_bool (zoom c) minZoom); [split; assumption|].
  cbn [finish]. unfold zoomInBounds. rewrite zoom_applyZoom.
  set (z := zoom c) in *.
  assert (Hz : 0 <= z) by (unfold minZoom in Hlo; Lqa.lra).
  pose proof (percent_bounds z Hz) as [Pl Pu].
  pose proof (jump_down_spec z) as [Jm [Jl Ju]]. cbv zeta in Jm, Jl, Ju.
  destruct (Qle_bool (inject_Z (jump_down z) / 100) 0) eqn:Ele.
  - unfold minZoom, maxZoom. split; Lqa.lra.
  - assert (0 < jump_down z)%Z as Jpos.
    { destruct (Z_lt_le_dec 0 (jump_down z)) as [K|K]; [exact K|exfalso].
      assert (Qle_bool (inject_Z (jump_down z) / 100) 0 = true); [|congruence].
      apply Qle_bool_iff, percent_le.
      setoid_replace (0 * 100) with (inject_Z 0) by reflexivity.
      now rewrite <- Zle_Qle. }
    assert (25 <= jump_down z)%Z as J25.
    { pose proof (Z.div_mod (jump_down z) 25 ltac:(lia)). lia. }
    split.
    + apply percent_ge. unfold minZoom.
      apply Qle_trans with (inject_Z 25); [vm_compute; discriminate|].
      now rewrite <- Zle_Qle.
    + apply percent_le.
      apply Qle_trans with (inject_Z (parseInt (z * 100))).
      * rewrite <- Zle_Qle. lia.
      * unfold maxZoom in *. Lqa.lra.
Qed.

Lemma zoomInBlock_bounds (e : key_event) (c : canvas) :
  zoomInBounds c -> zoomInBounds (finish (zoomInBlock e c)).
Proof.
  intros [Hlo Hhi]. unfold zoomInBlock, getZoom.
  destruct ((key_of e =? 187)%Z && ctrlKey e); [|split; assumption].
  destruct (Qeq_bool (zoom c) maxZoom); [split; assumption|].
  cbn [finish]. unfold zoomInBounds. rewrite zoom_applyZoom.
  set (z := zoom c) in *.
  assert (Hz : 0 <= z) by (unfold minZoom in Hlo; Lqa.lra).
  pose proof (jump_up_spec z) as [Jm [Jl Ju]]. cbv zeta in Jm, Jl, Ju.
  unfold Qgt_bool.
  destruct (Qle_bool (inject_Z (jump_up z) / 100) maxZoom) eqn:Ele; cbn [negb].
  - apply Qle_bool_iff in Ele. split; [|exact Ele].
    apply percent_ge. unfold minZoom.
    apply Qle_trans with (inject_Z 5); [vm_compute; discriminate|].
    rewrite <- Zle_Qle.
    pose proof (percent_nonneg z Hz).
    pose proof (Z.div_mod (jump_up z) 25 ltac:(lia)). lia.
  - unfold minZoom, maxZoom. split; Lqa.lra.
Qed.

Lemma zoomResetBlock_bounds (e : key_event) (c : canvas) :
  zoomInBounds c -> zoomInBounds (finish (zoomResetBlock e c)).
Proof.
  intros Hc. unfold zoomResetBlock.
  destruct (_ && ctrlKey e); [|exact Hc].
  cbn [finish]. unfold zoomInBounds. rewrite zoom_applyZoom.
  unfold minZoom, maxZoom. split; Lqa.lra.
Qed.

(** One keydown event keeps the zoom level within its bounds. *)
Lemma zoomWithKeys_bounds (e : key_event) (c : canvas) :
  zoomInBounds c -> zoomInBounds (zoomWithKeys e c).
Proof.
  intros Hc. unfold zoomWithKeys.
  pose proof (zoomOutBlock_bounds e c Hc) as H1.
  destruct (zoomOutBlock e c) as [c1|c1]; cbn [andThen finish] in *; [|exact H1].
  pose proof (zoomInBlock_bounds e c1 H1) as H2.
  destruct (zoomInBlock e c1) as [c2|c2]; cbn [andThen finish] in *; [|exact H2].
  exact (zoomResetBlock_bounds e c2 H2).
Qed.

(** C6.  From a zoom level in [0.05, 3.0], every run of keydown events
    through [zoomWithKeys] (zoom in, zoom out, reset, or any other key)
    leaves the zoom level in [0.05, 3.0]. *)
Theorem zoom_stays_in_bounds (es : list key_event) (c : canvas) :
  minZoom <= zoom c <= maxZoom ->
  minZoom <= zoom (zoomWithKeysAll es c) <= maxZoom.
Proof.
  revert c. induction es as [|e es IH]; intros c Hc; cbn [zoomWithKeysAll fold_left].
  - exact Hc.
  - apply IH. exact (zoomWithKeys_bounds e c Hc).
Qed.

(** Three zoom-outs and a zoom-in from 10 percent. *)
Lemma zoom_stays_in_bounds_witness :
  (minZoom <= zoom (blank (1 # 10)) <= maxZoom) /\
  (minZoom <= zoom (zoomWithKeysAll [ctrlMinus; ctrlMinus; ctrlMinus; ctrlPlus]
                                    (blank (1 # 10))) <= maxZoom).
Proof.
  assert (Hb : minZoom <= zoom (blank (1 # 10)) <= maxZoom)
    by (split; vm_compute; discriminate).
  split; [exact Hb|].
  exact (zoom_stays_in_bounds [ctrlMinus; ctrlMinus; ctrlMinus; ctrlPlus]
           (blank (1 # 10)) Hb).
Defined.

End ZoomFacts.

(** ** History handlers and keyboard listeners *)

Module EditorFacts.

Import Editor.

Section WithCollaborators.

Variable H : Type.
Context `{UndoRedoStack H} `{Serializer}.

Lemma restore_malformed (current : string) (ed : editor H) :
  JSON_parse current = None ->
  restore current ed = (if truthy current then Throw "SyntaxError" else Normal tt, ed).
Proof.
  intros Hp. unfold restore, parse, bind. rewrite Hp.
  destruct (truthy current); reflexivity.
Qed.

(** What [undo] does when the snapshot on top of the undo list does not
    parse: the history has moved, the canvas has not, and the failure is on
    the console. *)
Lemma undo_malformed (ed : editor H) :
  JSON_parse (last (fst (getValues (ed_history ed))) EmptyString) = None ->
  fst (getValues (ed_history ed)) <> [] ->
  undo ed =
    (Normal tt,
     EditorState (ed_canvas ed) (history_undo (ed_history ed))
       (if truthy (last (fst (getValues (ed_history ed))) EmptyString)
        then console ed ++ ["undo"%string] ++ ["undo failed"%string]
        else console ed ++ ["undo"%string])).
Proof.
  intros Hp Hne.
  cbv [undo bind try_catch console_log console_error modify gets setHistory].
  cbn [ed_history ed_canvas console].
  destruct (fst (getValues (ed_history ed))) as [|s l] eqn:E; [contradiction|].
  cbn [List.length Nat.eqb negb].
  rewrite restore_malformed by exact Hp.
  cbn [ed_history ed_canvas console].
  destruct (truthy (last (s :: l) EmptyString)); cbn [console ed_canvas ed_history].
  - now rewrite <- app_assoc.
  - reflexivity.
Qed.

Lemma redo_malformed (ed : editor H) :
  JSON_parse (last (snd (getValues (ed_history ed))) EmptyString) = None ->
  snd (getValues (ed_history ed)) <> [] ->
  redo ed =
    (Normal tt,
     EditorState (ed_canvas ed) (history_redo (ed_history ed))
       (if truthy (last (snd (getValues (ed_history ed))) EmptyString)
        then console ed ++ ["redo"%string] ++ ["redo failed"%string]
        else console ed ++ ["redo"%string])).
Proof.
  intros Hp Hne.
  cbv [redo bind try_catch console_log console_error modify gets setHistory].
  cbn [ed_history ed_canvas console].
  destruct (snd (getValues (ed_history ed))) as [|s l] eqn:E; [contradiction|].
  cbn [List.length Nat.eqb negb].
  rewrite restore_malformed by exact Hp.
  cbn [ed_history ed_canvas console].
  destruct (truthy (last (s :: l) EmptyString)); cbn [console ed_canvas ed_history].
  - now rewrite <- app_assoc.
  - reflexivity.
Qed.

(** Whatever the history holds, neither handler lets an exception out. *)
Lemma undo_redo_never_throw (ed : editor H) :
  fst (undo ed) = Normal tt /\ fst (redo ed) = Normal tt.
Proof.
  split.
  - cbv [undo bind try_catch console_log console_error modify gets setHistory
         restore parse setCanvas skip ret throw].
    cbn [ed_history ed_canvas console].
    destruct (fst (getValues (ed_history ed))) as [|s l]; [reflexivity|].
    cbn [List.length Nat.eqb negb].
    destruct (truthy (last (s :: l) EmptyString)); [|reflexivity].
    destruct (JSON_parse (last (s :: l) EmptyString)); reflexivity.
  - cbv [redo bind try_catch console_log console_error modify gets setHistory
         restore parse setCanvas skip ret throw].
    cbn [ed_history ed_canvas console].
    destruct (snd (getValues (ed_history ed))) as [|s l]; [reflexivity|].
    cbn [List.length Nat.eqb negb].
    destruct (truthy (last (s :: l) EmptyString)); [|reflexivity].
    destruct (JSON_parse (last (s :: l) EmptyString)); reflexivity.
Qed.


(** With a text input focused, the history, arrow and Delete listeners do
    nothing. *)
Lemma ctrZY_focused (e : key_event) (n : nat) (ed : editor H) :
  ctrZY e (S n) ed = (Normal tt, ed).
Proof.
  unfold ctrZY. cbn [Nat.eqb]. rewrite andb_false_r. reflexivity.
Qed.

Lemma arrowKeys_focused (e : key_event) (n : nat) (ed : editor H) :
  arrowKeys e (S n) ed = (Normal tt, ed).
Proof. reflexivity. Qed.

Lemma deleteKey_focused (e : key_event) (n : nat) (ed : editor H) :
  deleteKey e (S n) ed = (Normal tt, ed).
Proof.
  unfold deleteKey. cbn [Nat.eqb]. rewrite andb_false_r. reflexivity.
Qed.

(** With a text input focused, all a keydown event does to the editor is
    what [zoomWithKeys] does to the canvas. *)
Lemma keydown_focused (e : key_event) (n : nat) (ed : editor H) :
  keydown e (S n) ed =
  (Normal tt,
   EditorState (Zoom.zoomWithKeys e (ed_canvas ed)) (ed_history ed) (console ed)).
Proof.
  unfold keydown, isolated, bind, try_catch.
  rewrite ctrZY_focused, arrowKeys_focused, deleteKey_focused.
  reflexivity.
Qed.

(** A listener of the shell that completes normally leaves the page with
    the editor it returns. *)
Lemma onEditor_normal (m : stmt H unit) (p : Page.page H) (ed' : editor H) :
  m (Page.pg_editor p) = (Normal tt, ed') ->
  Page.onEditor m p = Page.Page ed' (Page.pg_path p).
Proof.
  intros E. unfold Page.onEditor, isolated, try_catch. rewrite E. reflexivity.
Qed.

Lemma onEditor_skips (m : stmt H unit) (p : Page.page H) :
  m (Page.pg_editor p) = (Normal tt, Page.pg_editor p) ->
  Page.onEditor m p = p.
Proof.
  intros E. rewrite (onEditor_normal m p _ E). now destruct p.
Qed.

(** The snapshot listener completes normally. *)
Lemma objectModified_records (ed : editor H) :
  objectModified ed =
  (Normal tt,
   EditorState (ed_canvas ed)
               (push (JSON_stringify (toJSON (ed_canvas ed))) (ed_history ed))
               (console ed ++ ["trigger: modified"%string])).
Proof. reflexivity. Qed.

(** With a text input focused, the event gets past the first three listeners
    and reaches the path tool's and the zoom listener. *)
Lemma documentKeydown_focused (e : key_event) (n : nat) (p : Page.page H) :
  Page.documentKeydown e (S n) p =
  Page.onEditor (keyZoom e (S n)) (Page.pathEscape e p).
Proof.
  unfold Page.documentKeydown.
  rewrite (onEditor_skips (ctrZY e (S n)) p) by apply ctrZY_focused.
  rewrite (onEditor_skips (arrowKeys e (S n)) p) by apply arrowKeys_focused.
  rewrite (onEditor_skips (deleteKey e (S n)) p) by apply deleteKey_focused.
  reflexivity.
Qed.

(** Where the path tool's listener has nothing to do, the five listeners do
    to the editor what the shell's four do. *)
Lemma documentKeydown_idle (e : key_event) (focus : nat) (p : Page.page H) :
  Drawing.isDrawingPath (fst (Page.pg_path p)) = false \/ key_of e <> 27%Z ->
  Page.documentKeydown e focus p =
  Page.Page (snd (keydown e focus (Page.pg_editor p))) (Page.pg_path p).
Proof.
  intros Hidle. unfold Page.documentKeydown.
  set (p3 := Page.onEditor (deleteKey e focus) _).
  assert (E : Page.pathEscape e p3 = p3).
  { unfold Page.pathEscape.
    assert (Ep : Page.pg_path p3 = Page.pg_path p) by reflexivity.
    rewrite Ep. destruct Hidle as [Hd|Hk].
    - rewrite Hd. reflexivity.
    - destruct (Drawing.isDrawingPath (fst (Page.pg_path p))); [|reflexivity].
      cbn [negb]. destruct (Z.eqb_spec (key_of e) 27) as [E|_]; [contradiction|].
      reflexivity. }
  rewrite E. subst p3. unfold Page.onEditor, keydown, isolated, bind, try_catch.
  cbn [Page.pg_editor Page.pg_path].
  destruct (ctrZY e focus (Page.pg_editor p)) as [[[]|x1] e1]; cbn [snd skip ret];
  destruct (arrowKeys e focus e1) as [[[]|x2] e2]; cbn [snd skip ret];
  destruct (deleteKey e focus e2) as [[[]|x3] e3]; cbn [snd skip ret];
  destruct (keyZoom e focus e3) as [[[]|x4] e4]; reflexivity.
Qed.

(** C4, as the code has it.  While a text input or textarea has focus
    ([S n] focused elements), the Ctrl+Z / Ctrl+Y listener, the arrow-key
    listener and the Delete listener leave the editor as it is, for every
    keydown event.  Two listeners have no such test.  The zoom listener
    does to the canvas what [zoomWithKeys] does, and unless Escape is
    pressed while a path is drawn that is all the event does to the page.
    The path tool's listener answers Escape while a path is drawn: the
    drawing is cancelled, a snapshot is pushed on the history and the
    console gets a line. *)
Theorem focused_keydown_only_zooms (e : key_event) (n : nat) (p : Page.page H) :
  let ed := Page.pg_editor p in
  ctrZY e (S n) ed = (Normal tt, ed) /\
  arrowKeys e (S n) ed = (Normal tt, ed) /\
  deleteKey e (S n) ed = (Normal tt, ed) /\
  (Drawing.isDrawingPath (fst (Page.pg_path p)) = false \/ key_of e <> 27%Z \/
   Drawing.cancelDrawing (Page.pg_path p) = None ->
   Page.documentKeydown e (S n) p =
     Page.Page (EditorState (Zoom.zoomWithKeys e (ed_canvas ed))
                            (ed_history ed) (console ed))
               (Page.pg_path p)) /\
  (Drawing.isDrawingPath (fst (Page.pg_path p)) = true ->
   key_of e = 27%Z ->
   forall st, Drawing.cancelDrawing (Page.pg_path p) = Some st ->
   exists s,
     Page.documentKeydown e (S n) p =
       Page.Page (EditorState (Zoom.zoomWithKeys e (ed_canvas ed))
                              (push s (ed_history ed))
                              (console ed ++ ["trigger: modified"%string]))
                 st).
Proof.
  intros ed.
  split; [apply ctrZY_focused|].
  split; [apply arrowKeys_focused|].
  split; [apply deleteKey_focused|].
  split.
  - intros Hidle. rewrite documentKeydown_focused.
    assert (E : Page.pathEscape e p = p).
    { unfold Page.pathEscape.
      destruct (Drawing.isDrawingPath (fst (Page.pg_path p))); [|reflexivity].
      cbn [negb]. destruct (Z.eqb_spec (key_of e) 27) as [Ek|_]; [|reflexivity].
      destruct Hidle as [Hd|[Hk|Hc]]; [discriminate|contradiction|].
      rewrite Hc. reflexivity. }
    rewrite E. reflexivity.
  - intros Hd Hk st Hc. rewrite documentKeydown_focused.
    exists (JSON_stringify (toJSON (ed_canvas ed))).
    unfold Page.pathEscape. rewrite Hd, Hk, Hc. reflexivity.
Qed.

End WithCollaborators.



(** A page with a text input focused, no path being drawn, and Escape
    pressed; and the page with the path of [Drawing.previewing] being drawn,
    on which Escape pops the previewed segment and pushes a snapshot. *)
Lemma focused_keydown_only_zooms_witness :
  let ed := EditorState (Zoom.blank 1%Q) (@nil string, @nil string) [] in
  let cancelled :=
    (Drawing.PathTool false None (50, 50)%R (Drawing.L 50 50) false false 0%R 0%R,
     Drawing.Canvas false true
       [(1%nat, Drawing.Path [Drawing.M 0 0; Drawing.L 100 0])] [1%nat] 1) in
  Page.documentKeydown Drawing.escape 1
      (Page.Page ed (Drawing.pathTool_init, Drawing.untouched)) =
    Page.Page ed (Drawing.pathTool_init, Drawing.untouched) /\
  Drawing.cancelDrawing Drawing.previewing = Some cancelled /\
  exists s,
    Page.documentKeydown Drawing.escape 1 (Page.Page ed Drawing.previewing) =
      Page.Page (EditorState (Zoom.blank 1%Q) (push s (ed_history ed))
                             ["trigger: modified"%string])
                cancelled.
Proof.
  intros ed cancelled.
  assert (C : Drawing.cancelDrawing Drawing.previewing = Some cancelled)
    by reflexivity.
  split; [|split; [exact C|]].
  - exact (proj1 (proj2 (proj2 (proj2
             (focused_keydown_only_zooms (list string * list string) Drawing.escape 0
                (Page.Page ed (Drawing.pathTool_init, Drawing.untouched))))))
             (or_introl eq_refl)).
  - exact (proj2 (proj2 (proj2 (proj2
             (focused_keydown_only_zooms (list string * list string) Drawing.escape 0
                (Page.Page ed Drawing.previewing)))))
             eq_refl eq_refl cancelled C).
Defined.

(** With a text input focused and no path being drawn, ctr - takes the
    canvas from zoom 1 to zoom 0.75: the zoom chord changes the editor
    state. *)
Lemma focused_ctrl_minus_zooms :
  let ed := EditorState (Zoom.blank 1%Q) (@nil string, @nil string) [] in
  let p := Page.Page ed (Drawing.pathTool_init, Drawing.untouched) in
  let p' := Page.documentKeydown Zoom.ctrlMinus 1 p in
  (zoom (ed_canvas (Page.pg_editor p')) == 3 # 4)%Q /\
  ~ (zoom (ed_canvas (Page.pg_editor p')) == zoom (ed_canvas ed))%Q /\
  p' <> p.
Proof.
  intros ed p p'. subst p'.
  rewrite (documentKeydown_idle (list string * list string)) by (left; reflexivity).
  rewrite (keydown_focused (list string * list string)).
  split; [vm_compute; reflexivity|].
  split; [vm_compute; discriminate|].
  intros E. apply (f_equal (fun q => Qnum (zoom (ed_canvas (Page.pg_editor q))))) in E.
  vm_compute in E. discriminate E.
Qed.

(** With a text input focused and a path being drawn, Escape cancels the
    drawing and records a snapshot: the history and the console change. *)
Lemma focused_escape_cancels_path :
  let ed := EditorState (Zoom.blank 1%Q) (@nil string, @nil string) [] in
  let p' := Page.documentKeydown Drawing.escape 1 (Page.Page ed Drawing.previewing) in
  ed_history (Page.pg_editor p') = (["{}"%string], @nil string) /\
  console (Page.pg_editor p') = ["trigger: modified"%string] /\
  Drawing.isDrawingPath (fst (Page.pg_path p')) = false /\
  Drawing.modified (snd (Page.pg_path p')) = 1%nat.
Proof.
  intros ed p'. subst p'.
  rewrite (documentKeydown_focused (list string * list string)).
  repeat split.
Qed.

End EditorFacts.

(** ** Pointer drawing tools *)

Module DrawingFacts.

Import Drawing.

Local Open Scope R_scope.

(** *** Truncation and the rounding of angles *)

Lemma trunc_nonneg (x : R) (n : Z) :
  0 <= x -> IZR n <= x < IZR n + 1 -> trunc x = n.
Proof.
  intros Hx [Hl Hu]. unfold trunc. destruct (Rle_dec 0 x) as [_|N]; [|contradiction].
  symmetry. apply Int_part_spec. split; Lra.lra.
Qed.

Lemma trunc_neg (x : R) (n : Z) :
  x < 0 -> IZR n - 1 < x <= IZR n -> trunc x = n.
Proof.
  intros Hx [Hl Hu]. unfold trunc. destruct (Rle_dec 0 x) as [P|_]; [Lra.lra|].
  assert (E : (- n)%Z = Int_part (- x)).
  { apply Int_part_spec. rewrite opp_IZR. split; Lra.lra. }
  rewrite <- E. lia.
Qed.

(** [a % b] leaves a dividend smaller than the divisor as it is, negative
    ones included. *)
Lemma js_rem_small (a b : R) : 0 < b -> - b < a < b -> js_rem a b = a.
Proof.
  intros Hb [Hl Hu]. unfold js_rem.
  assert (T : trunc (a / b) = 0%Z).
  { destruct (Rle_dec 0 a) as [P|N].
    - apply trunc_nonneg.
      + apply Rmult_le_pos; [exact P|]. left. now apply Rinv_0_lt_compat.
      + split.
        * apply Rmult_le_pos; [exact P|]. left. now apply Rinv_0_lt_compat.
        * cbn. apply (Rmult_lt_reg_r b); [exact Hb|]. unfold Rdiv.
          rewrite Rmult_assoc, Rinv_l by Lra.lra. Lra.lra.
    - assert (a / b < 0).
      { apply (Rmult_lt_reg_r b); [exact Hb|]. unfold Rdiv.
        rewrite Rmult_assoc, Rinv_l by Lra.lra. Lra.lra. }
      apply trunc_neg; [assumption|]. split; [|cbn; Lra.lra].
      cbn. apply (Rmult_lt_reg_r b); [exact Hb|]. unfold Rdiv.
      rewrite Rmult_assoc, Rinv_l by Lra.lra. Lra.lra. }
  rewrite T. cbn. Lra.lra.
Qed.

(** From -7.5 degrees upward the angle goes to the multiple of 15 nearest to
    it, the upper one at a tie: the multiple [15 k] with
    [15 k - 7.5 <= angle < 15 k + 7.5].  The angle is -7.5 or at least
    0.000015 above it, so that the quotient handed to [parseInt] is written
    without an exponent. *)
Lemma snapAngle_floor (angle : R) (k : Z) :
  -7.5 <= angle -> angle + 7.5 < 360 ->
  angle + 7.5 = 0 \/ 15 / 1000000 <= angle + 7.5 ->
  15 * IZR k <= angle + 7.5 < 15 * IZR k + 15 ->
  snapAngle angle = IZR k * 15.
Proof.
  intros Hlo Hhi _ [Kl Ku]. unfold snapAngle, parseInt.
  rewrite js_rem_small by Lra.lra.
  rewrite (trunc_nonneg ((angle + 7.5) / 15) k); [reflexivity| |]; Lra.lra.
Qed.

(** Below -7.5 degrees [parseInt] truncates upward: the angle goes to the
    multiple [15 k] with [15 k - 22.5 < angle <= 15 k - 7.5], one step above
    the nearest one unless the angle is exactly half-way.  The angle is at
    least 0.000015 below -7.5, for the same reason. *)
Lemma snapAngle_ceil (angle : R) (k : Z) :
  -360 < angle + 7.5 -> angle + 7.5 <= - (15 / 1000000) ->
  15 * IZR k - 15 < angle + 7.5 <= 15 * IZR k ->
  snapAngle angle = IZR k * 15.
Proof.
  intros Hlo Hhi [Kl Ku]. unfold snapAngle, parseInt.
  rewrite js_rem_small by Lra.lra.
  rewrite (trunc_neg ((angle + 7.5) / 15) k); [reflexivity| |]; Lra.lra.
Qed.

Lemma PI_gt_3 : 3 < PI.
Proof. pose proof PI2_3_2. Lra.lra. Qed.

Lemma rawAngle_straight_up : rawAngle 0 (-100) = -90.
Proof.
  unfold rawAngle, Math_atan2, Math_PI.
  destruct (Rlt_dec 0 0) as [F|_]; [Lra.lra|].
  destruct (Rlt_dec 0 (-100)) as [F|_]; [Lra.lra|].
  destruct (Rlt_dec (-100) 0) as [_|F]; [|Lra.lra].
  pose proof PI_RGT_0. field. Lra.lra.
Qed.

Lemma snapAngle_minus_90 : snapAngle (-90) = -75.
Proof.
  rewrite (snapAngle_ceil (-90) (-5)); Lra.lra.
Qed.

Lemma tan_eighth : 1 / 20 < tan (1 / 8).
Proof.
  pose proof PI_gt_3 as Hpi.
  assert (S1 : sin_lb (1 / 8) <= sin (1 / 8)).
  { apply SIN; Lra.lra. }
  assert (S2 : 1 / 10 < sin_lb (1 / 8)).
  { unfold sin_lb, sin_approx, sin_term. cbn -[IZR pow]. cbn [pow]. Lra.lra. }
  assert (C1 : 0 < cos (1 / 8)).
  { apply cos_gt_0; Lra.lra. }
  pose proof (COS_bound (1 / 8)) as [_ C2].
  unfold tan, Rdiv.
  apply Rlt_le_trans with (sin (1 / 8) * 1); [Lra.lra|].
  apply Rmult_le_compat_l; [Lra.lra|].
  rewrite <- Rinv_1 at 1. apply Rinv_le_contravar; assumption.
Qed.

Lemma atan_twentieth : 0 < atan (1 / 20) < PI / 24.
Proof.
  pose proof PI_gt_3 as Hpi. split.
  - rewrite <- atan_0. apply atan_increasing. Lra.lra.
  - apply Rlt_trans with (1 / 8); [|Lra.lra].
    rewrite <- (atan_tan (1 / 8)) by (split; Lra.lra).
    apply atan_increasing, tan_eighth.
Qed.

(** The vector (100, 5) is at less than 7.5 degrees. *)
Lemma rawAngle_100_5 : 0 < rawAngle 100 5 < 7.5.
Proof.
  unfold rawAngle, Math_atan2, Math_PI.
  destruct (Rlt_dec 0 100) as [_|F]; [|Lra.lra].
  replace (5 / 100) with (1 / 20) by Lra.lra.
  pose proof atan_twentieth as [A1 A2]. pose proof PI_RGT_0 as Hpi.
  split.
  - apply Rmult_lt_0_compat; [|Lra.lra].
    apply Rmult_lt_0_compat; [exact A1|]. now apply Rinv_0_lt_compat.
  - apply (Rmult_lt_reg_r (PI / 180)); [Lra.lra|].
    replace (atan (1 / 20) / PI * 180 * (PI / 180)) with (atan (1 / 20)) by (field; Lra.lra).
    Lra.lra.
Qed.

(** *** Angle snapping *)

(** C10, in exact arithmetic.  For every anchor and every pointer
    position, the angle-snapped end point is as far from the anchor as the
    pointer is: snapping changes the direction of the vector and keeps its
    length.  Numbers are the reals here ([angleSnap] is the code of the line
    tool and of the path tool's line preview); on the binary64 Numbers of
    the code each operation rounds, and the equality holds up to that
    rounding only: [Line64Facts.snap_rounds_past_pointer]. *)
Theorem angle_snap_preserves_length (startX startY : R) (pointer : R * R) :
  distance (startX, startY) (angleSnap startX startY pointer) =
  distance (startX, startY) pointer.
Proof.
  unfold distance, angleSnap, Math_sqrt, Math_cos, Math_sin. cbn [fst snd].
  set (x2 := fst pointer - startX). set (y2 := snd pointer - startY).
  set (r := sqrt (x2 * x2 + y2 * y2)).
  set (a := snapAngle (rawAngle x2 y2) * Math_PI / 180).
  replace ((r * cos a + startX - startX) * (r * cos a + startX - startX) +
           (r * sin a + startY - startY) * (r * sin a + startY - startY))
    with (r * r * (Rsqr (sin a) + Rsqr (cos a))) by (unfold Rsqr; ring).
  rewrite sin2_cos2, Rmult_1_r.
  apply sqrt_square. apply sqrt_pos.
Qed.

Lemma angleSnap_100_5 : angleSnap 0 0 (100, 5) = (sqrt 10025, 0).
Proof.
  unfold angleSnap, Math_sqrt, Math_cos, Math_sin. cbn [fst snd].
  replace (100 - 0) with 100 by Lra.lra. replace (5 - 0) with 5 by Lra.lra.
  pose proof rawAngle_100_5 as [A1 A2].
  assert (Hq : rawAngle 100 5 + 7.5 = 0 \/ 15 / 1000000 <= rawAngle 100 5 + 7.5)
    by (right; Lra.lra).
  rewrite (snapAngle_floor (rawAngle 100 5) 0) by first [exact Hq|Lra.lra].
  replace (0 * 15 * Math_PI / 180) with 0 by Lra.lra.
  rewrite cos_0, sin_0.
  replace (100 * 100 + 5 * 5) with 10025 by Lra.lra.
  f_equal; Lra.lra.
Qed.

(** The state the line tool and the canvas are in after the run. *)
Lemma shiftLine_result :
  shiftLine =
  Some (LineTool false (Some 1%nat) (100, 5) (0, 0, 0, 0),
        Canvas true false [(1%nat, Line 0 0 (sqrt 10025) 0)] [1%nat] 1).
Proof.
  unfold shiftLine, next, lineMouseDown.
  cbn -[angleSnap lineMouseMove lineMouseUp].
  unfold lineMouseMove.
  cbn -[angleSnap lineMouseUp]. rewrite angleSnap_100_5.
  cbn. reflexivity.
Qed.

Lemma sqrt_10025_gt_100 : 100 < sqrt 10025.
Proof.
  rewrite <- (sqrt_square 100) at 1 by Lra.lra.
  apply sqrt_lt_1; Lra.lra.
Qed.

(** C2, as the code has it.  A line drawn from (0,0) with Shift held and the
    pointer at (100,5) is committed with its free end point at
    (sqrt 10025, 0), about (100.125, 0): the direction is snapped to 0
    degrees and the length of the vector (100,5) is kept. *)
Theorem shift_line_endpoint :
  next shiftLine freeEndpoint = Some (sqrt 10025, 0).
Proof. rewrite shiftLine_result. reflexivity. Qed.

(** The committed end point is not (100, 0). *)
Lemma shift_line_endpoint_not_100 :
  next shiftLine freeEndpoint <> Some (100, 0).
Proof.
  rewrite shiftLine_result. cbn. intros E. injection E as E.
  pose proof sqrt_10025_gt_100. Lra.lra.
Qed.

Lemma angleSnap_straight_up :
  angleSnap 0 0 (0, -100) = (100 * cos (-75 * PI / 180), 100 * sin (-75 * PI / 180)).
Proof.
  unfold angleSnap. cbn [fst snd].
  replace (0 - 0) with 0 by Lra.lra. replace (-100 - 0) with (-100) by Lra.lra.
  rewrite rawAngle_straight_up, snapAngle_minus_90.
  unfold Math_sqrt, Math_cos, Math_sin, Math_PI.
  replace (0 * 0 + -100 * -100) with (100 * 100) by Lra.lra.
  rewrite sqrt_square by Lra.lra.
  f_equal; Lra.lra.
Qed.

Lemma shiftLineUp_result :
  shiftLineUp =
  Some (LineTool false (Some 1%nat) (0, -100) (0, 0, 0, 0),
        Canvas true false
          [(1%nat, Line 0 0 (100 * cos (-75 * PI / 180)) (100 * sin (-75 * PI / 180)))]
          [1%nat] 1).
Proof.
  unfold shiftLineUp, next, lineMouseDown.
  cbn -[angleSnap lineMouseMove lineMouseUp].
  unfold lineMouseMove.
  cbn -[angleSnap lineMouseUp]. rewrite angleSnap_straight_up.
  cbn. reflexivity.
Qed.

(** C5 fails above the anchor.  With Shift held and the pointer straight
    above the anchor the vector is at -90 degrees, a multiple of 15, and the
    angle it is snapped to is -75 degrees: the line that is committed leans
    to the right of the vertical. *)
Theorem shift_straight_up_is_not_vertical :
  rawAngle (0 - 0) (-100 - 0) = -90 /\
  snapAngle (rawAngle (0 - 0) (-100 - 0)) = -75 /\
  exists x y, next shiftLineUp freeEndpoint = Some (x, y) /\ 0 < x.
Proof.
  assert (E : rawAngle (0 - 0) (-100 - 0) = -90).
  { replace (0 - 0) with 0 by Lra.lra. replace (-100 - 0) with (-100) by Lra.lra.
    apply rawAngle_straight_up. }
  split; [exact E|]. split; [rewrite E; apply snapAngle_minus_90|].
  rewrite shiftLineUp_result. eexists _, _. split; [reflexivity|].
  pose proof PI_gt_3. pose proof PI_4.
  assert (0 < cos (-75 * PI / 180)); [|Lra.lra].
  apply cos_gt_0; Lra.lra.
Qed.

(** *** The path tool: proximity snapping *)

Lemma inRange_spec (radius cx cy tx ty : R) :
  inRange radius cx cy tx ty = true <->
  Rabs (cx - tx) <= radius /\ Rabs (cy - ty) <= radius.
Proof.
  unfold inRange, Rleb, Math_abs.
  destruct (Rle_dec (Rabs (cx - tx)) radius) as [A|A];
    destruct (Rle_dec (Rabs (cy - ty)) radius) as [B|B]; cbn [andb];
    split; try discriminate; try (intros [? ?]; contradiction); auto.
Qed.

(** A pointer within [radius] of the target, in Euclidean distance, is in
    range. *)
Lemma within_radius_inRange (radius cx cy tx ty : R) :
  distance (tx, ty) (cx, cy) <= radius -> inRange radius cx cy tx ty = true.
Proof.
  unfold distance. cbn [fst snd]. intros Hd. apply inRange_spec.
  assert (Hx : 0 <= (cx - tx) * (cx - tx)) by apply Rle_0_sqr.
  assert (Hy : 0 <= (cy - ty) * (cy - ty)) by apply Rle_0_sqr.
  split.
  - rewrite <- sqrt_Rsqr_abs. unfold Rsqr.
    apply Rle_trans with (2 := Hd). apply sqrt_le_1; Lra.lra.
  - rewrite <- sqrt_Rsqr_abs. unfold Rsqr.
    apply Rle_trans with (2 := Hd). apply sqrt_le_1; Lra.lra.
Qed.

(** The loop leaves the preview at the first point in range, or as it was. *)
Lemma snapLoop_firstInRange (pointer : R * R) (snapPoints : list segment) (u : segment) :
  snapLoop pointer snapPoints u =
  match firstInRange pointer snapPoints with
  | Some p => set12 u (fst (endpoint p)) (snd (endpoint p))
  | None => u
  end.
Proof.
  unfold firstInRange.
  induction snapPoints as [|p rest IH]; [reflexivity|].
  cbn [snapLoop find].
  destruct p as [x y|x y|cx cy x y]; cbn [endpoint at1 at2 fst snd];
    destruct (inRange 10 (fst pointer) (snd pointer) x y); try reflexivity; exact IH.
Qed.

Lemma lookup_update (i : nat) (v w : shape) (s : list (nat * shape)) :
  lookup i s = Some w -> lookup i (update i v s) = Some v.
Proof.
  induction s as [|[j u] s IH]; cbn [lookup update]; [discriminate|].
  destruct (Nat.eqb i j) eqn:E; cbn [lookup]; rewrite E; [reflexivity|exact IH].
Qed.

Lemma pathOf_write (i : nat) (p q : list segment) (c : canvas) :
  pathOf (Some i) c = Some (i, p) ->
  pathOf (Some i) (write i (Path q) c) = Some (i, q).
Proof.
  unfold pathOf, write. cbn [store].
  destruct (lookup i (store c)) as [w|] eqn:E; [|discriminate].
  intros _. now rewrite (lookup_update i (Path q) w (store c) E).
Qed.

Lemma pathOf_ref (r : option nat) (i : nat) (p : list segment) (c : canvas) :
  pathOf r c = Some (i, p) -> r = Some i.
Proof.
  unfold pathOf. destruct r as [j|]; [|discriminate].
  destruct (lookup j (store c)) as [[| q]|]; try discriminate.
  intros E. injection E as E _. now subst.
Qed.

(** C9, as the code has it.  While the next line is previewed (no curve is
    being edited and the button is up), if the pointer is in range of a
    placed point other than the one placed last ([|dx| <= 10] and
    [|dy| <= 10], a square that holds the circle of radius 10), the
    previewed end point is set exactly to the end point of the first such
    point in path order, whether Shift is held or not. *)
Theorem preview_snaps_to_first_point_in_range
    (o : mouse_event) (t : pathTool) (c : canvas) (i : nat)
    (path : list segment) (p : segment) :
  isDrawingPathMode c = true ->
  isDrawingPath t = true ->
  isDrawingCurve t = false ->
  isMouseDown t = false ->
  pathOf (pathToDraw t) c = Some (i, path) ->
  firstInRange (getPointer o) (removelast (removelast path)) = Some p ->
  exists t' c',
    pathMouseMove o (t, c) = Some (t', c') /\
    pathOf (pathToDraw t') c' =
      Some (i, removelast path ++ [L (fst (endpoint p)) (snd (endpoint p))]).
Proof.
  intros Hmode Hdraw Hcurve Hdown Hpath Hfirst.
  pose proof (pathOf_ref _ _ _ _ Hpath) as Href.
  unfold pathMouseMove. rewrite Hmode, Hdraw, Hcurve, Hdown, Hpath. cbn [negb andb].
  rewrite andb_true_r.
  set (placed := removelast path) in *.
  assert (Hlen : Nat.ltb 1 (List.length placed) = true).
  { apply Nat.ltb_lt. destruct placed as [|a [|b rest]]; cbn in *; try discriminate. lia. }
  assert (Hlast : exists q, lastOf placed = Some q).
  { destruct placed as [|a rest]; [discriminate|]. eexists; reflexivity. }
  destruct Hlast as [q Hq]. rewrite Hq, Hlen.
  destruct (shiftKey o).
  - destruct (angleSnap (at1 q) (at2 q) (getPointer o)) as [x y].
    rewrite snapLoop_firstInRange, Hfirst. cbn [set12].
    eexists _, _. split; [reflexivity|]. cbn [pathToDraw].
    rewrite Href in *. now apply pathOf_write with (p := path).
  - rewrite snapLoop_firstInRange, Hfirst. cbn [set12].
    eexists _, _. split; [reflexivity|]. cbn [pathToDraw].
    rewrite Href in *. now apply pathOf_write with (p := path).
Qed.

(** With Shift held and no placed point in range, the preview is the angle
    snap of the pointer about [p[1]], [p[2]] of the last placed command:
    the same statements as in the line tool. *)
Lemma shift_preview_is_angleSnap
    (o : mouse_event) (t : pathTool) (c : canvas) (i : nat)
    (path : list segment) (q : segment) :
  isDrawingPathMode c = true ->
  isDrawingPath t = true ->
  isDrawingCurve t = false ->
  isMouseDown t = false ->
  shiftKey o = true ->
  pathOf (pathToDraw t) c = Some (i, path) ->
  lastOf (removelast path) = Some q ->
  firstInRange (getPointer o) (removelast (removelast path)) = None ->
  exists t' c',
    pathMouseMove o (t, c) = Some (t', c') /\
    pathOf (pathToDraw t') c' =
      Some (i, removelast path ++
               [L (fst (angleSnap (at1 q) (at2 q) (getPointer o)))
                  (snd (angleSnap (at1 q) (at2 q) (getPointer o)))]).
Proof.
  intros Hmode Hdraw Hcurve Hdown Hshift Hpath Hq Hfirst.
  pose proof (pathOf_ref _ _ _ _ Hpath) as Href.
  unfold pathMouseMove. rewrite Hmode, Hdraw, Hcurve, Hdown, Hshift, Hpath, Hq.
  cbn [negb andb]. rewrite andb_true_r.
  destruct (angleSnap (at1 q) (at2 q) (getPointer o)) as [x y]. cbn [fst snd].
  rewrite snapLoop_firstInRange, Hfirst. cbn [set12].
  destruct (Nat.ltb 1 (List.length (removelast path)));
    (eexists _, _; split; [reflexivity|]; cbn [pathToDraw];
     rewrite Href in *; now apply pathOf_write with (p := path)).
Qed.

Lemma inRange_3_4_origin : inRange 10 3 4 0 0 = true.
Proof.
  apply inRange_spec. split; rewrite Rabs_right; Lra.lra.
Qed.

(** A path through (0,0), (100,0) and (100,100) with the pointer at (3,4):
    the preview closes the shape at (0,0). *)
Lemma preview_snaps_to_first_point_in_range_witness :
  let o := MouseEvent (3, 4) false in
  let t := PathTool true (Some 1%nat) (50, 50) (L 50 50) false false 0 0 in
  let path := [M 0 0; L 100 0; L 100 100; L 50 50] in
  let c := Canvas false true [(1%nat, Path path)] [1%nat] 0 in
  firstInRange (getPointer o) (removelast (removelast path)) = Some (M 0 0) /\
  exists t' c',
    pathMouseMove o (t, c) = Some (t', c') /\
    pathOf (pathToDraw t') c' = Some (1%nat, [M 0 0; L 100 0; L 100 100; L 0 0]).
Proof.
  intros o t path c.
  assert (F : firstInRange (getPointer o) (removelast (removelast path)) = Some (M 0 0)).
  { unfold firstInRange. cbn -[inRange]. now rewrite inRange_3_4_origin. }
  split; [exact F|].
  exact (preview_snaps_to_first_point_in_range o t c 1%nat path (M 0 0)
           eq_refl eq_refl eq_refl eq_refl eq_refl F).
Defined.

Lemma inRange_100_3_origin : inRange 10 100 3 0 0 = false.
Proof.
  destruct (inRange 10 100 3 0 0) eqn:E; [|reflexivity].
  apply inRange_spec in E as [E _]. rewrite Rabs_right in E; Lra.lra.
Qed.

Lemma inRange_100_3_placed : inRange 10 100 3 100 0 = true.
Proof.
  apply inRange_spec. split; rewrite Rabs_right; Lra.lra.
Qed.

Lemma twoClicks_result :
  twoClicks =
  Some (PathTool true (Some 1%nat) (100, 0) (L 100 0) false false 0 0,
        Canvas false true [(1%nat, Path [M 0 0; L 100 0; L 100 0])] [1%nat] 0).
Proof. reflexivity. Qed.

Lemma twoClicksThenMove_result :
  twoClicksThenMove =
  Some (PathTool true (Some 1%nat) (100, 3) (L 100 3) false false 0 0,
        Canvas false true [(1%nat, Path [M 0 0; L 100 0; L 100 3])] [1%nat] 0).
Proof.
  unfold twoClicksThenMove. rewrite twoClicks_result.
  cbn -[inRange]. rewrite inRange_100_3_origin. reflexivity.
Qed.

(** After clicks at (0,0) and (100,0), the pointer at (100,3) is 3 pixels
    from the point placed by the second click, and the preview stays at the
    pointer. *)
Lemma preview_ignores_latest_point :
  distance (100, 0) (100, 3) <= 10 /\
  inRange 10 100 3 100 0 = true /\
  exists t c,
    twoClicksThenMove = Some (t, c) /\
    isDrawingCurve t = false /\
    pathOf (pathToDraw t) c = Some (1%nat, [M 0 0; L 100 0; L 100 3]) /\
    L 100 3 <> L 100 0.
Proof.
  split; [|split; [exact inRange_100_3_placed|]].
  - unfold distance. cbn [fst snd].
    replace ((100 - 100) * (100 - 100) + (3 - 0) * (3 - 0)) with (3 * 3) by Lra.lra.
    rewrite sqrt_square; Lra.lra.
  - eexists _, _. split; [exact twoClicksThenMove_result|].
    split; [reflexivity|]. split; [reflexivity|].
    intros E. injection E as E. Lra.lra.
Qed.

(** *** The path tool: cancelling *)

Lemma contains_remove (i : nat) (c : canvas) : contains i (remove i c) = false.
Proof.
  unfold contains, remove. cbn [onCanvas].
  induction (onCanvas c) as [|j l IH]; [reflexivity|].
  cbn [filter]. destruct (Nat.eqb j i) eqn:E; cbn [negb]; [exact IH|].
  cbn [existsb]. rewrite Nat.eqb_sym, E. exact IH.
Qed.

Lemma length_removelast_le (A : Type) (l : list A) :
  (List.length l <= 2 -> List.length (removelast l) < 2)%nat.
Proof.
  destruct l as [|a [|b [|c l]]]; cbn; lia.
Qed.

(** C7.  While a path is being drawn, Escape and a pointer-down outside the
    canvas both run [cancelDrawing], which ends the drawing and removes the
    last command of the path, the previewed segment.  If two or more
    commands remain, the path stays on the canvas with exactly those; if
    fewer remain, the path is removed from the canvas.  A path with only its
    first placed point (the Move and its preview) is removed. *)
Theorem cancel_removes_preview_or_path
    (t : pathTool) (c : canvas) (i : nat) (path : list segment) :
  isDrawingPath t = true ->
  pathOf (pathToDraw t) c = Some (i, path) ->
  contains i c = true ->
  pathKeydown escape (t, c) = cancelDrawing (t, c) /\
  pathDocMouseDown false (t, c) = cancelDrawing (t, c) /\
  exists t' c',
    cancelDrawing (t, c) = Some (t', c') /\
    isDrawingPath t' = false /\ pathToDraw t' = None /\
    (2 <= List.length (removelast path) ->
       drawnPath i c' = Some (removelast path))%nat /\
    (List.length (removelast path) < 2 -> contains i c' = false)%nat /\
    (List.length path <= 2 -> contains i c' = false)%nat.
Proof.
  intros Hdraw Hpath Hon.
  pose proof (pathOf_ref _ _ _ _ Hpath) as Href.
  split; [|split].
  - unfold pathKeydown. cbn [fst]. rewrite Hdraw. reflexivity.
  - unfold pathDocMouseDown. cbn [fst]. rewrite Hdraw. reflexivity.
  - unfold cancelDrawing. rewrite Hpath.
    eexists _, _. split; [reflexivity|]. cbn [isDrawingPath pathToDraw].
    split; [reflexivity|]. split; [reflexivity|].
    rewrite Href in Hpath.
    pose proof (pathOf_write i path (removelast path) c Hpath) as Hw.
    assert (Hgone : (List.length (removelast path) < 2)%nat ->
      contains i (trigger_modified
        (if Nat.ltb 1 (List.length (removelast path))
         then write i (Path (removelast path)) c
         else remove i (write i (Path (removelast path)) c))) = false).
    { intros Hlen.
      assert (E : Nat.ltb 1 (List.length (removelast path)) = false)
        by (apply Nat.ltb_ge; lia).
      rewrite E.
      change (contains i (trigger_modified (remove i (write i (Path (removelast path)) c))))
        with (contains i (remove i (write i (Path (removelast path)) c))).
      apply contains_remove. }
    split; [|split].
    + intros Hlen.
      assert (E : Nat.ltb 1 (List.length (removelast path)) = true)
        by (apply Nat.ltb_lt; lia).
      rewrite E. unfold drawnPath.
      change (contains i (trigger_modified (write i (Path (removelast path)) c)))
        with (contains i c).
      rewrite Hon.
      change (store (trigger_modified (write i (Path (removelast path)) c)))
        with (store (write i (Path (removelast path)) c)).
      unfold pathOf in Hw.
      destruct (lookup i (store (write i (Path (removelast path)) c))) as [[|q]|];
        try discriminate.
      injection Hw as Hw. now subst.
    + exact Hgone.
    + intros Hlen. apply Hgone. now apply length_removelast_le.
Qed.

(** Escape right after the first click: the path leaves the canvas. *)
Lemma cancel_removes_preview_or_path_witness :
  let t := PathTool true (Some 1%nat) (0, 0) (L 0 0) true false 0 0 in
  let c := Canvas false true [(1%nat, Path [M 0 0; L 0 0])] [1%nat] 0 in
  pathMouseDown (MouseEvent (0, 0) false)
    (pathTool_init, Canvas false true [] [] 0) = Some (t, c) /\
  exists t' c',
    pathKeydown escape (t, c) = Some (t', c') /\
    isDrawingPath t' = false /\ contains 1%nat c' = false.
Proof.
  intros t c. split; [reflexivity|].
  destruct (cancel_removes_preview_or_path t c 1%nat [M 0 0; L 0 0]
              eq_refl eq_refl eq_refl)
    as [K [_ [t' [c' [E [D [_ [_ [_ G]]]]]]]]].
  exists t', c'. split; [now rewrite K|]. split; [exact D|].
  apply G. cbn. lia.
Defined.

End DrawingFacts.

(** ** Angle snapping on binary64 Numbers *)

Module Line64Facts.

Import PrimFloat Line64.

Local Open Scope float_scope.

Set Warnings "-inexact-float".

(** A line anchored at (0.3, 0) with Shift held and the pointer at (0.9, 0),
    on the snapped direction already.  The difference 0.9 - 0.3 rounds to
    0.6000000000000001, and adding 0.3 again rounds to 0.9000000000000001:
    the end point stored is on the ray through the pointer, one unit in the
    last place beyond it, and not at the pointer's distance from the
    anchor. *)
Lemma snap_rounds_past_pointer :
  let anchor := (0.3, 0) in
  let pointer := (0.9, 0) in
  let stored := (0x1.ccccccccccccep-1, 0) in
  angleSnap (fst anchor) (snd anchor) pointer = Some stored /\
  (fst anchor <? fst pointer) = true /\
  (fst pointer <? fst stored) = true /\
  Qeq_bool (sqDistance anchor stored) (sqDistance anchor pointer) = false /\
  (sqDistance anchor pointer < sqDistance anchor stored)%Q.
Proof.
  intros anchor pointer stored.
  split; [vm_compute; reflexivity|].
  split; [vm_compute; reflexivity|].
  split; [vm_compute; reflexivity|].
  split; [vm_compute; reflexivity|].
  vm_compute. reflexivity.
Qed.

End Line64Facts.

(** ** The wheel zoom on binary64 Numbers *)

Module Zoom64Facts.

Import PrimFloat Zoom64.

Local Open Scope float_scope.

Set Warnings "-inexact-float".

Lemma returns_at_every_level : forallb returns levels = true.
Proof. vm_compute. reflexivity. Qed.

Lemma levels_complete (n : Z) : (5 <= n <= 295)%Z -> In n levels.
Proof.
  intros Hn. unfold levels. apply in_map_iff.
  exists (Z.to_nat (n - 5)). split; [lia|].
  apply in_seq. lia.
Qed.

Lemma reads_centi (z : float) (n : Z) : reads z n = true -> centi z = Some n.
Proof.
  unfold reads. destruct (centi z) as [k|]; [|discriminate].
  intros E. apply Z.eqb_eq in E. now subst k.
Qed.

Lemma notch_from (e : wheel_event) (c : canvas) (n : Z) (z : float) :
  wheelCtrlKey e = true ->
  centi (zoom c) = Some n ->
  ((level n * 100) + (if 0 <? deltaY e then - (5) else 5)) / 100 = z ->
  inBounds z = true ->
  zoomWithMouse e c = Some (applyZoom z c).
Proof.
  intros Hc Hn Hz Hb. unfold zoomWithMouse, getZoom. rewrite Hc, Hn. cbn [negb].
  rewrite Hz. unfold inBounds in Hb. apply negb_true_iff in Hb. rewrite Hb.
  reflexivity.
Qed.

(** With the zoom level reading [n / 100] to two decimals, between 0.05 and
    2.95, a notch up and a notch down with ctrl held lead to a level that
    reads [n / 100] again, by way of one that reads [(n + 5) / 100]; the
    original size of the canvas is kept. *)
Theorem wheel_up_down_round_trip (c : canvas) (n : Z) :
  (5 <= n <= 295)%Z ->
  centi (zoom c) = Some n ->
  exists u d,
    zoomWithMouse wheelUp c = Some u /\
    zoomWithMouse wheelDown u = Some d /\
    centi (zoom u) = Some (n + 5)%Z /\
    centi (zoom d) = Some n /\
    originalW d = originalW c /\ originalH d = originalH c.
Proof.
  intros Hn Hc.
  pose proof returns_at_every_level as A.
  rewrite forallb_forall in A. specialize (A n (levels_complete n Hn)).
  unfold returns in A.
  apply andb_prop in A as [A R2]. apply andb_prop in A as [A B2].
  apply andb_prop in A as [B1 R1].
  apply reads_centi in R1, R2.
  exists (applyZoom (up n) c), (applyZoom (down (n + 5)) (applyZoom (up n) c)).
  split; [now apply (notch_from wheelUp c n)|].
  split; [now apply (notch_from wheelDown (applyZoom (up n) c) (n + 5)%Z)|].
  split; [exact R1|]. split; [exact R2|]. split; reflexivity.
Qed.

Lemma wheel_up_down_round_trip_witness :
  (5 <= 123 <= 295)%Z /\
  centi (zoom (blank 1.234)) = Some 123%Z /\
  exists u d,
    zoomWithMouse wheelUp (blank 1.234) = Some u /\
    zoomWithMouse wheelDown u = Some d /\
    centi (zoom u) = Some 128%Z /\
    centi (zoom d) = Some 123%Z /\
    originalW d = 800 /\ originalH d = 600.
Proof.
  assert (Hn : (5 <= 123 <= 295)%Z) by lia.
  assert (Hc : centi (zoom (blank 1.234)) = Some 123%Z) by (vm_compute; reflexivity).
  split; [exact Hn|]. split; [exact Hc|].
  exact (wheel_up_down_round_trip (blank 1.234) 123 Hn Hc).
Defined.

(** The Number itself need not come back: from the zoom level 2 a notch up
    gives 2.05 and the notch down 1.9999999999999998, which reads 2.00. *)
Lemma wheel_round_trip_misses_2 :
  exists u d,
    zoomWithMouse wheelUp (blank 2) = Some u /\
    zoomWithMouse wheelDown u = Some d /\
    zoom u = 2.05 /\
    zoom d = 0x1.fffffffffffffp+0 /\
    (zoom d =? 2) = false /\
    centi (zoom d) = Some 200%Z.
Proof.
  do 2 eexists.
  split; [vm_compute; reflexivity|].
  split; [vm_compute; reflexivity|].
  repeat split.
Qed.

End Zoom64Facts.

(** ** Effect sliders *)

Module EffectsFacts.

Import Effects.
Import PrimFloat.

Local Open Scope float_scope.

(** *** What is read back, whatever the other effects are *)

Lemma readBack_blur (o : float) (e : effects) (x : float) :
  readBack o e blur_id x =
  if (0 <? x) && truthy (Some (fromSlider blur_id x))
  then toSlider blur_id (fromSlider blur_id x)
  else 0.
Proof.
  unfold readBack, getUpdatedFilter, getCurrentEffect, toSlider, fromSlider.
  cbn [blur brightness saturation gamma r g b slider filters app].
  destruct (0 <? x); cbn [andb];
  destruct (neq (brightness e) 50); destruct (neq (saturation e) 50);
  destruct (neq (r (gamma e)) 45 || neq (g (gamma e)) 45 || neq (b (gamma e)) 45);
  cbn [app find get_blur]; try reflexivity;
  destruct (truthy (Some (x / 100))); reflexivity.
Qed.

Lemma readBack_brightness (o : float) (e : effects) (x : float) :
  readBack o e brightness_id x =
  if neq x 50 && truthy (Some (fromSlider brightness_id x))
  then toSlider brightness_id (fromSlider brightness_id x)
  else 50.
Proof.
  unfold readBack, getUpdatedFilter, getCurrentEffect, toSlider, fromSlider.
  cbn [blur brightness saturation gamma r g b slider filters app].
  destruct (neq x 50); cbn [andb];
  destruct (0 <? blur e); destruct (neq (saturation e) 50);
  destruct (neq (r (gamma e)) 45 || neq (g (gamma e)) 45 || neq (b (gamma e)) 45);
  cbn [app find get_brightness]; try reflexivity;
  destruct (truthy (Some (x / 100 * 2 - 1))); reflexivity.
Qed.

Lemma readBack_saturation (o : float) (e : effects) (x : float) :
  readBack o e saturation_id x =
  if neq x 50 && truthy (Some (fromSlider saturation_id x))
  then toSlider saturation_id (fromSlider saturation_id x)
  else 50.
Proof.
  unfold readBack, getUpdatedFilter, getCurrentEffect, toSlider, fromSlider.
  cbn [blur brightness saturation gamma r g b slider filters app].
  destruct (neq x 50); cbn [andb];
  destruct (0 <? blur e); destruct (neq (brightness e) 50);
  destruct (neq (r (gamma e)) 45 || neq (g (gamma e)) 45 || neq (b (gamma e)) 45);
  cbn [app find get_saturation]; try reflexivity;
  destruct (truthy (Some (x / 100 * 2 - 1))); reflexivity.
Qed.

Lemma readBack_gamma_r (o : float) (e : effects) (x : float) :
  readBack o e gamma_r x =
  if neq x 45 || neq (g (gamma e)) 45 || neq (b (gamma e)) 45
  then toSlider gamma_r (fromSlider gamma_r x)
  else 45.
Proof.
  unfold readBack, getUpdatedFilter, getCurrentEffect, toSlider, fromSlider.
  cbn [blur brightness saturation gamma r g b slider filters app].
  destruct (neq x 45 || neq (g (gamma e)) 45 || neq (b (gamma e)) 45);
  destruct (0 <? blur e); destruct (neq (brightness e) 50); destruct (neq (saturation e) 50);
  reflexivity.
Qed.

Lemma readBack_gamma_g (o : float) (e : effects) (x : float) :
  readBack o e gamma_g x =
  if neq (r (gamma e)) 45 || neq x 45 || neq (b (gamma e)) 45
  then toSlider gamma_g (fromSlider gamma_g x)
  else 45.
Proof.
  unfold readBack, getUpdatedFilter, getCurrentEffect, toSlider, fromSlider.
  cbn [blur brightness saturation gamma r g b slider filters app].
  destruct (neq (r (gamma e)) 45 || neq x 45 || neq (b (gamma e)) 45);
  destruct (0 <? blur e); destruct (neq (brightness e) 50); destruct (neq (saturation e) 50);
  reflexivity.
Qed.

Lemma readBack_gamma_b (o : float) (e : effects) (x : float) :
  readBack o e gamma_b x =
  if neq (r (gamma e)) 45 || neq (g (gamma e)) 45 || neq x 45
  then toSlider gamma_b (fromSlider gamma_b x)
  else 45.
Proof.
  unfold readBack, getUpdatedFilter, getCurrentEffect, toSlider, fromSlider.
  cbn [blur brightness saturation gamma r g b slider filters app].
  destruct (neq (r (gamma e)) 45 || neq (g (gamma e)) 45 || neq x 45);
  destruct (0 <? blur e); destruct (neq (brightness e) 50); destruct (neq (saturation e) 50);
  reflexivity.
Qed.

(** *** The 101 positions, by evaluation *)

Lemma in_sliderRange (v : Z) : (0 <= v <= 100)%Z -> In v sliderRange.
Proof.
  intros Hv. unfold sliderRange. rewrite <- (Z2Nat.id v) by lia.
  apply in_map, in_seq. lia.
Qed.

Lemma props_table (effect : effect_id) : forallb (props effect) sliderRange = true.
Proof. destruct effect; vm_compute; reflexivity. Qed.

Lemma props_at (effect : effect_id) (v : Z) :
  (0 <= v <= 100)%Z -> props effect v = true.
Proof.
  intros Hv. pose proof (props_table effect) as T.
  rewrite forallb_forall in T. apply T, in_sliderRange, Hv.
Qed.

Lemma props_produced (effect : effect_id) (v : Z) :
  (0 <= v <= 100)%Z -> produced effect v = negb (v =? neutral effect)%Z.
Proof.
  intros Hv. pose proof (props_at effect v Hv) as P. unfold props in P.
  apply andb_prop in P as [P _]. apply andb_prop in P as [P _].
  now apply Bool.eqb_prop in P.
Qed.

Lemma gamma_neutral_via_filter (effect : effect_id) :
  isGamma effect = true ->
  toSlider effect (fromSlider effect (of_Z 45)) = of_Z 45.
Proof. destruct effect; try discriminate; intros _; vm_compute; reflexivity. Qed.

(** The position read back depends on the slider and its position only. *)
Lemma readBack_expected (o : float) (e : effects) (effect : effect_id) (v : Z) :
  (0 <= v <= 100)%Z -> readBack o e effect (of_Z v) = expected effect v.
Proof.
  intros Hv. pose proof (props_produced effect v Hv) as P.
  unfold expected. destruct effect; cbn [neutral] in *.
  - rewrite readBack_blur.
    change ((0 <? of_Z v) && truthy (Some (fromSlider blur_id (of_Z v))))
      with (produced blur_id v). rewrite P.
    destruct (v =? 0)%Z; reflexivity.
  - rewrite readBack_brightness.
    change (neq (of_Z v) 50 && truthy (Some (fromSlider brightness_id (of_Z v))))
      with (produced brightness_id v). rewrite P.
    destruct (v =? 50)%Z; reflexivity.
  - rewrite readBack_saturation.
    change (neq (of_Z v) 50 && truthy (Some (fromSlider saturation_id (of_Z v))))
      with (produced saturation_id v). rewrite P.
    destruct (v =? 50)%Z; reflexivity.
  - rewrite readBack_gamma_r. change (neq (of_Z v) 45) with (produced gamma_r v).
    rewrite P. destruct (Z.eqb_spec v 45) as [->|_]; cbn [negb orb]; [|reflexivity].
    destruct (_ || _); [now apply gamma_neutral_via_filter|reflexivity].
  - rewrite readBack_gamma_g. change (neq (of_Z v) 45) with (produced gamma_g v).
    rewrite P. destruct (Z.eqb_spec v 45) as [->|_]; cbn [negb orb].
    + destruct (_ || _); [now apply gamma_neutral_via_filter|reflexivity].
    + rewrite orb_true_r. reflexivity.
  - rewrite readBack_gamma_b. change (neq (of_Z v) 45) with (produced gamma_b v).
    rewrite P. destruct (Z.eqb_spec v 45) as [->|_]; cbn [negb orb].
    + destruct (_ || _); [now apply gamma_neutral_via_filter|reflexivity].
    + rewrite orb_true_r. reflexivity.
Qed.

Lemma mem_In (v : Z) (l : list Z) : mem v l = true <-> In v l.
Proof.
  unfold mem. rewrite existsb_exists. split.
  - intros [w [Hw E]]. apply Z.eqb_eq in E. now subst.
  - intros Hin. exists v. split; [exact Hin|apply Z.eqb_refl].
Qed.

(** At the neutral position no filter of the slider's kind is produced (for
    a gamma channel: when the other two channels are neutral as well). *)
Lemma neutral_has_no_entry (e : effects) (effect : effect_id) :
  othersNeutral e effect = true ->
  hasEntry effect (getUpdatedFilter e effect (of_Z (neutral effect))) = false.
Proof.
  intros Hn. unfold getUpdatedFilter.
  destruct effect; cbn [neutral blur brightness saturation gamma r g b othersNeutral] in *.
  - change (0 <? of_Z 0) with false. cbn [app].
    destruct (neq (brightness e) 50); destruct (neq (saturation e) 50);
    destruct (neq (r (gamma e)) 45 || neq (g (gamma e)) 45 || neq (b (gamma e)) 45);
    reflexivity.
  - change (neq (of_Z 50) 50) with false.
    destruct (0 <? blur e); destruct (neq (saturation e) 50);
    destruct (neq (r (gamma e)) 45 || neq (g (gamma e)) 45 || neq (b (gamma e)) 45);
    reflexivity.
  - change (neq (of_Z 50) 50) with false.
    destruct (0 <? blur e); destruct (neq (brightness e) 50);
    destruct (neq (r (gamma e)) 45 || neq (g (gamma e)) 45 || neq (b (gamma e)) 45);
    reflexivity.
  - apply andb_prop in Hn as [Hg Hb]. unfold neq. rewrite Hg, Hb.
    change (of_Z 45 =? 45) with true. cbn [negb orb].
    destruct (0 <? blur e); destruct (negb (brightness e =? 50));
    destruct (negb (saturation e =? 50)); reflexivity.
  - apply andb_prop in Hn as [Hr Hb]. unfold neq. rewrite Hr, Hb.
    change (of_Z 45 =? 45) with true. cbn [negb orb].
    destruct (0 <? blur e); destruct (negb (brightness e =? 50));
    destruct (negb (saturation e =? 50)); reflexivity.
  - apply andb_prop in Hn as [Hr Hg]. unfold neq. rewrite Hr, Hg.
    change (of_Z 45 =? 45) with true. cbn [negb orb].
    destruct (0 <? blur e); destruct (negb (brightness e =? 50));
    destruct (negb (saturation e =? 50)); reflexivity.
Qed.

(** C1, as the code has it.  Set a slider to an integer position [v] in
    0..100, on a selection in any effect state, and read the position back.
    - At the neutral position (blur 0, brightness 50, saturation 50, gamma
      45) the read returns the neutral position, and no filter of that kind
      is in the list (for a gamma channel: when the other two channels are
      neutral too).
    - For blur, brightness and saturation the read returns [v] up to a
      binary64 rounding residue: it differs from [v] by less than 2^-46,
      [Math.round] of it is [v], and it is [v] itself except at the
      positions listed in [inexact].
    - For a gamma channel the read returns [v] itself at the 23 positions
      of [gamma_exact] and at no other; at every position it returns one of
      these 23, and one that is never more than 2 away from [v]. *)
Theorem effect_round_trip (o : float) (e : effects) (effect : effect_id) (v : Z) :
  (0 <= v <= 100)%Z ->
  let back := readBack o e effect (of_Z v) in
  (v = neutral effect ->
     (back =? of_Z v) = true /\
     (othersNeutral e effect = true ->
      hasEntry effect (getUpdatedFilter e effect (of_Z v)) = false)) /\
  (isGamma effect = false ->
     near back v = true /\
     (Math_round back =? of_Z v) = true /\
     ((back =? of_Z v) = true <-> ~ In v (inexact effect))) /\
  (isGamma effect = true ->
     ((back =? of_Z v) = true <-> In v gamma_exact) /\
     (exists w, In w gamma_exact /\ (back =? of_Z w) = true) /\
     (abs (back - of_Z v) <=? 2) = true).
Proof.
  intros Hv back. subst back. rewrite (readBack_expected o e effect v Hv).
  pose proof (props_at effect v Hv) as P. unfold props in P.
  apply andb_prop in P as [P P3]. apply andb_prop in P as [_ P2].
  split; [|split].
  - intros ->. rewrite Z.eqb_refl in P2. split; [exact P2|].
    apply neutral_has_no_entry.
  - intros G. rewrite G in P3.
    apply andb_prop in P3 as [P3 Pe]. apply andb_prop in P3 as [Pn Pr].
    split; [exact Pn|]. split; [exact Pr|].
    apply Bool.eqb_prop in Pe. rewrite Pe, negb_true_iff.
    rewrite <- mem_In. destruct (mem v (inexact effect)); split; congruence.
  - intros G. rewrite G in P3. apply andb_prop in P3 as [P3 Pd].
    apply andb_prop in P3 as [Pe Px].
    split; [|split; [|exact Pd]].
    + apply Bool.eqb_prop in Pe. rewrite Pe. apply mem_In.
    + apply existsb_exists in Px as (w & Hw & Ew). now exists w.
Qed.

(** Brightness 30 on an image without filters reads back as 30. *)
Lemma effect_round_trip_witness :
  (0 <= 30 <= 100)%Z /\
  isGamma brightness_id = false /\
  near (readBack 1 pristine brightness_id (of_Z 30)) 30 = true /\
  (Math_round (readBack 1 pristine brightness_id (of_Z 30)) =? of_Z 30) = true.
Proof.
  assert (Hv : (0 <= 30 <= 100)%Z) by lia.
  split; [exact Hv|]. split; [reflexivity|].
  destruct (effect_round_trip 1 pristine brightness_id 30 Hv) as [_ [B _]].
  destruct (B eq_refl) as [N [R _]].
  split; [exact N|exact R].
Defined.

(** Gamma red set to 46, which is not the neutral position, reads back as
    45; blur set to 7 reads back with a residue. *)
Lemma gamma_46_reads_45 :
  (of_Z 46 =? of_Z (neutral gamma_r)) = false /\
  hasEntry gamma_r (getUpdatedFilter pristine gamma_r (of_Z 46)) = true /\
  (readBack 1 pristine gamma_r (of_Z 46) =? of_Z 46) = false /\
  (readBack 1 pristine gamma_r (of_Z 46) =? of_Z 45) = true /\
  (readBack 1 pristine blur_id (of_Z 7) =? of_Z 7) = false.
Proof. vm_compute. repeat split. Qed.

End EffectsFacts.

(** ** Zoom: keys, wheel and menu together *)

Module ZoomMore.
Import Zoom ZoomFacts.
Local Open Scope Q_scope.

Lemma parseInt_Qeq (x y : Q) : 0 <= x -> x == y -> parseInt x = parseInt y.
Proof.
  intros Hx E. rewrite !parseInt_floor by (try rewrite <- E; exact Hx).
  now rewrite E.
Qed.

Lemma zoom_ctrlPlus (c : canvas) :
  zoom (zoomWithKeys ctrlPlus c) =
  if Qeq_bool (zoom c) maxZoom then zoom c
  else if Qgt_bool (inject_Z (jump_up (zoom c)) / 100) maxZoom then maxZoom
       else inject_Z (jump_up (zoom c)) / 100.
Proof.
  unfold zoomWithKeys, zoomOutBlock, zoomInBlock, getZoom.
  change (key_of ctrlPlus =? 189)%Z with false. cbn [andb andThen].
  change (key_of ctrlPlus =? 187)%Z with true. change (ctrlKey ctrlPlus) with true.
  cbn [andb].
  destruct (Qeq_bool (zoom c) maxZoom); [reflexivity|].
  cbn [andThen]. unfold zoomResetBlock.
  change (key_of ctrlPlus =? 96)%Z with false.
  change (key_of ctrlPlus =? 48)%Z with false.
  change (key_of ctrlPlus =? 192)%Z with false.
  cbn [andb orb andThen finish].
  rewrite zoom_applyZoom.
  destruct (Qgt_bool _ maxZoom); reflexivity.
Qed.

Lemma rem_mod_25 (p : Z) : Z.rem p 25 = 0%Z <-> (p mod 25 = 0)%Z.
Proof.
  rewrite Z.rem_divide, Z.mod_divide by lia. reflexivity.
Qed.

Lemma percent_upper (z : Q) : 0 <= z -> z <= maxZoom -> (parseInt (z * 100) <= 300)%Z.
Proof.
  intros Hz Hhi. pose proof (percent_bounds z Hz) as [Pl _].
  unfold maxZoom in Hhi. apply Z.lt_succ_r. rewrite Zlt_Qlt.
  apply Qle_lt_trans with (z * 100); [exact Pl|].
  apply Qle_lt_trans with 300; [Lqa.lra|]. reflexivity.
Qed.

Lemma off_grid_below_max (z : Q) :
  0 <= z -> z <= maxZoom -> (parseInt (z * 100) mod 25 <> 0)%Z ->
  Qeq_bool z maxZoom = false /\ (parseInt (z * 100) < 300)%Z.
Proof.
  intros Hz Hhi Hmod. pose proof (percent_upper z Hz Hhi) as Hp.
  split.
  - destruct (Qeq_bool z maxZoom) eqn:E; [|reflexivity]. exfalso.
    apply Qeq_bool_iff in E. apply Hmod.
    rewrite (parseInt_Qeq (z * 100) (maxZoom * 100)); [reflexivity|Lqa.lra|now rewrite E].
  - destruct (Z.eq_dec (parseInt (z * 100)) 300) as [E|E]; [|lia].
    exfalso. apply Hmod. now rewrite E.
Qed.

(** From a zoom level within the bounds whose whole percent is not a multiple
    of 25, ctr + leads to the next multiple of 25 above it: less than 25
    points further, strictly larger, and never above the maximum. *)
Theorem zoom_in_from_off_grid (c : canvas) :
  minZoom <= zoom c <= maxZoom ->
  Z.rem (wholePercent (zoom c)) 25 <> 0%Z ->
  let c' := zoomWithKeys ctrlPlus c in
  Z.rem (wholePercent (zoom c')) 25 = 0%Z /\
  (wholePercent (zoom c) < wholePercent (zoom c') < wholePercent (zoom c) + 25)%Z /\
  zoom c < zoom c' /\ zoom c' <= maxZoom.
Proof.
  intros [Hlo Hhi] Hrem c'. subst c'. rewrite zoom_ctrlPlus.
  set (z := zoom c) in *. unfold wholePercent in *.
  assert (Hz : 0 <= z) by (unfold minZoom in Hlo; Lqa.lra).
  assert (Hmod : (parseInt (z * 100) mod 25 <> 0)%Z) by (now rewrite <- rem_mod_25).
  destruct (off_grid_below_max z Hz Hhi Hmod) as [Emax Hp]. rewrite Emax.
  pose proof (percent_bounds z Hz) as [Pl Pu].
  pose proof (jump_up_spec z) as [Jm [Jl Ju]]. cbv zeta in Jm, Jl, Ju.
  pose proof (Z.mod_pos_bound (parseInt (z * 100)) 25 ltac:(lia)) as B.
  assert (J300 : (jump_up z <= 300)%Z).
  { pose proof (Z.div_mod (jump_up z) 25 ltac:(lia)).
    pose proof (Z.div_mod (parseInt (z * 100)) 25 ltac:(lia)). lia. }
  assert (Jlt : (jump_up z < parseInt (z * 100) + 25)%Z).
  { pose proof (Z.div_mod (jump_up z) 25 ltac:(lia)).
    pose proof (Z.div_mod (parseInt (z * 100)) 25 ltac:(lia)). lia. }
  assert (Ecap : Qgt_bool (inject_Z (jump_up z) / 100) maxZoom = false).
  { unfold Qgt_bool. apply negb_false_iff, Qle_bool_iff, percent_le.
    unfold maxZoom. setoid_replace (3 * 100) with (inject_Z 300) by reflexivity.
    now rewrite <- Zle_Qle. }
  rewrite Ecap. rewrite parseInt_percent.
  split; [now apply rem_mod_25|]. split; [lia|]. split.
  - apply Qlt_le_trans with (inject_Z (parseInt (z * 100) + 1) / 100).
    + unfold Qdiv. change (/ 100) with (1 # 100). Lqa.lra.
    + apply percent_le. setoid_replace (inject_Z (jump_up z) / 100 * 100) with (inject_Z (jump_up z)) by field.
      rewrite <- Zle_Qle. lia.
  - unfold Qgt_bool in Ecap. now apply negb_false_iff, Qle_bool_iff in Ecap.
Qed.

Lemma zoom_in_from_off_grid_witness :
  (minZoom <= zoom (blank (37 # 100)) <= maxZoom) /\
  Z.rem (wholePercent (zoom (blank (37 # 100)))) 25 <> 0%Z /\
  Z.rem (wholePercent (zoom (zoomWithKeys ctrlPlus (blank (37 # 100))))) 25 = 0%Z /\
  zoom (blank (37 # 100)) < zoom (zoomWithKeys ctrlPlus (blank (37 # 100))).
Proof.
  assert (Hb : minZoom <= zoom (blank (37 # 100)) <= maxZoom)
    by (split; vm_compute; discriminate).
  assert (Hr : Z.rem (wholePercent (zoom (blank (37 # 100)))) 25 <> 0%Z)
    by (vm_compute; discriminate).
  split; [exact Hb|]. split; [exact Hr|].
  destruct (zoom_in_from_off_grid (blank (37 # 100)) Hb Hr) as (A & _ & C & _).
  split; [exact A|exact C].
Defined.

Lemma percent_lower (z : Q) : minZoom <= z -> (5 <= parseInt (z * 100))%Z.
Proof.
  intros Hlo. unfold minZoom in Hlo.
  rewrite parseInt_floor by Lqa.lra.
  assert (K : (Qfloor 5 <= Qfloor (z * 100))%Z) by (apply Qfloor_resp_le; Lqa.lra).
  exact K.
Qed.

(** On the grid, the keys step by exactly 25. *)
Theorem zoom_steps_on_grid (c : canvas) :
  minZoom <= zoom c <= maxZoom ->
  Z.rem (wholePercent (zoom c)) 25 = 0%Z ->
  ((50 <= wholePercent (zoom c))%Z ->
     wholePercent (zoom (zoomWithKeys ctrlMinus c)) = (wholePercent (zoom c) - 25)%Z) /\
  ((wholePercent (zoom c) < 50)%Z -> zoom (zoomWithKeys ctrlMinus c) == minZoom) /\
  (zoom c < maxZoom ->
     wholePercent (zoom (zoomWithKeys ctrlPlus c)) = (wholePercent (zoom c) + 25)%Z).
Proof.
  intros [Hlo Hhi] Hrem. rewrite zoom_ctrlMinus, zoom_ctrlPlus.
  set (z := zoom c) in *. unfold wholePercent in *.
  assert (Hz : 0 <= z) by (unfold minZoom in Hlo; Lqa.lra).
  pose proof (percent_lower z Hlo) as P5.
  pose proof (percent_upper z Hz Hhi) as P300.
  pose proof (percent_bounds z Hz) as [Pl Pu].
  apply rem_mod_25 in Hrem.
  assert (P25 : (25 <= parseInt (z * 100))%Z).
  { pose proof (Z.div_mod (parseInt (z * 100)) 25 ltac:(lia)). lia. }
  assert (Jd : jump_down z = (parseInt (z * 100) - 25)%Z).
  { unfold jump_down. rewrite rem25_eqb, Hrem. reflexivity. }
  assert (Ju : jump_up z = (parseInt (z * 100) + 25)%Z).
  { unfold jump_up. rewrite rem25_eqb, Hrem. reflexivity. }
  assert (Emin : Qeq_bool z minZoom = false).
  { destruct (Qeq_bool z minZoom) eqn:E; [|reflexivity]. exfalso.
    apply Qeq_bool_iff in E.
    assert (inject_Z 25 <= z * 100) as K.
    { apply Qle_trans with (inject_Z (parseInt (z * 100))); [|exact Pl].
      now rewrite <- Zle_Qle. }
    rewrite E in K. vm_compute in K. apply K. reflexivity. }
  unfold zoomOutValue. rewrite Emin, Jd, Ju.
  split; [|split].
  - intros H50.
    assert (E0 : Qle_bool (inject_Z (parseInt (z * 100) - 25) / 100) 0 = false).
    { apply not_true_iff_false. intros K. apply Qle_bool_iff, percent_le in K.
      setoid_replace (0 * 100) with (inject_Z 0) in K by reflexivity.
      rewrite <- Zle_Qle in K. lia. }
    rewrite E0. apply parseInt_percent.
  - intros H50.
    assert (E25 : parseInt (z * 100) = 25%Z).
    { pose proof (Z.div_mod (parseInt (z * 100)) 25 ltac:(lia)). lia. }
    rewrite E25. reflexivity.
  - intros Hlt.
    assert (Emax : Qeq_bool z maxZoom = false).
    { apply not_true_iff_false. intros K. apply Qeq_bool_iff in K. Lqa.lra. }
    rewrite Emax.
    assert (P275 : (parseInt (z * 100) <= 275)%Z).
    { assert (parseInt (z * 100) < 300)%Z.
      { rewrite Zlt_Qlt. apply Qle_lt_trans with (z * 100); [exact Pl|].
        unfold maxZoom in Hlt. setoid_replace (inject_Z 300) with (3 * 100) by reflexivity.
        Lqa.lra. }
      pose proof (Z.div_mod (parseInt (z * 100)) 25 ltac:(lia)). lia. }
    assert (Ecap : Qgt_bool (inject_Z (parseInt (z * 100) + 25) / 100) maxZoom = false).
    { unfold Qgt_bool. apply negb_false_iff, Qle_bool_iff, percent_le.
      unfold maxZoom. setoid_replace (3 * 100) with (inject_Z 300) by reflexivity.
      rewrite <- Zle_Qle. lia. }
    rewrite Ecap. apply parseInt_percent.
Qed.

Lemma zoom_steps_on_grid_witness :
  (minZoom <= zoom (blank 1) <= maxZoom) /\
  Z.rem (wholePercent (zoom (blank 1))) 25 = 0%Z /\
  wholePercent (zoom (zoomWithKeys ctrlMinus (blank 1))) = 75%Z /\
  wholePercent (zoom (zoomWithKeys ctrlPlus (blank 1))) = 125%Z.
Proof.
  assert (Hb : minZoom <= zoom (blank 1) <= maxZoom)
    by (split; vm_compute; discriminate).
  assert (Hr : Z.rem (wholePercent (zoom (blank 1))) 25 = 0%Z) by reflexivity.
  split; [exact Hb|]. split; [exact Hr|].
  destruct (zoom_steps_on_grid (blank 1) Hb Hr) as (A & _ & C).
  split.
  - apply A. vm_compute; discriminate.
  - apply C. vm_compute; reflexivity.
Defined.

(** ctr - never zooms in, ctr + never zooms out. *)
Theorem zoom_keys_monotone (c : canvas) :
  minZoom <= zoom c <= maxZoom ->
  zoom (zoomWithKeys ctrlMinus c) <= zoom c /\
  zoom c <= zoom (zoomWithKeys ctrlPlus c).
Proof.
  intros [Hlo Hhi]. rewrite zoom_ctrlMinus, zoom_ctrlPlus.
  set (z := zoom c) in *.
  assert (Hz : 0 <= z) by (unfold minZoom in Hlo; Lqa.lra).
  pose proof (percent_bounds z Hz) as [Pl Pu].
  pose proof (jump_down_spec z) as [_ [_ Jd]].
  pose proof (jump_up_spec z) as [_ [Ju _]]. cbv zeta in Jd, Ju.
  split.
  - unfold zoomOutValue.
    destruct (Qeq_bool z minZoom); [Lqa.lra|].
    destruct (Qle_bool (inject_Z (jump_down z) / 100) 0); [exact Hlo|].
    apply percent_le. apply Qle_trans with (inject_Z (parseInt (z * 100))); [|exact Pl].
    rewrite <- Zle_Qle. lia.
  - destruct (Qeq_bool z maxZoom); [Lqa.lra|].
    destruct (Qgt_bool (inject_Z (jump_up z) / 100) maxZoom); [exact Hhi|].
    apply percent_ge. apply Qle_trans with (inject_Z (parseInt (z * 100) + 1)); [Lqa.lra|].
    rewrite <- Zle_Qle. lia.
Qed.

Lemma zoom_keys_monotone_witness :
  (minZoom <= zoom (blank (37 # 100)) <= maxZoom) /\
  zoom (zoomWithKeys ctrlMinus (blank (37 # 100))) <= zoom (blank (37 # 100)) /\
  zoom (blank (37 # 100)) <= zoom (zoomWithKeys ctrlPlus (blank (37 # 100))).
Proof.
  assert (Hb : minZoom <= zoom (blank (37 # 100)) <= maxZoom)
    by (split; vm_compute; discriminate).
  split; [exact Hb|].
  exact (zoom_keys_monotone (blank (37 # 100)) Hb).
Defined.

(** The zoom level a key leaves depends on the zoom level only up to [==]. *)
Lemma zoomOutValue_on_grid (z : Q) (p : Z) :
  z == inject_Z p / 100 -> (p mod 25 = 0)%Z -> (25 <= p <= 300)%Z ->
  zoomOutValue z == (if (p =? 25)%Z then minZoom else inject_Z (p - 25) / 100).
Proof.
  intros Ez Hmod Hp.
  assert (Hz : 0 <= z).
  { rewrite Ez. apply percent_ge. setoid_replace (0 * 100) with (inject_Z 0) by reflexivity.
    rewrite <- Zle_Qle. lia. }
  assert (Ep : parseInt (z * 100) = p).
  { rewrite (parseInt_Qeq (z * 100) (inject_Z p / 100 * 100)); [apply parseInt_percent|Lqa.lra|now rewrite Ez]. }
  assert (Jd : jump_down z = (p - 25)%Z).
  { unfold jump_down. rewrite Ep, rem25_eqb, Hmod. reflexivity. }
  unfold zoomOutValue. rewrite Jd.
  assert (Emin : Qeq_bool z minZoom = false).
  { apply not_true_iff_false. intros K. apply Qeq_bool_iff in K. rewrite K in Ez.
    unfold minZoom in Ez.
    assert (inject_Z p / 100 <= 5 # 100) as E2 by (rewrite <- Ez; apply Qle_refl).
    apply percent_le in E2.
    setoid_replace ((5 # 100) * 100) with (inject_Z 5) in E2 by reflexivity.
    rewrite <- Zle_Qle in E2. lia. }
  rewrite Emin.
  destruct (Z.eqb_spec p 25) as [->|Hne].
  - reflexivity.
  - assert (E0 : Qle_bool (inject_Z (p - 25) / 100) 0 = false).
    { apply not_true_iff_false. intros K. apply Qle_bool_iff, percent_le in K.
      setoid_replace (0 * 100) with (inject_Z 0) in K by reflexivity.
      rewrite <- Zle_Qle in K.
      pose proof (Z.div_mod p 25 ltac:(lia)). lia. }
    rewrite E0. reflexivity.
Qed.

Lemma zoomInValue_at (z : Q) (p : Z) :
  z == inject_Z p / 100 -> (0 <= p <= 275)%Z ->
  zoomInValue z == inject_Z (p + 25 - p mod 25) / 100.
Proof.
  intros Ez Hp.
  assert (Hz : 0 <= z).
  { rewrite Ez. apply percent_ge. setoid_replace (0 * 100) with (inject_Z 0) by reflexivity.
    rewrite <- Zle_Qle. lia. }
  assert (Ep : parseInt (z * 100) = p).
  { rewrite (parseInt_Qeq (z * 100) (inject_Z p / 100 * 100)); [apply parseInt_percent|Lqa.lra|now rewrite Ez]. }
  pose proof (jump_up_spec z) as [Jm [Jl Ju]]. cbv zeta in Jm, Jl, Ju. rewrite Ep in Jl, Ju.
  pose proof (Z.mod_pos_bound p 25 ltac:(lia)) as B.
  assert (Jv : jump_up z = (p + 25 - p mod 25)%Z).
  { pose proof (Z.div_mod (jump_up z) 25 ltac:(lia)).
    pose proof (Z.div_mod p 25 ltac:(lia)). lia. }
  unfold zoomInValue. rewrite Jv.
  assert (Emax : Qeq_bool z maxZoom = false).
  { apply not_true_iff_false. intros K. apply Qeq_bool_iff in K. rewrite K in Ez.
    unfold maxZoom in Ez.
    assert (3 <= inject_Z p / 100) as E2 by (rewrite <- Ez; apply Qle_refl).
    apply percent_ge in E2.
    setoid_replace (3 * 100) with (inject_Z 300) in E2 by reflexivity.
    rewrite <- Zle_Qle in E2. lia. }
  rewrite Emax.
  assert (Ecap : Qgt_bool (inject_Z (p + 25 - p mod 25) / 100) maxZoom = false).
  { unfold Qgt_bool. apply negb_false_iff, Qle_bool_iff, percent_le.
    unfold maxZoom. setoid_replace (3 * 100) with (inject_Z 300) by reflexivity.
    rewrite <- Zle_Qle. lia. }
  rewrite Ecap. reflexivity.
Qed.

(** From a level on the grid, ctr - and then ctr + come back to it; so do
    ctr + and then ctr -, below the maximum. *)
Theorem zoom_out_in_round_trip (c : canvas) (p : Z) :
  zoom c == inject_Z p / 100 -> (p mod 25 = 0)%Z -> (25 <= p <= 300)%Z ->
  zoom (zoomWithKeys ctrlPlus (zoomWithKeys ctrlMinus c)) == zoom c /\
  ((p <= 275)%Z -> zoom (zoomWithKeys ctrlMinus (zoomWithKeys ctrlPlus c)) == zoom c).
Proof.
  intros Ez Hmod Hp. split.
  - rewrite zoom_ctrlPlus, zoom_ctrlMinus. fold (zoomInValue (zoomOutValue (zoom c))).
    pose proof (zoomOutValue_on_grid (zoom c) p Ez Hmod Hp) as E1.
    destruct (Z.eqb_spec p 25) as [->|Hne].
    + rewrite (zoomInValue_at (zoomOutValue (zoom c)) 5); [|rewrite E1; reflexivity|lia].
      rewrite Ez. reflexivity.
    + assert (50 <= p)%Z by (pose proof (Z.div_mod p 25 ltac:(lia)); lia).
      rewrite (zoomInValue_at (zoomOutValue (zoom c)) (p - 25) E1) by lia.
      rewrite Ez.
      replace ((p - 25 + 25 - (p - 25) mod 25))%Z with p; [reflexivity|].
      replace (p - 25)%Z with (p + (-1) * 25)%Z at 2 by lia.
      rewrite Z.mod_add by lia. lia.
  - intros H275. rewrite zoom_ctrlMinus, zoom_ctrlPlus. fold (zoomInValue (zoom c)).
    assert (E1 : zoomInValue (zoom c) == inject_Z (p + 25) / 100).
    { rewrite (zoomInValue_at (zoom c) p Ez) by lia. rewrite Hmod.
      now replace (p + 25 - 0)%Z with (p + 25)%Z by lia. }
    rewrite (zoomOutValue_on_grid (zoomInValue (zoom c)) (p + 25) E1); [| |lia].
    + destruct (Z.eqb_spec (p + 25) 25); [lia|].
      rewrite Ez. now replace (p + 25 - 25)%Z with p by lia.
    + replace (p + 25)%Z with (p + 1 * 25)%Z by lia. now rewrite Z.mod_add by lia.
Qed.

Lemma zoom_out_in_round_trip_witness :
  zoom (blank (3 # 2)) == inject_Z 150 / 100 /\
  (150 mod 25 = 0)%Z /\ (25 <= 150 <= 300)%Z /\
  zoom (zoomWithKeys ctrlPlus (zoomWithKeys ctrlMinus (blank (3 # 2)))) == zoom (blank (3 # 2)) /\
  zoom (zoomWithKeys ctrlMinus (zoomWithKeys ctrlPlus (blank (3 # 2)))) == zoom (blank (3 # 2)).
Proof.
  assert (E : zoom (blank (3 # 2)) == inject_Z 150 / 100) by reflexivity.
  assert (Hm : (150 mod 25 = 0)%Z) by reflexivity.
  assert (Hp : (25 <= 150 <= 300)%Z) by lia.
  split; [exact E|]. split; [exact Hm|]. split; [exact Hp|].
  destruct (zoom_out_in_round_trip (blank (3 # 2)) 150 E Hm Hp) as [A B].
  split; [exact A|]. apply B. lia.
Defined.

Lemma keepsRest_refl (c : canvas) : keepsRest c c.
Proof. unfold keepsRest. tauto. Qed.

Lemma keepsRest_trans (a b c : canvas) : keepsRest a b -> keepsRest b c -> keepsRest a c.
Proof.
  intros (A1 & A2 & A3 & A4 & A5) (B1 & B2 & B3 & B4 & B5).
  unfold keepsRest. split; [congruence|]. split; [congruence|].
  split; [congruence|]. split; [congruence|]. auto.
Qed.

Lemma keepsRest_applyZoom (z : Q) (c : canvas) : keepsRest c (applyZoom z c).
Proof.
  unfold keepsRest, sized. cbn. repeat split; reflexivity.
Qed.

Lemma zoomWithKeys_keepsRest (e : key_event) (c : canvas) : keepsRest c (zoomWithKeys e c).
Proof.
  unfold zoomWithKeys.
  assert (K1 : keepsRest c (finish (zoomOutBlock e c))).
  { unfold zoomOutBlock. destruct (_ && _); [|apply keepsRest_refl].
    destruct (Qeq_bool _ _); [apply keepsRest_refl|apply keepsRest_applyZoom]. }
  destruct (zoomOutBlock e c) as [c1|c1]; cbn [andThen finish] in *; [|exact K1].
  assert (K2 : keepsRest c1 (finish (zoomInBlock e c1))).
  { unfold zoomInBlock. destruct (_ && _); [|apply keepsRest_refl].
    destruct (Qeq_bool _ _); [apply keepsRest_refl|apply keepsRest_applyZoom]. }
  destruct (zoomInBlock e c1) as [c2|c2]; cbn [andThen finish] in *;
    [|exact (keepsRest_trans _ _ _ K1 K2)].
  apply (keepsRest_trans _ _ _ K1). apply (keepsRest_trans _ _ _ K2).
  unfold zoomResetBlock. destruct (_ && _); cbn [finish];
    [apply keepsRest_applyZoom|apply keepsRest_refl].
Qed.

Lemma zoomWithMouse_keepsRest (e : wheel_event) (c : canvas) :
  keepsRest c (zoomWithMouse e c).
Proof.
  unfold zoomWithMouse. destruct (negb _); [apply keepsRest_refl|].
  destruct (_ || _); [apply keepsRest_refl|apply keepsRest_applyZoom].
Qed.

Lemma selectZoom_keepsRest (k : nat) (c : canvas) : keepsRest c (selectZoom k c).
Proof.
  unfold selectZoom. destruct (nth_error _ _); [apply keepsRest_applyZoom|apply keepsRest_refl].
Qed.

Lemma zoomWithMouse_bounds (e : wheel_event) (c : canvas) :
  zoomInBounds c -> zoomInBounds (zoomWithMouse e c).
Proof.
  intros Hc. unfold zoomWithMouse. destruct (negb _); [exact Hc|].
  set (u := (toFixed2 (getZoom c) * 100 + _) / 100).
  destruct (Qgt_bool minZoom u) eqn:E1; cbn [orb]; [exact Hc|].
  destruct (Qgt_bool u maxZoom) eqn:E2; [exact Hc|].
  unfold zoomInBounds. rewrite zoom_applyZoom. unfold Qgt_bool in *.
  apply negb_false_iff, Qle_bool_iff in E1. apply negb_false_iff, Qle_bool_iff in E2.
  split; assumption.
Qed.

Lemma zoomLevels_bounds (z : Q) : In z zoomLevels -> minZoom <= z <= maxZoom.
Proof.
  unfold zoomLevels. cbn [In]. intros Hin.
  repeat (destruct Hin as [<-|Hin]; [split; vm_compute; discriminate|]).
  contradiction.
Qed.

Lemma selectZoom_bounds (k : nat) (c : canvas) :
  zoomInBounds c -> zoomInBounds (selectZoom k c).
Proof.
  intros Hc. unfold selectZoom. destruct (nth_error zoomLevels k) as [z|] eqn:E; [|exact Hc].
  unfold zoomInBounds. rewrite zoom_applyZoom. apply zoomLevels_bounds.
  now apply nth_error_In with k.
Qed.

(** Keys, wheel and menu, in any order, keep the zoom level within its
    bounds and the canvas at the size of its zoom level; they never touch
    the original size, the objects or the selection. *)
Theorem zoom_events_keep_bounds_and_size (evs : list zoom_event) (c : canvas) :
  minZoom <= zoom c <= maxZoom ->
  sized c ->
  minZoom <= zoom (zoomRun evs c) <= maxZoom /\
  sized (zoomRun evs c) /\
  originalW (zoomRun evs c) = originalW c /\
  originalH (zoomRun evs c) = originalH c /\
  objects (zoomRun evs c) = objects c /\
  activeObject (zoomRun evs c) = activeObject c.
Proof.
  revert c. induction evs as [|ev evs IH]; intros c Hb Hs; cbn [zoomRun fold_left].
  - repeat split; try reflexivity; try apply Hb; apply Hs.
  - assert (Hb' : zoomInBounds (zoomStep c ev)).
    { destruct ev; cbn [zoomStep];
        [apply zoomWithKeys_bounds|apply zoomWithMouse_bounds|apply selectZoom_bounds];
        exact Hb. }
    assert (Hk : keepsRest c (zoomStep c ev)).
    { destruct ev; cbn [zoomStep];
        [apply zoomWithKeys_keepsRest|apply zoomWithMouse_keepsRest|apply selectZoom_keepsRest]. }
    destruct Hk as (K1 & K2 & K3 & K4 & K5).
    destruct (IH (zoomStep c ev) Hb' (K5 Hs)) as (I1 & I2 & I3 & I4 & I5 & I6).
    fold (zoomRun evs (zoomStep c ev)).
    repeat split; try apply I1; try apply I2; congruence.
Qed.

Lemma zoom_events_keep_bounds_and_size_witness :
  let evs := [Wheel wheelUp; Keydown ctrlMinus; MenuChoice 9; Wheel wheelDown;
              Keydown ctrlZero; MenuChoice 0; Keydown ctrlPlus] in
  (minZoom <= zoom (blank (37 # 100)) <= maxZoom) /\
  sized (blank (37 # 100)) /\
  (minZoom <= zoom (zoomRun evs (blank (37 # 100))) <= maxZoom) /\
  sized (zoomRun evs (blank (37 # 100))).
Proof.
  intros evs.
  assert (Hb : minZoom <= zoom (blank (37 # 100)) <= maxZoom)
    by (split; vm_compute; discriminate).
  assert (Hs : sized (blank (37 # 100))) by (split; reflexivity).
  split; [exact Hb|]. split; [exact Hs|].
  destruct (zoom_events_keep_bounds_and_size evs (blank (37 # 100)) Hb Hs) as (A & B & _).
  split; [exact A|exact B].
Defined.

(** ctr 0 after anything: zoom 1 and the original size. *)
Theorem zoom_reset_restores_size (e : key_event) (c : canvas) :
  (key_of e = 48 \/ key_of e = 96 \/ key_of e = 192)%Z ->
  ctrlKey e = true ->
  zoom (zoomWithKeys e c) = 1 /\
  width (zoomWithKeys e c) == originalW c /\
  height (zoomWithKeys e c) == originalH c /\
  objects (zoomWithKeys e c) = objects c.
Proof.
  intros Hk Hc. unfold zoomWithKeys, zoomOutBlock, zoomInBlock, zoomResetBlock.
  rewrite Hc.
  assert (E1 : (key_of e =? 189)%Z = false) by (apply Z.eqb_neq; lia).
  assert (E2 : (key_of e =? 187)%Z = false) by (apply Z.eqb_neq; lia).
  assert (E3 : ((key_of e =? 96) || (key_of e =? 48) || (key_of e =? 192))%Z = true).
  { destruct Hk as [->|[->| ->]]; reflexivity. }
  rewrite E1. cbn [andb andThen]. rewrite E2. cbn [andb andThen]. rewrite E3.
  cbn [andb andThen finish]. cbn. repeat split; try reflexivity.
  - unfold Qeq; cbn. lia.
  - unfold Qeq; cbn. lia.
Qed.

Lemma zoom_reset_restores_size_witness :
  (key_of ctrlZero = 48 \/ key_of ctrlZero = 96 \/ key_of ctrlZero = 192)%Z /\
  ctrlKey ctrlZero = true /\
  zoom (zoomWithKeys ctrlZero (blank (37 # 100))) = 1 /\
  width (zoomWithKeys ctrlZero (blank (37 # 100))) == 800.
Proof.
  assert (Hk : (key_of ctrlZero = 48 \/ key_of ctrlZero = 96 \/ key_of ctrlZero = 192)%Z)
    by (left; reflexivity).
  split; [exact Hk|]. split; [reflexivity|].
  destruct (zoom_reset_restores_size ctrlZero (blank (37 # 100)) Hk eq_refl) as (A & B & _).
  split; [exact A|exact B].
Defined.

End ZoomMore.

(** ** Editor shell: what the keys do *)

Module EditorMore.
Import Editor EditorFacts.

Section Collaborators.
Variable H : Type.
Context `{UndoRedoStack H} `{Serializer}.

Lemma nudge_objects (key : Z) (i : nat) (objs : list fobject) :
  isArrow key = true ->
  Forall2 (fun o o' => if Nat.eqb (oid o) i then nudged key o o' else o' = o)
    objs
    (map (fun o => if Nat.eqb (oid o) i then
        (if (key =? 37)%Z then setLeft (left o - 1) o
          else if (key =? 39)%Z then setLeft (left o + 1) o
          else if (key =? 38)%Z then setTop (top o - 1) o
          else if (key =? 40)%Z then setTop (top o + 1) o
          else o) else o) objs).
Proof.
  intros Ha. induction objs as [|o objs IH]; cbn [map]; constructor; [|exact IH].
  destruct (Nat.eqb (oid o) i); [|reflexivity].
  unfold nudged, dx, dy, isArrow in *.
  destruct (key =? 37)%Z; [cbn; repeat split; Lqa.lra|].
  destruct (key =? 39)%Z; [cbn; repeat split; Lqa.lra|].
  destruct (key =? 38)%Z; [cbn; repeat split; Lqa.lra|].
  destruct (key =? 40)%Z; [cbn; repeat split; Lqa.lra|]. discriminate.
Qed.

(** What the arrow-key listener does with a selection. *)
Lemma arrowKeys_selected (e : key_event) (ed : editor H) (i : nat) :
  isArrow (key_of e) = true ->
  activeObject (ed_canvas ed) = Some i ->
  exists c',
    arrowKeys e 0 ed =
      (Normal tt,
       EditorState c' (push (JSON_stringify (toJSON c')) (ed_history ed))
                   (console ed ++ ["trigger: modified"%string])) /\
    Forall2 (fun o o' => if Nat.eqb (oid o) i then nudged (key_of e) o o' else o' = o)
            (objects (ed_canvas ed)) (objects c') /\
    zoom c' = zoom (ed_canvas ed) /\ activeObject c' = Some i.
Proof.
  intros Ha Hact. eexists. split; [|split; [|split]].
  - unfold arrowKeys. cbn [Nat.ltb Nat.leb]. rewrite Ha.
    cbv [bind gets setCanvas modify objectModified console_log setHistory].
    cbn [ed_canvas ed_history console]. rewrite Hact. reflexivity.
  - cbn [updateObject setObjects objects]. now apply nudge_objects.
  - reflexivity.
  - cbn. exact Hact.
Qed.

(** An arrow key moves the selected object by one unit, leaves every other
    object and the view as they are, and records one snapshot, of the canvas
    after the move. *)
Theorem arrow_key_nudges_selection (e : key_event) (ed : editor H) (i : nat) :
  isArrow (key_of e) = true ->
  activeObject (ed_canvas ed) = Some i ->
  exists c',
    arrowKeys e 0 ed =
      (Normal tt,
       EditorState c' (push (JSON_stringify (toJSON c')) (ed_history ed))
                   (console ed ++ ["trigger: modified"%string])) /\
    Forall2 (fun o o' => if Nat.eqb (oid o) i then nudged (key_of e) o o' else o' = o)
            (objects (ed_canvas ed)) (objects c') /\
    zoom c' = zoom (ed_canvas ed) /\ activeObject c' = Some i.
Proof. apply arrowKeys_selected. Qed.

(** Without a selection an arrow key changes nothing and records nothing. *)
Lemma arrow_key_without_selection (e : key_event) (focus : nat) (ed : editor H) :
  activeObject (ed_canvas ed) = None ->
  arrowKeys e focus ed = (Normal tt, ed).
Proof.
  intros Hact. unfold arrowKeys. destruct (Nat.ltb 0 focus); [reflexivity|].
  destruct (isArrow (key_of e)); [|reflexivity].
  cbv [bind gets]. rewrite Hact. reflexivity.
Qed.

(** With nothing selected, a plain arrow key leaves the whole editor as it
    is: no object moves and, unlike Delete, no snapshot is recorded. *)
Theorem arrow_key_needs_a_selection (e : key_event) (focus : nat) (ed : editor H) :
  activeObject (ed_canvas ed) = None ->
  isArrow (key_of e) = true ->
  ctrlKey e = false ->
  keydown e focus ed = (Normal tt, ed).
Proof.
  intros Hact Ha Hctrl.
  assert (Z1 : ctrZY e focus ed = (Normal tt, ed)).
  { unfold ctrZY. rewrite Hctrl. reflexivity. }
  assert (Z2 : arrowKeys e focus ed = (Normal tt, ed))
    by now apply arrow_key_without_selection.
  assert (Z3 : deleteKey e focus ed = (Normal tt, ed)).
  { unfold deleteKey. destruct (Z.eqb_spec (key_of e) 46) as [E|_]; [|reflexivity].
    rewrite E in Ha. discriminate. }
  assert (Z4 : Zoom.zoomWithKeys e (ed_canvas ed) = ed_canvas ed).
  { unfold Zoom.zoomWithKeys, Zoom.zoomOutBlock, Zoom.zoomInBlock, Zoom.zoomResetBlock.
    rewrite Hctrl. rewrite !andb_false_r. reflexivity. }
  unfold keydown, isolated, bind, try_catch. rewrite Z1, Z2, Z3.
  unfold keyZoom, setCanvas, modify. rewrite Z4. destruct ed; reflexivity.
Qed.

Lemma nudged_back (k1 k2 : Z) (i : nat) (l1 l2 l3 : list fobject) :
  opposite k1 k2 ->
  Forall2 (fun o o' => if Nat.eqb (oid o) i then nudged k1 o o' else o' = o) l1 l2 ->
  Forall2 (fun o o' => if Nat.eqb (oid o) i then nudged k2 o o' else o' = o) l2 l3 ->
  Forall2 samePlace l1 l3.
Proof.
  intros Hop F1. revert l3. induction F1 as [|a b l1 l2 Hab F1 IH]; intros l3 F2.
  - inversion F2. constructor.
  - inversion F2 as [|b' c l2' l3' Hbc F2']; subst. constructor; [|now apply IH].
    destruct (Nat.eqb (oid a) i) eqn:Ea.
    + destruct Hab as (A1 & A2 & A3). rewrite <- A1 in Ea. rewrite Ea in Hbc.
      destruct Hbc as (B1 & B2 & B3). unfold samePlace.
      split; [congruence|]. rewrite B2, B3, A2, A3.
      unfold dx, dy.
      destruct Hop as [[-> ->]|[[-> ->]|[[-> ->]|[-> ->]]]]; cbn; split; Lqa.lra.
    + subst b. rewrite Ea in Hbc. subst c. unfold samePlace. repeat split; reflexivity.
Qed.

(** With the selected object on whole-number coordinates, an arrow key and
    then the opposite one leave every object where it was (and record two
    snapshots).  Positions are rationals here and the sums exact; on whole
    numbers below 2^53 the binary64 sums of the code are exact as well,
    which they are not elsewhere ([Nudge64Facts.back_and_forth_off_the_grid]). *)
Theorem arrow_keys_back_and_forth (e1 e2 : key_event) (ed : editor H) (i : nat) :
  opposite (key_of e1) (key_of e2) ->
  activeObject (ed_canvas ed) = Some i ->
  onPixelGrid i (ed_canvas ed) ->
  exists ed1 ed2,
    arrowKeys e1 0 ed = (Normal tt, ed1) /\
    arrowKeys e2 0 ed1 = (Normal tt, ed2) /\
    Forall2 samePlace (objects (ed_canvas ed)) (objects (ed_canvas ed2)) /\
    exists s1 s2, ed_history ed2 = push s2 (push s1 (ed_history ed)).
Proof.
  intros Hop Hact _.
  assert (A1 : isArrow (key_of e1) = true).
  { unfold isArrow. destruct Hop as [[-> _]|[[-> _]|[[-> _]|[-> _]]]]; reflexivity. }
  assert (A2 : isArrow (key_of e2) = true).
  { unfold isArrow. destruct Hop as [[_ ->]|[[_ ->]|[[_ ->]|[_ ->]]]]; reflexivity. }
  destruct (arrowKeys_selected e1 ed i A1 Hact) as (c1 & E1 & F1 & _ & Act1).
  eexists. 
  destruct (arrowKeys_selected e2
              (EditorState c1 (push (JSON_stringify (toJSON c1)) (ed_history ed))
                 (console ed ++ ["trigger: modified"%string])) i A2 Act1)
    as (c2 & E2 & F2 & _ & _).
  eexists. split; [exact E1|]. split; [exact E2|]. split.
  - cbn [ed_canvas] in *. exact (nudged_back _ _ i _ _ _ Hop F1 F2).
  - cbn [ed_history]. eexists _, _. reflexivity.
Qed.

(** Delete removes the selected object and nothing else, clears the
    selection, and records a snapshot even when nothing was selected. *)
Theorem delete_key_removes_selection (e : key_event) (ed : editor H) :
  key_of e = 46%Z ->
  exists c',
    deleteKey e 0 ed =
      (Normal tt,
       EditorState c' (push (JSON_stringify (toJSON c')) (ed_history ed))
                   (console ed ++ ["trigger: modified"%string])) /\
    activeObject c' = None /\
    objects c' =
      filter (fun o => match activeObject (ed_canvas ed) with
                       | Some i => negb (Nat.eqb (oid o) i)
                       | None => true
                       end) (objects (ed_canvas ed)) /\
    (activeObject (ed_canvas ed) = None -> objects c' = objects (ed_canvas ed)) /\
    zoom c' = zoom (ed_canvas ed).
Proof.
  intros Hk. eexists. split; [|split; [|split; [|split]]].
  - unfold deleteKey. rewrite Hk. cbn [Z.eqb Pos.eqb Nat.eqb andb].
    cbv [bind setCanvas modify objectModified console_log setHistory gets].
    cbn [ed_canvas ed_history console]. reflexivity.
  - reflexivity.
  - cbn [discardActiveObject objects]. unfold getActiveObjects.
    destruct (activeObject (ed_canvas ed)) as [i|]; cbn [fold_left].
    + reflexivity.
    + induction (objects (ed_canvas ed)) as [|o l IH]; [reflexivity|].
      cbn [filter]. now rewrite <- IH.
  - intros Hn. cbn [discardActiveObject objects]. unfold getActiveObjects. rewrite Hn.
    reflexivity.
  - cbn [discardActiveObject zoom]. unfold getActiveObjects.
    destruct (activeObject (ed_canvas ed)); reflexivity.
Qed.

(** A key that is none of the shortcuts gets past the shell's four
    listeners, focus or not. *)
Lemma shell_listeners_ignore_other_keys (e : key_event) (focus : nat) (ed : editor H) :
  isShortcut e = false ->
  keydown e focus ed = (Normal tt, ed).
Proof.
  unfold isShortcut. intros Hs.
  apply orb_false_elim in Hs as [Hs Hctrl]. apply orb_false_elim in Hs as [Harrow Hdel].
  assert (Z1 : ctrZY e focus ed = (Normal tt, ed)).
  { unfold ctrZY. destruct (ctrlKey e); cbn [andb] in *; [|reflexivity].
    repeat (apply orb_false_elim in Hctrl as [Hctrl ?]).
    rewrite Hctrl. destruct (Nat.eqb focus 0); [|reflexivity].
    assert ((key_of e =? 89)%Z = false) as -> by assumption. reflexivity. }
  assert (Z2 : arrowKeys e focus ed = (Normal tt, ed)).
  { unfold arrowKeys. rewrite Harrow. destruct (Nat.ltb 0 focus); reflexivity. }
  assert (Z3 : deleteKey e focus ed = (Normal tt, ed)).
  { unfold deleteKey. rewrite Hdel. reflexivity. }
  assert (Z4 : Zoom.zoomWithKeys e (ed_canvas ed) = ed_canvas ed).
  { unfold Zoom.zoomWithKeys, Zoom.zoomOutBlock, Zoom.zoomInBlock, Zoom.zoomResetBlock.
    destruct (ctrlKey e); cbn [andb] in *.
    - repeat (apply orb_false_elim in Hctrl as [Hctrl ?]).
      assert ((key_of e =? 189)%Z = false) as -> by assumption.
      assert ((key_of e =? 187)%Z = false) as -> by assumption.
      assert ((key_of e =? 96)%Z = false) as -> by assumption.
      assert ((key_of e =? 48)%Z = false) as -> by assumption.
      assert ((key_of e =? 192)%Z = false) as -> by assumption.
      reflexivity.
    - rewrite !andb_false_r. reflexivity. }
  unfold keydown, isolated, bind, try_catch. rewrite Z1, Z2, Z3.
  unfold keyZoom, setCanvas, modify. rewrite Z4. destruct ed; reflexivity.
Qed.

(** A key that is none of the shortcuts changes nothing on the page, focus
    or not, unless it is Escape and a path is being drawn: none of the five
    listeners of the document acts on it. *)
Theorem other_keys_change_nothing (e : key_event) (focus : nat) (p : Page.page H) :
  isShortcut e = false ->
  (key_of e = 27%Z -> Drawing.isDrawingPath (fst (Page.pg_path p)) = false) ->
  Page.documentKeydown e focus p = p.
Proof.
  intros Hs Hesc.
  rewrite (EditorFacts.documentKeydown_idle H).
  - rewrite shell_listeners_ignore_other_keys by exact Hs. now destruct p.
  - destruct (Z.eq_dec (key_of e) 27) as [E|N]; [left; auto|right; exact N].
Qed.

Lemma undo_restores (ed : editor H) (s : string) (j : json) :
  fst (getValues (ed_history ed)) <> [] ->
  last (fst (getValues (ed_history ed))) EmptyString = s ->
  s <> EmptyString ->
  JSON_parse s = Some j ->
  undo ed =
    (Normal tt,
     EditorState (loadFromJSON j (ed_canvas ed)) (history_undo (ed_history ed))
                 (console ed ++ ["undo"%string])).
Proof.
  intros Hne Hlast Hs Hp.
  cbv [undo bind try_catch console_log console_error modify gets setHistory
       restore parse setCanvas ret].
  cbn [ed_history ed_canvas console].
  destruct (fst (getValues (ed_history ed))) as [|a l] eqn:E; [contradiction|].
  cbn [List.length Nat.eqb negb]. rewrite Hlast.
  assert (truthy s = true) as -> by (destruct s; [contradiction|reflexivity]).
  rewrite Hp. reflexivity.
Qed.

Lemma redo_restores (ed : editor H) (s : string) (j : json) :
  snd (getValues (ed_history ed)) <> [] ->
  last (snd (getValues (ed_history ed))) EmptyString = s ->
  s <> EmptyString ->
  JSON_parse s = Some j ->
  redo ed =
    (Normal tt,
     EditorState (loadFromJSON j (ed_canvas ed)) (history_redo (ed_history ed))
                 (console ed ++ ["redo"%string])).
Proof.
  intros Hne Hlast Hs Hp.
  cbv [redo bind try_catch console_log console_error modify gets setHistory
       restore parse setCanvas ret].
  cbn [ed_history ed_canvas console].
  destruct (snd (getValues (ed_history ed))) as [|a l] eqn:E; [contradiction|].
  cbn [List.length Nat.eqb negb]. rewrite Hlast.
  assert (truthy s = true) as -> by (destruct s; [contradiction|reflexivity]).
  rewrite Hp. reflexivity.
Qed.

(** ctr Z with no text input focused loads the snapshot that ends the undo
    list into the canvas and moves the history back; ctr Y does the same
    with the redo list, moving the history forward.  Nothing else in the
    editor changes but the console. *)
Theorem history_keys_restore_snapshot (ed : editor H) (s : string) (j : json) :
  s <> EmptyString ->
  JSON_parse s = Some j ->
  (fst (getValues (ed_history ed)) <> [] ->
   last (fst (getValues (ed_history ed))) EmptyString = s ->
   keydown ctrlZ 0 ed =
     (Normal tt,
      EditorState (loadFromJSON j (ed_canvas ed)) (history_undo (ed_history ed))
                  (console ed ++ ["undo"%string]))) /\
  (snd (getValues (ed_history ed)) <> [] ->
   last (snd (getValues (ed_history ed))) EmptyString = s ->
   keydown ctrlY 0 ed =
     (Normal tt,
      EditorState (loadFromJSON j (ed_canvas ed)) (history_redo (ed_history ed))
                  (console ed ++ ["redo"%string]))).
Proof.
  intros Hs Hp. split; intros Hne Hlast.
  - pose proof (undo_restores ed s j Hne Hlast Hs Hp) as U.
    unfold keydown, isolated, bind, try_catch.
    unfold ctrZY. change (ctrlKey ctrlZ && Nat.eqb 0 0) with true. cbv iota.
    change (key_of ctrlZ =? 90)%Z with true. change (key_of ctrlZ =? 89)%Z with false.
    cbv iota. unfold bind at 1. rewrite U. cbv [skip ret].
    reflexivity.
  - pose proof (redo_restores ed s j Hne Hlast Hs Hp) as R.
    unfold keydown, isolated, bind, try_catch.
    unfold ctrZY. change (ctrlKey ctrlY && Nat.eqb 0 0) with true. cbv iota.
    change (key_of ctrlY =? 90)%Z with false. change (key_of ctrlY =? 89)%Z with true.
    cbv iota. unfold bind at 1. cbv [skip ret]. rewrite R.
    reflexivity.
Qed.

End Collaborators.

Lemma arrow_key_nudges_selection_witness :
  isArrow (key_of arrowLeft) = true /\
  activeObject (ed_canvas (EditorState twoObjects (@nil string, @nil string) [])) = Some 1%nat /\
  exists c',
    arrowKeys arrowLeft 0 (EditorState twoObjects (@nil string, @nil string) []) =
      (Normal tt,
       EditorState c' (push (JSON_stringify (toJSON c')) (@nil string, @nil string))
                   ([] ++ ["trigger: modified"%string])) /\
    Forall2 (fun o o' => if Nat.eqb (oid o) 1 then nudged (key_of arrowLeft) o o' else o' = o)
            (objects twoObjects) (objects c') /\
    zoom c' = zoom twoObjects /\ activeObject c' = Some 1%nat.
Proof.
  split; [reflexivity|]. split; [reflexivity|].
  exact (arrow_key_nudges_selection (list string * list string) arrowLeft
           (EditorState twoObjects (@nil string, @nil string) []) 1 eq_refl eq_refl).
Defined.

Lemma arrow_keys_back_and_forth_witness :
  opposite (key_of arrowLeft) (key_of arrowRight) /\
  activeObject (ed_canvas (EditorState twoObjects (@nil string, @nil string) [])) = Some 1%nat /\
  onPixelGrid 1 twoObjects /\
  exists ed1 ed2,
    arrowKeys arrowLeft 0 (EditorState twoObjects (@nil string, @nil string) []) =
      (Normal tt, ed1) /\
    arrowKeys arrowRight 0 ed1 = (Normal tt, ed2) /\
    Forall2 samePlace (objects twoObjects) (objects (ed_canvas ed2)).
Proof.
  assert (Ho : opposite (key_of arrowLeft) (key_of arrowRight))
    by (left; split; reflexivity).
  assert (Hg : onPixelGrid 1 twoObjects).
  { intros o [<-|[<-|[]]] Hi.
    - split; [exists 10%Z|exists 20%Z]; split; reflexivity.
    - discriminate Hi. }
  split; [exact Ho|]. split; [reflexivity|]. split; [exact Hg|].
  destruct (arrow_keys_back_and_forth (list string * list string) arrowLeft arrowRight
              (EditorState twoObjects (@nil string, @nil string) []) 1 Ho eq_refl Hg)
    as (ed1 & ed2 & A & B & C & _).
  exists ed1, ed2. split; [exact A|]. split; [exact B|exact C].
Defined.

Lemma delete_key_removes_selection_witness :
  key_of deleteKeyEvent = 46%Z /\
  exists c',
    fst (deleteKey deleteKeyEvent 0 (EditorState twoObjects (@nil string, @nil string) [])) =
      Normal tt /\
    ed_canvas (snd (deleteKey deleteKeyEvent 0
                      (EditorState twoObjects (@nil string, @nil string) []))) = c' /\
    activeObject c' = None /\
    objects c' = [FObject 2 30 40].
Proof.
  split; [reflexivity|].
  destruct (delete_key_removes_selection (list string * list string) deleteKeyEvent
              (EditorState twoObjects (@nil string, @nil string) []) eq_refl)
    as (c' & A & B & C & _).
  exists c'. rewrite A. split; [reflexivity|]. split; [reflexivity|].
  split; [exact B|]. rewrite C. reflexivity.
Defined.

Lemma arrow_key_needs_a_selection_witness :
  activeObject (ed_canvas (EditorState (Zoom.blank 1%Q) (@nil string, @nil string) [])) = None /\
  isArrow (key_of arrowLeft) = true /\
  ctrlKey arrowLeft = false /\
  keydown arrowLeft 0 (EditorState (Zoom.blank 1%Q) (@nil string, @nil string) []) =
    (Normal tt, EditorState (Zoom.blank 1%Q) (@nil string, @nil string) []).
Proof.
  split; [reflexivity|]. split; [reflexivity|]. split; [reflexivity|].
  exact (arrow_key_needs_a_selection (list string * list string) arrowLeft 0
           (EditorState (Zoom.blank 1%Q) (@nil string, @nil string) [])
           eq_refl eq_refl eq_refl).
Defined.

(** ctr A while a path is being drawn, and Escape while none is. *)
Lemma other_keys_change_nothing_witness :
  let ed := EditorState twoObjects (@nil string, @nil string) [] in
  let drawing := Page.Page ed Drawing.previewing in
  let idle := Page.Page ed (Drawing.pathTool_init, Drawing.untouched) in
  isShortcut (KeyEvent 65 65 true) = false /\
  Drawing.isDrawingPath (fst (Page.pg_path drawing)) = true /\
  Page.documentKeydown (KeyEvent 65 65 true) 0 drawing = drawing /\
  isShortcut Drawing.escape = false /\
  Drawing.isDrawingPath (fst (Page.pg_path idle)) = false /\
  Page.documentKeydown Drawing.escape 0 idle = idle.
Proof.
  intros ed drawing idle.
  split; [reflexivity|]. split; [reflexivity|]. split.
  - apply (other_keys_change_nothing (list string * list string)
             (KeyEvent 65 65 true) 0 drawing eq_refl).
    intros E. vm_compute in E. discriminate E.
  - split; [reflexivity|]. split; [reflexivity|].
    apply (other_keys_change_nothing (list string * list string)
             Drawing.escape 0 idle eq_refl).
    intros _. reflexivity.
Defined.

Lemma history_keys_restore_snapshot_witness :
  let ed := EditorState twoObjects (["{}"; "{}"]%string, ["{}"]%string) [] in
  "{}"%string <> EmptyString /\
  JSON_parse "{}" = Some tt /\
  fst (getValues (ed_history ed)) <> [] /\
  last (fst (getValues (ed_history ed))) EmptyString = "{}"%string /\
  keydown ctrlZ 0 ed =
    (Normal tt,
     EditorState (loadFromJSON tt (ed_canvas ed)) (history_undo (ed_history ed))
                 (console ed ++ ["undo"%string])).
Proof.
  intros ed.
  assert (Hs : "{}"%string <> EmptyString) by discriminate.
  assert (Hne : fst (getValues (ed_history ed)) <> []) by discriminate.
  split; [exact Hs|]. split; [reflexivity|]. split; [exact Hne|]. split; [reflexivity|].
  exact (proj1 (history_keys_restore_snapshot (list string * list string) ed "{}" tt
                  Hs eq_refl) Hne eq_refl).
Defined.

End EditorMore.

(** ** The arrow keys on binary64 Numbers *)

Module Nudge64Facts.

Import PrimFloat Nudge64.

Local Open Scope float_scope.

Set Warnings "-inexact-float".

(** From every whole number between -5000 and 5000 an arrow key and the
    opposite one lead back to the same Number. *)
Lemma back_and_forth_on_the_grid : forallb comesBack pixels = true.
Proof. vm_compute. reflexivity. Qed.

(** Not so from 127.3 or from 0.1: right and then left lead to
    127.30000000000001 and to 0.10000000000000009. *)
Lemma back_and_forth_off_the_grid :
  nudge 37 (nudge 39 (127.3, 0.1)) = (0x1.fd33333333334p+6, 0.1) /\
  nudge 37 (nudge 39 (0.1, 127.3)) = (0x1.99999999999a0p-4, 127.3) /\
  comesBack 127.3 = false /\
  comesBack 0.1 = false.
Proof. repeat split. Qed.

End Nudge64Facts.

(** ** Drawing tools: whole gestures *)

Module DrawingMore.
Import Drawing DrawingFacts.
Local Open Scope R_scope.

(** *** The line tool *)

Lemma fresh_above (s : list (nat * shape)) (j : nat) (v : shape) :
  In (j, v) s -> (j < fresh s)%nat.
Proof.
  unfold fresh. induction s as [|[k w] s IH]; [intros []|].
  intros [E|Hin]; cbn [fold_right fst].
  - injection E as -> ->. lia.
  - specialize (IH Hin). lia.
Qed.

Lemma lookup_fresh_app (s : list (nat * shape)) (i : nat) (v : shape) :
  (forall j w, In (j, w) s -> j <> i) ->
  lookup i (s ++ [(i, v)]) = Some v.
Proof.
  induction s as [|[k w] s IH]; intros Hn; cbn [app lookup].
  - now rewrite Nat.eqb_refl.
  - destruct (Nat.eqb_spec i k) as [->|Hne].
    + exfalso. apply (Hn k w); [now left|reflexivity].
    + apply IH. intros j u Hin. apply (Hn j u). now right.
Qed.

Lemma update_fresh_app (s : list (nat * shape)) (i : nat) (v w : shape) :
  (forall j u, In (j, u) s -> j <> i) ->
  update i w (s ++ [(i, v)]) = s ++ [(i, w)].
Proof.
  induction s as [|[k u] s IH]; intros Hn; cbn [app update].
  - now rewrite Nat.eqb_refl.
  - destruct (Nat.eqb_spec i k) as [->|Hne].
    + exfalso. apply (Hn k u); [now left|reflexivity].
    + f_equal. apply IH. intros j u' Hin. apply (Hn j u'). now right.
Qed.

Lemma fresh_not_in (s : list (nat * shape)) :
  forall j u, In (j, u) s -> j <> fresh s.
Proof.
  intros j u Hin. pose proof (fresh_above s j u Hin). lia.
Qed.

Lemma last_cons (A : Type) (l : list A) (a d : A) : last (a :: l) d = last l a.
Proof.
  revert a d. induction l as [|b l IH]; intros a d; [reflexivity|].
  change (last (a :: b :: l) d) with (last (b :: l) d).
  change (last (b :: l) a) with (last (b :: l) a).
  now rewrite !IH.
Qed.

(** The state of the line tool while the button is held. *)
Lemma lineMoves_dragging (moves : list mouse_event) (c : canvas) (p0 : R * R)
    (last_o : mouse_event) (ptr : R * R) :
  let i := fresh (store c) in
  let e := lineEnd p0 last_o in
  let q := lineEnd p0 (last moves last_o) in
  exists ptr',
  lineMoves moves
    (LineTool true (Some i) ptr (fst p0, snd p0, fst p0, snd p0),
     Canvas (isDrawingLineMode c) (isDrawingPathMode c)
            (store c ++ [(i, Line (fst p0) (snd p0) (fst e) (snd e))])
            (onCanvas c ++ [i]) (modified c)) =
  Some (LineTool true (Some i) ptr' (fst p0, snd p0, fst p0, snd p0),
        Canvas (isDrawingLineMode c) (isDrawingPathMode c)
               (store c ++ [(i, Line (fst p0) (snd p0) (fst q) (snd q))])
               (onCanvas c ++ [i]) (modified c)).
Proof.
  intros i. revert last_o ptr.
  induction moves as [|o moves IH]; intros last_o ptr; cbn zeta.
  - exists ptr. reflexivity.
  - assert (Hstep : forall x y,
      set_x2y2 (Some i) x y
        (Canvas (isDrawingLineMode c) (isDrawingPathMode c)
           (store c ++ [(i, Line (fst p0) (snd p0) (fst (lineEnd p0 last_o)) (snd (lineEnd p0 last_o)))])
           (onCanvas c ++ [i]) (modified c)) =
      Some (Canvas (isDrawingLineMode c) (isDrawingPathMode c)
           (store c ++ [(i, Line (fst p0) (snd p0) x y)])
           (onCanvas c ++ [i]) (modified c))).
    { intros x y. unfold set_x2y2. cbn [store].
      rewrite (lookup_fresh_app (store c) i _ (fresh_not_in (store c))).
      unfold write. cbn [store isDrawingLineMode isDrawingPathMode onCanvas modified].
      now rewrite (update_fresh_app (store c) i _ _ (fresh_not_in (store c))). }
    assert (Hone :
      lineMouseMove o
        (LineTool true (Some i) ptr (fst p0, snd p0, fst p0, snd p0),
         Canvas (isDrawingLineMode c) (isDrawingPathMode c)
           (store c ++ [(i, Line (fst p0) (snd p0) (fst (lineEnd p0 last_o)) (snd (lineEnd p0 last_o)))])
           (onCanvas c ++ [i]) (modified c)) =
      Some (LineTool true (Some i) (getPointer o) (fst p0, snd p0, fst p0, snd p0),
         Canvas (isDrawingLineMode c) (isDrawingPathMode c)
           (store c ++ [(i, Line (fst p0) (snd p0) (fst (lineEnd p0 o)) (snd (lineEnd p0 o)))])
           (onCanvas c ++ [i]) (modified c))).
    { unfold lineMouseMove. cbn [isDrawingLine negb lineToDraw pointerPoints].
      remember (lineEnd p0 last_o) as e0 eqn:Ee0.
      unfold lineEnd.
      destruct (shiftKey o).
      - destruct (angleSnap (fst p0) (snd p0) (getPointer o)) as [x y] eqn:Ea.
        rewrite Hstep. reflexivity.
      - rewrite Hstep. reflexivity. }
    rewrite last_cons.
    destruct (IH o (getPointer o)) as [ptr' IH']. exists ptr'. rewrite <- IH'.
    unfold lineMoves. cbn [fold_left next]. rewrite Hone. reflexivity.
Qed.

(** One gesture of the line tool adds one line to the canvas.  Its fixed end
    is where the button went down, whatever the moves; its free end is
    decided by the last move alone: the pointer, or with Shift its angle
    snap about the fixed end (the fixed end itself without a move).  The
    release triggers ['object:modified'] once. *)
Theorem line_gesture_adds_one_line
    (down : mouse_event) (moves : list mouse_event) (t : lineTool) (c : canvas) :
  isDrawingLineMode c = true ->
  let p0 := getPointer down in
  let i := fresh (store c) in
  let q := lineEnd p0 (last moves (MouseEvent p0 false)) in
  exists t',
    lineGesture down moves (t, c) =
      Some (t',
            Canvas (isDrawingLineMode c) (isDrawingPathMode c)
                   (store c ++ [(i, Line (fst p0) (snd p0) (fst q) (snd q))])
                   (onCanvas c ++ [i]) (S (modified c))) /\
    isDrawingLine t' = false /\ lineToDraw t' = Some i.
Proof.
  intros Hmode p0 i q.
  unfold lineGesture, lineMouseDown.
  replace (negb (isDrawingLineMode c)) with false by now rewrite Hmode.
  cbn [add next]. fold i p0.
  destruct (lineMoves_dragging moves c p0 (MouseEvent p0 false) p0) as [ptr' Hm].
  cbn zeta in Hm. fold i in Hm. unfold lineEnd at 1 2 in Hm. cbn [shiftKey getPointer] in Hm.
  rewrite Hm. cbn [next lineMouseUp isDrawingLine negb lineToDraw].
  eexists. split; [reflexivity|]. split; reflexivity.
Qed.

Lemma line_gesture_adds_one_line_witness :
  isDrawingLineMode (Canvas true false [] [] 0) = true /\
  exists t',
    lineGesture (MouseEvent (0, 0) false)
      [MouseEvent (30, 40) true; MouseEvent (100, 5) false]
      (lineTool_init, Canvas true false [] [] 0) =
    Some (t', Canvas true false [(1%nat, Line 0 0 100 5)] [1%nat] 1).
Proof.
  split; [reflexivity|].
  destruct (line_gesture_adds_one_line (MouseEvent (0, 0) false)
              [MouseEvent (30, 40) true; MouseEvent (100, 5) false]
              lineTool_init (Canvas true false [] [] 0) eq_refl) as (t' & E & _).
  exists t'. exact E.
Defined.


(** *** The path tool between pointer events *)

Lemma pathOf_lookup (i : nat) (path : list segment) (c : canvas) :
  lookup i (store c) = Some (Path path) -> pathOf (Some i) c = Some (i, path).
Proof. unfold pathOf. now intros ->. Qed.

Lemma startsWithMove_app (p q : list segment) :
  startsWithMove p -> startsWithMove (p ++ q).
Proof. destruct p as [|[x y|x y|cx cy x y] p]; cbn; tauto. Qed.

Lemma removelast_keeps_start (p : list segment) :
  startsWithMove p -> (2 <= List.length p)%nat ->
  startsWithMove (removelast p) /\ List.length (removelast p) = (List.length p - 1)%nat.
Proof.
  intros Hs Hl. split.
  - destruct p as [|[x y|x y|cx cy x y] [|b p]]; cbn in *; try tauto; lia.
  - clear Hs Hl. induction p as [|a [|b p] IH]; [reflexivity|reflexivity|].
    change (removelast (a :: b :: p)) with (a :: removelast (b :: p)).
    cbn [List.length] in *. rewrite IH. lia.
Qed.

Lemma lookup_write (i : nat) (v w : shape) (c : canvas) :
  lookup i (store c) = Some w -> lookup i (store (write i v c)) = Some v.
Proof. intros E. unfold write. cbn [store]. exact (lookup_update i v w (store c) E). Qed.

(** What a mouse:move leaves, while a path is drawn: the path without its
    last command, or without its last two when a curve is started, and one
    new command after it. *)
Lemma pathMouseMove_shape (o : mouse_event) (t : pathTool) (c : canvas)
    (i : nat) (path : list segment) :
  isDrawingPathMode c = true ->
  isDrawingPath t = true ->
  pathToDraw t = Some i ->
  lookup i (store c) = Some (Path path) ->
  (2 <= List.length path)%nat ->
  (isDrawingCurve t = true -> at34 (updatedPath t) <> None) ->
  exists t' q u,
    pathMouseMove o (t, c) = Some (t', write i (Path (q ++ [u])) c) /\
    pathToDraw t' = Some i /\ isDrawingPath t' = true /\ updatedPath t' = u /\
    (isDrawingCurve t' = true -> at34 u <> None) /\
    (q = removelast path \/
     q = removelast (removelast path) /\ (2 <= List.length (removelast path))%nat).
Proof.
  intros Hmode Hdraw Href Hlook Hlen Hcurve.
  unfold pathMouseMove. rewrite Hmode, Hdraw, Href. cbn [negb].
  rewrite (pathOf_lookup i path c Hlook).
  set (placed := removelast path).
  assert (Hpl : exists a r, placed = a :: r).
  { subst placed. destruct path as [|a [|b r]]; cbn in Hlen; try lia.
    exists a. eexists. reflexivity. }
  destruct Hpl as (a & r & Hpl).
  assert (Hlast : lastOf placed = Some (last r a)) by now rewrite Hpl.
  rewrite Hlast.
  destruct (isDrawingCurve t) eqn:Ec; cbn [negb andb].
  - (* a curve is being edited *)
    rewrite !andb_false_r. cbn [andb].
    destruct (isMouseDown t) eqn:Ed.
    + destruct (at34 (updatedPath t)) as [[x3 y4]|] eqn:E34; [|now destruct Hcurve].
      eexists _, _, _. split; [reflexivity|]. cbn [pathToDraw isDrawingPath updatedPath isDrawingCurve at34].
      split; [reflexivity|]. split; [reflexivity|]. split; [reflexivity|].
      split; [discriminate|now left].
    + eexists _, _, _. split; [reflexivity|]. cbn [pathToDraw isDrawingPath updatedPath isDrawingCurve].
      split; [reflexivity|]. split; [reflexivity|]. split; [reflexivity|].
      split; [exact Hcurve|now left].
  - rewrite !andb_true_r.
    set (u1 := if shiftKey o then _ else _).
    assert (Hu1 : exists u, u1 = Some u).
    { subst u1. destruct (shiftKey o); [|eexists; reflexivity].
      destruct (angleSnap (at1 (last r a)) (at2 (last r a)) (getPointer o)).
      eexists; reflexivity. }
    destruct Hu1 as [u Hu]. rewrite Hu.
    destruct (isMouseDown t) eqn:Ed.
    + destruct (Nat.ltb 1 (List.length placed)) eqn:El.
      * destruct (match last r a with
                  | Qc _ _ x y => (x, y)
                  | _ => (at1 (last r a), at2 (last r a))
                  end) as [x y].
        eexists _, _, _. split; [reflexivity|].
        cbn [pathToDraw isDrawingPath updatedPath isDrawingCurve].
        split; [reflexivity|]. split; [reflexivity|]. split; [reflexivity|]. split.
        -- cbn; discriminate.
        -- right. split; [reflexivity|]. apply Nat.ltb_lt in El. lia.
      * eexists _, _, _. split; [reflexivity|].
        cbn [pathToDraw isDrawingPath updatedPath isDrawingCurve].
        split; [reflexivity|]. split; [reflexivity|]. split; [reflexivity|].
        split; [discriminate|now left].
    + eexists _, _, _. split; [reflexivity|].
      cbn [pathToDraw isDrawingPath updatedPath isDrawingCurve].
      split; [reflexivity|]. split; [reflexivity|]. split; [reflexivity|].
      split; [discriminate|now left].
Qed.

Lemma pathStep_ready (ev : pointer_event) (st : pathTool * canvas) :
  pathReady st -> exists st', pathStep ev st = Some st' /\ pathReady st'.
Proof.
  destruct st as [t c]. intros (Hmode & Hdraw & Hpath & Hcurve).
  destruct ev as [o|o|o]; cbn [pathStep].
  - (* mouse:down *)
    unfold pathMouseDown. rewrite Hmode. cbn [negb pathToDraw].
    destruct (pathToDraw t) as [i|] eqn:Eref.
    + destruct (Hpath i eq_refl) as (path & Hlook & Hlen & Hstart).
      cbn [isDrawingPath path_pointer updatedPath isMouseDown isDrawingCurve rememberX rememberY].
      rewrite (pathOf_lookup i path c Hlook).
      eexists. split; [reflexivity|]. unfold pathReady.
      cbn [isDrawingPath pathToDraw isDrawingCurve updatedPath].
      split; [exact Hmode|]. split; [discriminate|]. split.
      * intros i' E. injection E as <-. eexists. split; [exact (lookup_write i _ _ c Hlook)|].
        rewrite length_app. cbn [List.length]. split; [lia|now apply startsWithMove_app].
      * intros E. split; [discriminate|]. now apply Hcurve.
    + cbn [add isDrawingPath path_pointer updatedPath isMouseDown isDrawingCurve rememberX rememberY].
      eexists. split; [reflexivity|]. unfold pathReady.
      cbn [isDrawingPathMode isDrawingPath pathToDraw isDrawingCurve updatedPath store].
      split; [exact Hmode|]. split; [discriminate|]. split.
      * intros i' E. injection E as <-. eexists.
        split; [exact (lookup_fresh_app (store c) _ _ (fresh_not_in (store c)))|].
        cbn. split; [lia|exact I].
      * intros E. now destruct (proj1 (Hcurve E)).
  - (* mouse:move *)
    destruct (isDrawingPath t) eqn:Ed.
    + destruct (pathToDraw t) as [i|] eqn:Eref; [|now destruct (Hdraw eq_refl)].
      destruct (Hpath i eq_refl) as (path & Hlook & Hlen & Hstart).
      destruct (pathMouseMove_shape o t c i path Hmode Ed Eref Hlook Hlen
                  (fun E => proj2 (Hcurve E)))
        as (t' & q & u & Hmove & R1 & R2 & R3 & R4 & Hq).
      eexists. split; [exact Hmove|]. unfold pathReady.
      split; [exact Hmode|]. split; [now rewrite R1|]. split.
      * intros i' E. rewrite R1 in E. injection E as <-. eexists.
        split; [exact (lookup_write i _ _ c Hlook)|].
        rewrite length_app. cbn [List.length].
        destruct (removelast_keeps_start path Hstart Hlen) as [S1 L1].
        destruct Hq as [->|[-> Hq2]].
        -- split; [lia|now apply startsWithMove_app].
        -- destruct (removelast_keeps_start (removelast path) S1 Hq2) as [S2 L2].
           split; [lia|now apply startsWithMove_app].
      * intros E. split; [now rewrite R1|]. rewrite R3. now apply R4.
    + unfold pathMouseMove. rewrite Hmode, Ed. cbn [negb].
      eexists. split; [reflexivity|]. unfold pathReady. rewrite Ed. tauto.
  - (* mouse:up *)
    unfold pathMouseUp. rewrite Hmode. cbn [negb].
    destruct (isDrawingCurve t) eqn:Ec.
    + destruct (Hcurve eq_refl) as [Hsome _].
      destruct (pathToDraw t) as [i|] eqn:Eref; [|now destruct Hsome].
      destruct (Hpath i eq_refl) as (path & Hlook & Hlen & Hstart).
      rewrite (pathOf_lookup i path c Hlook).
      eexists. split; [reflexivity|]. unfold pathReady.
      cbn [isDrawingPath pathToDraw isDrawingCurve updatedPath].
      split; [exact Hmode|]. split; [discriminate|]. split.
      * intros i' E. injection E as <-. eexists. split; [exact (lookup_write i _ _ c Hlook)|].
        rewrite length_app. cbn [List.length]. split; [lia|now apply startsWithMove_app].
      * discriminate.
    + eexists. split; [reflexivity|]. unfold pathReady.
      cbn [isDrawingPath pathToDraw isDrawingCurve updatedPath].
      split; [exact Hmode|]. split; [exact Hdraw|]. split; [exact Hpath|discriminate].
Qed.

(** With the path tool on, no run of mouse:down, mouse:move and mouse:up
    events, in any order and with or without Shift, reads a property of a
    missing path; after it the path being drawn, if any, starts with its
    Move command and has at least one more command. *)
Theorem pointer_events_keep_path_ready (evs : list pointer_event) (st : pathTool * canvas) :
  pathReady st ->
  exists st', pathRun evs st = Some st' /\ pathReady st'.
Proof.
  revert st. induction evs as [|ev evs IH]; intros st Hr.
  - exists st. split; [reflexivity|exact Hr].
  - destruct (pathStep_ready ev st Hr) as (st1 & E1 & R1).
    destruct (IH st1 R1) as (st' & E & R).
    exists st'. split; [|exact R].
    unfold pathRun in *. cbn [fold_left next]. now rewrite E1.
Qed.

Lemma pathTool_init_ready : pathReady (pathTool_init, Canvas false true [] [] 0).
Proof.
  unfold pathReady. cbn [pathTool_init isDrawingPathMode isDrawingPath pathToDraw isDrawingCurve].
  split; [reflexivity|]. split; [discriminate|]. split; [discriminate|discriminate].
Qed.

Lemma pointer_events_keep_path_ready_witness :
  let evs := [Down (MouseEvent (0, 0) false); Up (MouseEvent (0, 0) false);
              Move (MouseEvent (100, 0) true); Down (MouseEvent (100, 0) false);
              Move (MouseEvent (120, 30) false); Move (MouseEvent (130, 40) false);
              Up (MouseEvent (130, 40) false)] in
  pathReady (pathTool_init, Canvas false true [] [] 0) /\
  exists st', pathRun evs (pathTool_init, Canvas false true [] [] 0) = Some st' /\
              pathReady st'.
Proof.
  intros evs. split; [exact pathTool_init_ready|].
  exact (pointer_events_keep_path_ready evs _ pathTool_init_ready).
Defined.


(** *** The path tool: previews, curves and cancelling *)

Lemma update_update (i : nat) (v w : shape) (s : list (nat * shape)) :
  update i w (update i v s) = update i w s.
Proof.
  induction s as [|[j u] s IH]; [reflexivity|].
  cbn [update]. destruct (Nat.eqb i j) eqn:E; cbn [update]; rewrite E; [reflexivity|].
  now rewrite IH.
Qed.

Lemma write_write (i : nat) (v w : shape) (c : canvas) :
  write i w (write i v c) = write i w c.
Proof. unfold write. cbn [store isDrawingLineMode isDrawingPathMode onCanvas modified].
  now rewrite update_update. Qed.

Lemma pathRun_cons (ev : pointer_event) (evs : list pointer_event)
    (st st1 : pathTool * canvas) :
  pathStep ev st = Some st1 -> pathRun (ev :: evs) st = pathRun evs st1.
Proof. intros E. unfold pathRun. cbn [fold_left next]. now rewrite E. Qed.

(** One mouse:move while the next line is previewed. *)
Lemma preview_move (o : mouse_event) (t : pathTool) (c : canvas) (i : nat)
    (placed : list segment) (pv : segment) :
  isDrawingPathMode c = true ->
  isDrawingPath t = true ->
  isDrawingCurve t = false ->
  isMouseDown t = false ->
  pathToDraw t = Some i ->
  lookup i (store c) = Some (Path (placed ++ [pv])) ->
  placed <> [] ->
  exists x y,
    pathMouseMove o (t, c) =
      Some (PathTool true (Some i) (getPointer o) (L x y) false false
                     (rememberX t) (rememberY t),
            write i (Path (placed ++ [L x y])) c) /\
    (shiftKey o = false ->
     firstInRange (getPointer o) (removelast placed) = None ->
     (x, y) = getPointer o).
Proof.
  intros Hmode Hdraw Hcurve Hdown Href Hlook Hne.
  unfold pathMouseMove. rewrite Hmode, Hdraw, Hcurve, Hdown, Href. cbn [negb andb].
  rewrite (pathOf_lookup i _ c Hlook). rewrite removelast_last.
  destruct placed as [|a r]; [contradiction|].
  cbn [lastOf]. rewrite !andb_true_r.
  destruct (shiftKey o) eqn:Es.
  - destruct (angleSnap (at1 (last r a)) (at2 (last r a)) (getPointer o)) as [x y].
    cbn [set12]. rewrite ?snapLoop_firstInRange.
    destruct (Nat.ltb 1 (List.length (a :: r)));
      [destruct (firstInRange (getPointer o) (removelast (a :: r))) as [p|]|];
      cbn [set12]; eexists _, _; (split; [reflexivity|discriminate]).
  - rewrite ?snapLoop_firstInRange.
    destruct (Nat.ltb 1 (List.length (a :: r))) eqn:El.
    + destruct (firstInRange (getPointer o) (removelast (a :: r))) as [p|] eqn:Ef;
        cbn [set12]; eexists _, _; (split; [reflexivity|]).
      * intros _ Hn. discriminate.
      * intros _ _. now destruct (getPointer o).
    + eexists _, _. split; [reflexivity|]. intros _ _. now destruct (getPointer o).
Qed.

(** Moving the pointer with the button up never changes a placed point nor
    the number of commands: after any run of moves the path is the placed
    commands followed by one line command.  With the last move made without
    Shift and out of range of the earlier placed points, that command ends
    at the pointer. *)
Theorem preview_moves_keep_placed_points
    (first : mouse_event) (rest : list mouse_event) (t : pathTool) (c : canvas)
    (i : nat) (placed : list segment) (pv : segment) :
  isDrawingPathMode c = true ->
  isDrawingPath t = true ->
  isDrawingCurve t = false ->
  isMouseDown t = false ->
  pathToDraw t = Some i ->
  lookup i (store c) = Some (Path (placed ++ [pv])) ->
  placed <> [] ->
  let o := last rest first in
  exists t' x y,
    pathMoves (first :: rest) (t, c) =
      Some (t', write i (Path (placed ++ [L x y])) c) /\
    isDrawingCurve t' = false /\ isMouseDown t' = false /\
    pathToDraw t' = Some i /\
    (shiftKey o = false ->
     firstInRange (getPointer o) (removelast placed) = None ->
     (x, y) = getPointer o).
Proof.
  intros Hmode Hdraw Hcurve Hdown Href Hlook Hne.
  revert first t c pv Hmode Hdraw Hcurve Hdown Href Hlook.
  induction rest as [|o2 rest IH]; intros first t c pv Hmode Hdraw Hcurve Hdown Href Hlook o.
  - destruct (preview_move first t c i placed pv Hmode Hdraw Hcurve Hdown Href Hlook Hne)
      as (x & y & E & P).
    eexists _, x, y. unfold pathMoves. cbn [map].
    rewrite (pathRun_cons (Move first) _ _ _ E). split; [reflexivity|].
    cbn [isDrawingCurve isMouseDown pathToDraw]. repeat split. exact P.
  - destruct (preview_move first t c i placed pv Hmode Hdraw Hcurve Hdown Href Hlook Hne)
      as (x & y & E & _).
    set (t1 := PathTool true (Some i) (getPointer first) (L x y) false false
                        (rememberX t) (rememberY t)) in *.
    set (c1 := write i (Path (placed ++ [L x y])) c) in *.
    destruct (IH o2 t1 c1 (L x y) Hmode eq_refl eq_refl eq_refl eq_refl
                (lookup_write i _ _ c Hlook))
      as (t' & x' & y' & E' & R1 & R2 & R3 & P').
    exists t', x', y'. split.
    + unfold pathMoves in *. cbn [map]. rewrite (pathRun_cons (Move first) _ _ _ E).
      cbn [map] in E'. rewrite E'. unfold c1. now rewrite write_write.
    + split; [exact R1|]. split; [exact R2|]. split; [exact R3|].
      subst o. rewrite last_cons. exact P'.
Qed.

Lemma preview_moves_keep_placed_points_witness :
  let t := fst previewing in
  let c := snd previewing in
  (isDrawingPathMode c = true /\ isDrawingPath t = true /\ isDrawingCurve t = false /\
   isMouseDown t = false /\ pathToDraw t = Some 1%nat /\
   lookup 1 (store c) = Some (Path ([M 0 0; L 100 0] ++ [L 50 50])) /\
   [M 0 0; L 100 0] <> []) /\
  exists t' x y,
    pathMoves [MouseEvent (60, 60) false; MouseEvent (70, 80) true] (t, c) =
      Some (t', write 1 (Path ([M 0 0; L 100 0] ++ [L x y])) c).
Proof.
  intros t c.
  assert (Hne : [M 0 0; L 100 0] <> []) by discriminate.
  split; [repeat split; exact Hne|].
  destruct (preview_moves_keep_placed_points (MouseEvent (60, 60) false)
              [MouseEvent (70, 80) true] t c 1%nat [M 0 0; L 100 0] (L 50 50)
              eq_refl eq_refl eq_refl eq_refl eq_refl eq_refl Hne)
    as (t' & x & y & E & _).
  exists t', x, y. exact E.
Defined.


Lemma lastOf_app (p : list segment) (a : segment) : lastOf (p ++ [a]) = Some a.
Proof.
  unfold lastOf. destruct p as [|b p]; [reflexivity|].
  cbn [app]. f_equal. rewrite <- (last_cons _ (p ++ [a]) b a). 
  change (b :: p ++ [a]) with ((b :: p) ++ [a]). apply last_last.
Qed.

Lemma length_app_one (p : list segment) (a : segment) :
  p <> [] -> Nat.ltb 1 (List.length (p ++ [a])) = true.
Proof.
  intros Hne. apply Nat.ltb_lt. rewrite length_app. cbn [List.length].
  destruct p; [contradiction|]. cbn [List.length]. lia.
Qed.

(** The first mouse:move with the button held after a click: the command
    placed last becomes a curve to the same point. *)
Lemma curve_start (o : mouse_event) (t : pathTool) (c : canvas) (i : nat)
    (pre : list segment) (a pv : segment) :
  isDrawingPathMode c = true ->
  isDrawingPath t = true ->
  isDrawingCurve t = false ->
  isMouseDown t = true ->
  pathToDraw t = Some i ->
  lookup i (store c) = Some (Path (pre ++ [a; pv])) ->
  pre <> [] ->
  let e := endpoint a in
  pathMouseMove o (t, c) =
    Some (PathTool true (Some i) (getPointer o) (Qc (fst e) (snd e) (fst e) (snd e))
                   true true (fst e) (snd e),
          write i (Path (pre ++ [Qc (fst e) (snd e) (fst e) (snd e)])) c).
Proof.
  intros Hmode Hdraw Hcurve Hdown Href Hlook Hne e.
  unfold pathMouseMove. rewrite Hmode, Hdraw, Hcurve, Hdown, Href. cbn [negb andb].
  rewrite (pathOf_lookup i _ c Hlook).
  change (pre ++ [a; pv]) with (pre ++ [a] ++ [pv]). rewrite app_assoc.
  rewrite !removelast_last, lastOf_app, (length_app_one pre a Hne). cbn [andb].
  rewrite !andb_true_r.
  assert (He : (match a with
                | Qc _ _ x y => (x, y)
                | _ => (at1 a, at2 a)
                end) = (fst e, snd e)).
  { subst e. destruct a; reflexivity. }
  destruct (shiftKey o).
  - destruct (angleSnap (at1 a) (at2 a) (getPointer o)) as [x y].
    rewrite He. reflexivity.
  - rewrite He. reflexivity.
Qed.

(** A further mouse:move with the button held: the control point is put
    opposite the pointer. *)
Lemma curve_drag (o : mouse_event) (t : pathTool) (c : canvas) (i : nat)
    (pre : list segment) (q : segment) (cx cy : R) :
  isDrawingPathMode c = true ->
  isDrawingPath t = true ->
  isDrawingCurve t = true ->
  isMouseDown t = true ->
  pathToDraw t = Some i ->
  updatedPath t = Qc cx cy (rememberX t) (rememberY t) ->
  lookup i (store c) = Some (Path (pre ++ [q])) ->
  let e := (rememberX t, rememberY t) in
  let m := mirrored e (getPointer o) in
  pathMouseMove o (t, c) =
    Some (PathTool true (Some i) (getPointer o) (Qc (fst m) (snd m) (fst e) (snd e))
                   true true (fst e) (snd e),
          write i (Path (pre ++ [Qc (fst m) (snd m) (fst e) (snd e)])) c).
Proof.
  intros Hmode Hdraw Hcurve Hdown Href Hup Hlook e m.
  unfold pathMouseMove. rewrite Hmode, Hdraw, Hcurve, Hdown, Href. cbn [negb andb].
  rewrite (pathOf_lookup i _ c Hlook), removelast_last.
  rewrite !andb_false_r. cbn [andb]. rewrite Hup. cbn [at34]. reflexivity.
Qed.

(** Pulling with the button held after a click bends the segment placed
    last: whatever it was, it becomes a quadratic curve to the same end
    point, and from the second move on the control point is the pointer
    mirrored through that end point.  The commands before it stay; the
    release adds a line command at the pointer, the next preview. *)
Theorem drag_bends_last_segment
    (first : mouse_event) (rest : list mouse_event) (up : mouse_event)
    (t : pathTool) (c : canvas) (i : nat) (pre : list segment) (a pv : segment) :
  isDrawingPathMode c = true ->
  isDrawingPath t = true ->
  isDrawingCurve t = false ->
  isMouseDown t = true ->
  pathToDraw t = Some i ->
  lookup i (store c) = Some (Path (pre ++ [a; pv])) ->
  pre <> [] ->
  let e := endpoint a in
  let ctl := match rest with
             | [] => e
             | _ => mirrored e (getPointer (last rest first))
             end in
  let curve := Qc (fst ctl) (snd ctl) (fst e) (snd e) in
  exists t1 t2,
    pathMoves (first :: rest) (t, c) = Some (t1, write i (Path (pre ++ [curve])) c) /\
    pathMouseUp up (t1, write i (Path (pre ++ [curve])) c) =
      Some (t2, write i (Path (pre ++ [curve; L (fst (getPointer up)) (snd (getPointer up))])) c) /\
    isDrawingCurve t2 = false /\ isMouseDown t2 = false.
Proof.
  intros Hmode Hdraw Hcurve Hdown Href Hlook Hne e ctl curve.
  pose proof (curve_start first t c i pre a pv Hmode Hdraw Hcurve Hdown Href Hlook Hne) as E0.
  cbn zeta in E0. fold e in E0.
  (* the moves after the first *)
  assert (Hrest : forall (rest : list mouse_event) (t1 : pathTool) (q : segment) (cx cy : R)
                         (prev : mouse_event),
    isDrawingPath t1 = true -> isDrawingCurve t1 = true -> isMouseDown t1 = true ->
    pathToDraw t1 = Some i -> rememberX t1 = fst e -> rememberY t1 = snd e ->
    updatedPath t1 = Qc cx cy (fst e) (snd e) ->
    rest <> [] ->
    let m := mirrored e (getPointer (last rest prev)) in
    exists t2,
      pathRun (map Move rest) (t1, write i (Path (pre ++ [q])) c) =
        Some (t2, write i (Path (pre ++ [Qc (fst m) (snd m) (fst e) (snd e)])) c) /\
      isDrawingCurve t2 = true /\ pathToDraw t2 = Some i).
  { clear first E0 ctl curve rest.
    induction rest as [|o rest IH]; intros t1 q cx cy prev D1 D2 D3 D4 D5 D6 D7 Hn m;
      [contradiction|].
    assert (Hup : updatedPath t1 = Qc cx cy (rememberX t1) (rememberY t1))
      by now rewrite D5, D6.
    pose proof (curve_drag o t1 (write i (Path (pre ++ [q])) c) i pre q cx cy
                  Hmode D1 D2 D3 D4 Hup (lookup_write i _ _ c Hlook)) as E.
    cbn zeta in E. rewrite write_write in E. rewrite D5, D6 in E.
    replace (fst e, snd e) with e in E by now destruct e.
    cbn [map]. rewrite (pathRun_cons (Move o) _ _ _ E).
    destruct rest as [|o2 rest].
    - eexists. split; [reflexivity|]. split; reflexivity.
    - subst m. rewrite (last_cons _ (o2 :: rest) o prev).
      eapply IH; try reflexivity. discriminate. }
  assert (Hmoves : exists t1,
    pathMoves (first :: rest) (t, c) = Some (t1, write i (Path (pre ++ [curve])) c) /\
    isDrawingCurve t1 = true /\ pathToDraw t1 = Some i).
  { unfold pathMoves. cbn [map]. rewrite (pathRun_cons (Move first) _ _ _ E0).
    destruct rest as [|o2 rest].
    - eexists. split; [reflexivity|]. split; reflexivity.
    - subst curve ctl. cbv iota.
      eapply Hrest; try reflexivity. discriminate. }
  destruct Hmoves as (t1 & E1 & C1 & P1).
  exists t1. eexists. split; [exact E1|].
  unfold pathMouseUp. cbn [isDrawingPathMode write negb]. rewrite Hmode. cbn [negb].
  rewrite C1, P1.
  fold (write i (Path (pre ++ [curve])) c).
  rewrite (pathOf_lookup i _ _ (lookup_write i (Path (pre ++ [curve])) _ c Hlook)).
  rewrite write_write. rewrite <- app_assoc. cbn [app].
  split; [reflexivity|]. split; reflexivity.
Qed.

Lemma drag_bends_last_segment_witness :
  let t := fst secondPress in
  let c := snd secondPress in
  (isDrawingPathMode c = true /\ isDrawingPath t = true /\ isDrawingCurve t = false /\
   isMouseDown t = true /\ pathToDraw t = Some 1%nat /\
   lookup 1 (store c) = Some (Path ([M 0 0] ++ [L 100 0; L 100 0])) /\
   [M 0 0] <> []) /\
  exists t1 t2,
    pathMoves [MouseEvent (110, 10) false; MouseEvent (120, 30) false] (t, c) =
      Some (t1, write 1 (Path [M 0 0; Qc (100 - (120 - 100)) (0 - (30 - 0)) 100 0]) c) /\
    pathMouseUp (MouseEvent (120, 30) false)
      (t1, write 1 (Path [M 0 0; Qc (100 - (120 - 100)) (0 - (30 - 0)) 100 0]) c) =
      Some (t2, write 1 (Path [M 0 0; Qc (100 - (120 - 100)) (0 - (30 - 0)) 100 0;
                               L 120 30]) c).
Proof.
  intros t c.
  assert (Hne : [M 0 0] <> []) by discriminate.
  split; [repeat split; exact Hne|].
  destruct (drag_bends_last_segment (MouseEvent (110, 10) false)
              [MouseEvent (120, 30) false] (MouseEvent (120, 30) false)
              t c 1%nat [M 0 0] (L 100 0) (L 100 0)
              eq_refl eq_refl eq_refl eq_refl eq_refl eq_refl Hne)
    as (t1 & t2 & E1 & E2 & _).
  exists t1, t2. split; [exact E1|exact E2].
Defined.

(** Escape, or a press outside the canvas, while a curve is being pulled:
    the path is let go of but the curve flag stays set, and the release of
    the button that follows reads [.path] of [null]. *)
Theorem cancel_while_bending_breaks_release
    (up : mouse_event) (t : pathTool) (c : canvas) (i : nat) (path : list segment) :
  isDrawingPathMode c = true ->
  isDrawingPath t = true ->
  isDrawingCurve t = true ->
  pathOf (pathToDraw t) c = Some (i, path) ->
  exists t1 c1,
    pathKeydown escape (t, c) = Some (t1, c1) /\
    pathDocMouseDown false (t, c) = Some (t1, c1) /\
    pathToDraw t1 = None /\ isDrawingCurve t1 = true /\
    pathMouseUp up (t1, c1) = None.
Proof.
  intros Hmode Hdraw Hcurve Hpath.
  unfold pathKeydown, pathDocMouseDown. cbn [fst]. rewrite Hdraw. cbn [negb].
  change (key_of escape =? 27)%Z with true. cbv iota.
  unfold cancelDrawing. rewrite Hpath.
  eexists _, _. split; [reflexivity|]. split; [reflexivity|].
  cbn [pathToDraw isDrawingCurve]. split; [reflexivity|]. split; [exact Hcurve|].
  unfold pathMouseUp. cbn [isDrawingCurve pathToDraw pathOf].
  rewrite Hcurve.
  assert (Hm : forall c', isDrawingPathMode c' = isDrawingPathMode c ->
             negb (isDrawingPathMode c') = false) by (intros c' ->; now rewrite Hmode).
  rewrite Hm; [reflexivity|].
  destruct (Nat.ltb 1 (List.length (removelast path))); reflexivity.
Qed.

Lemma cancel_while_bending_breaks_release_witness :
  let t := fst bending in
  let c := snd bending in
  (isDrawingPathMode c = true /\ isDrawingPath t = true /\ isDrawingCurve t = true /\
   pathOf (pathToDraw t) c = Some (1%nat, [M 0 0; Qc 80 (-30) 100 0])) /\
  exists t1 c1,
    pathKeydown escape (t, c) = Some (t1, c1) /\
    pathMouseUp (MouseEvent (120, 30) false) (t1, c1) = None.
Proof.
  intros t c. split; [repeat split|].
  destruct (cancel_while_bending_breaks_release (MouseEvent (120, 30) false) t c 1%nat
              [M 0 0; Qc 80 (-30) 100 0] eq_refl eq_refl eq_refl eq_refl)
    as (t1 & c1 & E1 & _ & _ & _ & E2).
  exists t1, c1. split; [exact E1|exact E2].
Defined.

End DrawingMore.

(** ** Text-box tool *)

Module TextBoxFacts.
Import TextBox.
Local Open Scope R_scope.

Lemma fresh_exceeds (s : list (nat * tobject)) (j : nat) (v : tobject) :
  In (j, v) s -> (j < fresh s)%nat.
Proof.
  unfold fresh. induction s as [|[k w] s IH]; [intros []|].
  intros [E|Hin]; cbn [fold_right fst].
  - injection E as -> ->. lia.
  - specialize (IH Hin). lia.
Qed.

Lemma lookup_last (s : list (nat * tobject)) (i : nat) (v : tobject) :
  (forall j w, In (j, w) s -> j <> i) ->
  lookup i (s ++ [(i, v)]) = Some v.
Proof.
  induction s as [|[k w] s IH]; intros Hn; cbn [app lookup].
  - now rewrite Nat.eqb_refl.
  - destruct (Nat.eqb_spec i k) as [->|Hne].
    + exfalso. apply (Hn k w); [now left|reflexivity].
    + apply IH. intros j u Hin. apply (Hn j u). now right.
Qed.

Lemma update_last (s : list (nat * tobject)) (i : nat) (v w : tobject) :
  (forall j u, In (j, u) s -> j <> i) ->
  update i w (s ++ [(i, v)]) = s ++ [(i, w)].
Proof.
  induction s as [|[k u] s IH]; intros Hn; cbn [app update].
  - now rewrite Nat.eqb_refl.
  - destruct (Nat.eqb_spec i k) as [->|Hne].
    + exfalso. apply (Hn k u); [now left|reflexivity].
    + f_equal. apply IH. intros j u' Hin. apply (Hn j u'). now right.
Qed.

Lemma fresh_unused (s : list (nat * tobject)) :
  forall j u, In (j, u) s -> j <> fresh s.
Proof.
  intros j u Hin. pose proof (fresh_exceeds s j u Hin). lia.
Qed.

Lemma last_after_cons (A : Type) (l : list A) (a d : A) : last (a :: l) d = last l a.
Proof.
  revert a d. induction l as [|b l IH]; intros a d; [reflexivity|].
  change (last (a :: b :: l) d) with (last (b :: l) d).
  now rewrite !IH.
Qed.

(** The rectangle while the button is held. *)
Lemma textMoves_dragging (moves : list (R * R)) (c : canvas) (ox oy : R)
    (l t w h : R) (ptr : R * R) :
  let i := fresh (store c) in
  let p := last moves ptr in
  exists w' h',
  textMoves moves
    (TextTool true (Some i) ox oy ptr,
     Canvas (isDrawingTextMode c) (store c ++ [(i, Rect l t w h)])
            (onCanvas c ++ [i]) (activeObject c) (modified c)) =
  Some (TextTool true (Some i) ox oy p,
        Canvas (isDrawingTextMode c)
               (store c ++ [(i, Rect (edge ox (map fst moves) l)
                                     (edge oy (map snd moves) t) w' h')])
               (onCanvas c ++ [i]) (activeObject c) (modified c)) /\
  (moves = [] -> w' = w /\ h' = h) /\
  (moves <> [] -> w' = Rabs (ox - fst p) /\ h' = Rabs (oy - snd p)).
Proof.
  intros i. revert l t w h ptr.
  induction moves as [|q moves IH]; intros l t w h ptr; cbn zeta.
  - exists w, h. split; [reflexivity|]. split; [tauto|]. intros Hn. now destruct Hn.
  - assert (Hone :
      textMouseMove q
        (TextTool true (Some i) ox oy ptr,
         Canvas (isDrawingTextMode c) (store c ++ [(i, Rect l t w h)])
                (onCanvas c ++ [i]) (activeObject c) (modified c)) =
      Some (TextTool true (Some i) ox oy q,
         Canvas (isDrawingTextMode c)
                (store c ++ [(i, Rect (if Rgtb ox (fst q) then Rabs (fst q) else l)
                                      (if Rgtb oy (snd q) then Rabs (snd q) else t)
                                      (Rabs (ox - fst q)) (Rabs (oy - snd q)))])
                (onCanvas c ++ [i]) (activeObject c) (modified c))).
    { unfold textMouseMove. cbn [isDrawingText negb textboxRect origX origY].
      unfold setRect. cbn [store].
      rewrite (lookup_last (store c) i _ (fresh_unused (store c))).
      cbn [isDrawingTextMode onCanvas activeObject modified option_map].
      now rewrite (update_last (store c) i _ _ (fresh_unused (store c))). }
    destruct (IH (if Rgtb ox (fst q) then Rabs (fst q) else l)
                 (if Rgtb oy (snd q) then Rabs (snd q) else t)
                 (Rabs (ox - fst q)) (Rabs (oy - snd q)) q) as (w' & h' & E & E0 & E1).
    exists w', h'. rewrite last_after_cons. split; [|split].
    + unfold textMoves. cbn [fold_left next]. rewrite Hone. exact E.
    + discriminate.
    + intros _. destruct moves as [|q2 moves].
      * destruct (E0 eq_refl) as [-> ->]. split; reflexivity.
      * apply E1. discriminate.
Qed.

Lemma edge_never_below (orig : R) (xs : list R) (e : R) :
  Forall (fun x => orig <= x) xs -> edge orig xs e = e.
Proof.
  unfold edge. revert e. induction xs as [|x xs IH]; intros e Hall; [reflexivity|].
  inversion Hall as [|? ? Hx Hxs]; subst. cbn [fold_left].
  unfold Rgtb at 2. destruct (Rlt_dec x orig) as [Hlt|_]; [Lra.lra|]. now apply IH.
Qed.

Lemma edge_app (orig : R) (xs ys : list R) (e : R) :
  edge orig (xs ++ ys) e = edge orig ys (edge orig xs e).
Proof. unfold edge. apply fold_left_app. Qed.

Lemma edge_last_crossing (orig : R) (before after : list R) (x e : R) :
  x < orig -> Forall (fun y => orig <= y) after ->
  edge orig (before ++ x :: after) e = Rabs x.
Proof.
  intros Hx Hall. rewrite edge_app. change (x :: after) with ([x] ++ after).
  rewrite edge_app, (edge_never_below orig after _ Hall).
  unfold edge. cbn [fold_left]. unfold Rgtb.
  destruct (Rlt_dec x orig); [reflexivity|Lra.lra].
Qed.

Lemma fold_max_last (s : list (nat * tobject)) (b : nat) :
  fold_right (fun e m => Nat.max (fst e) m) b s =
  Nat.max (fold_right (fun e m => Nat.max (fst e) m) O s) b.
Proof.
  induction s as [|[k w] s IH]; cbn [fold_right fst]; [reflexivity|].
  rewrite IH. lia.
Qed.

Lemma fresh_last (s : list (nat * tobject)) (v : tobject) :
  fresh (s ++ [(fresh s, v)]) = S (fresh s).
Proof.
  unfold fresh. rewrite fold_right_app. cbn [fold_right fst].
  rewrite fold_max_last. lia.
Qed.

Lemma filter_last (i : nat) (l : list nat) :
  filter (fun j => negb (Nat.eqb j i)) (l ++ [i]) =
  filter (fun j => negb (Nat.eqb j i)) l.
Proof.
  rewrite filter_app. cbn [filter]. rewrite Nat.eqb_refl. cbn [negb]. apply app_nil_r.
Qed.

Lemma lookup_first (s : list (nat * tobject)) (i : nat) (v : tobject) (e : nat * tobject) :
  lookup i (s ++ [(i, v)]) = Some v -> lookup i ((s ++ [(i, v)]) ++ [e]) = Some v.
Proof.
  generalize (s ++ [(i, v)]). intros l. induction l as [|[k w] l IH]; [discriminate|].
  cbn [app lookup]. destruct (Nat.eqb i k); [tauto|exact IH].
Qed.

(** The result of one gesture, with the edges as [edge] computes them. *)
Lemma text_gesture_result
    (fired : bool) (down : R * R) (moves : list (R * R)) (t : textTool) (c : canvas) :
  isDrawingTextMode c = true ->
  let i := fresh (store c) in
  let p := last moves down in
  let l := edge (fst down) (map fst moves) (fst down) in
  let tp := edge (snd down) (map snd moves) (snd down) in
  exists t' w h,
    textGesture fired down moves (t, c) =
      Some (t',
            Canvas (negb fired)
                   (store c ++ [(i, Rect l tp w h); (S i, Textbox l tp (Rmax 80 w))])
                   (filter (fun j => negb (Nat.eqb j i)) (onCanvas c) ++ [S i])
                   (Some (S i)) (S (modified c))) /\
    isDrawingText t' = false /\
    w = Rabs (fst down - fst p).
Proof.
  intros Hmode i p l tp.
  unfold textGesture, textMouseDown, add. rewrite !Hmode. cbn [negb]. fold i.
  destruct (textMoves_dragging moves (Canvas true (store c) (onCanvas c) (activeObject c)
                                             (modified c))
              (fst down) (snd down) (fst down) (snd down)
              (fst down - fst down) (snd down - snd down) down)
    as (w & h & E & E0 & E1).
  cbn zeta in E. cbn [store isDrawingTextMode onCanvas activeObject modified] in E.
  fold i in E. fold p in E. fold l tp in E.
  rewrite E. cbn [next textMouseUp isDrawingText negb textboxRect store].
  rewrite (lookup_last (store c) i _ (fresh_unused (store c))).
  unfold add, remove, setActiveObject, trigger_modified, setTextMode.
  cbn [store isDrawingTextMode onCanvas activeObject modified origX origY pointer].
  assert (Hf : fresh (store c ++ [(i, Rect l tp w h)]) = S i) by apply fresh_last.
  rewrite !Hf, filter_last.
  assert (Hw : (if Rltb w 80 then 80 else w) = Rmax 80 w).
  { unfold Rltb, Rmax. destruct (Rlt_dec w 80), (Rle_dec 80 w); try reflexivity; Lra.lra. }
  rewrite Hw. rewrite <- app_assoc. cbn [app].
  exists (TextTool false (Some i) (fst down) (snd down) p), w, h.
  split; [destruct fired; reflexivity|]. split; [reflexivity|].
  destruct moves as [|q moves].
  - destruct (E0 eq_refl) as [-> _]. subst p. cbn [last].
    now rewrite Rminus_diag, Rabs_R0.
  - apply E1. discriminate.
Qed.

(** One gesture of the text tool replaces the rectangle it showed by one
    text box, selects it and triggers ['object:modified'] once.  The width
    of the box is the horizontal distance from the anchor to the last
    pointer position, and never less than 80.  If the pointer was never
    left of the anchor the box starts at the anchor's [x], and if it was
    never above it, at the anchor's [y].  When selecting the box fires a
    selection event, the text mode is off afterwards and the next press
    starts nothing. *)
Theorem text_gesture_makes_text_box
    (fired : bool) (down : R * R) (moves : list (R * R)) (t : textTool) (c : canvas) :
  isDrawingTextMode c = true ->
  let i := fresh (store c) in
  let p := last moves down in
  exists t' l tp w h,
    let c' := Canvas (negb fired)
                (store c ++ [(i, Rect l tp w h); (S i, Textbox l tp (Rmax 80 w))])
                (filter (fun j => negb (Nat.eqb j i)) (onCanvas c) ++ [S i])
                (Some (S i)) (S (modified c)) in
    textGesture fired down moves (t, c) = Some (t', c') /\
    isDrawingText t' = false /\
    w = Rabs (fst down - fst p) /\ 80 <= Rmax 80 w /\
    (Forall (fun q => fst down <= fst q) moves -> l = fst down) /\
    (Forall (fun q => snd down <= snd q) moves -> tp = snd down) /\
    (fired = true -> forall q, textMouseDown q (t', c') = (t', c')).
Proof.
  intros Hmode i p.
  destruct (text_gesture_result fired down moves t c Hmode) as (t' & w & h & E & D & W).
  exists t', (edge (fst down) (map fst moves) (fst down)),
         (edge (snd down) (map snd moves) (snd down)), w, h.
  cbv zeta.
  split; [exact E|]. split; [exact D|]. split; [exact W|].
  split; [apply Rmax_l|]. split; [|split].
  - intros Hall. apply edge_never_below. apply Forall_map. exact Hall.
  - intros Hall. apply edge_never_below. apply Forall_map. exact Hall.
  - intros -> q. reflexivity.
Qed.

(** The left edge of the text box is decided by the last pointer position
    left of the anchor, also when the pointer has gone back to the right
    since: the box then starts at the absolute value of that position's
    [x], while its width is measured to the last position.  Dragging 50
    left of the anchor and back to 100 right of it leaves a box that starts
    50 left of the anchor. *)
Theorem text_box_keeps_edge_of_last_crossing
    (fired : bool) (down : R * R) (before after : list (R * R)) (q : R * R)
    (t : textTool) (c : canvas) :
  isDrawingTextMode c = true ->
  fst q < fst down ->
  Forall (fun r => fst down <= fst r) after ->
  let i := fresh (store c) in
  let p := last (before ++ q :: after) down in
  exists t' tp w h,
    textGesture fired down (before ++ q :: after) (t, c) =
      Some (t',
            Canvas (negb fired)
                   (store c ++ [(i, Rect (Rabs (fst q)) tp w h);
                                (S i, Textbox (Rabs (fst q)) tp (Rmax 80 w))])
                   (filter (fun j => negb (Nat.eqb j i)) (onCanvas c) ++ [S i])
                   (Some (S i)) (S (modified c))) /\
    w = Rabs (fst down - fst p).
Proof.
  intros Hmode Hq Hall i p.
  destruct (text_gesture_result fired down (before ++ q :: after) t c Hmode)
    as (t' & w & h & E & _ & W).
  exists t', (edge (snd down) (map snd (before ++ q :: after)) (snd down)), w, h.
  split; [|exact W].
  rewrite E. rewrite map_app. cbn [map].
  rewrite (edge_last_crossing (fst down) (map fst before) (map fst after) (fst q) (fst down) Hq)
    by (apply Forall_map; exact Hall).
  reflexivity.
Qed.

Lemma text_gesture_makes_text_box_witness :
  isDrawingTextMode (Canvas true [] [] None 0) = true /\
  exists t' l tp w h,
    textGesture true (10, 20) [(50, 60); (40, 30)]
                (textTool_init, Canvas true [] [] None 0) =
      Some (t', Canvas false [(1%nat, Rect l tp w h); (2%nat, Textbox l tp (Rmax 80 w))]
                       [2%nat] (Some 2%nat) 1) /\
    w = Rabs (10 - 40).
Proof.
  split; [reflexivity|].
  destruct (text_gesture_makes_text_box true (10, 20) [(50, 60); (40, 30)] textTool_init
              (Canvas true [] [] None 0) eq_refl)
    as (t' & l & tp & w & h & E & _ & W & _).
  exists t', l, tp, w, h. split; [exact E|exact W].
Defined.

Lemma text_box_keeps_edge_of_last_crossing_witness :
  isDrawingTextMode (Canvas true [] [] None 0) = true /\
  fst (50, 120) < fst (100, 100) /\
  Forall (fun r => fst (100, 100) <= fst r) [(200, 150)] /\
  exists t' tp w h,
    textGesture true (100, 100) ([] ++ (50, 120) :: [(200, 150)])
                (textTool_init, Canvas true [] [] None 0) =
      Some (t', Canvas false [(1%nat, Rect (Rabs 50) tp w h);
                              (2%nat, Textbox (Rabs 50) tp (Rmax 80 w))]
                       [2%nat] (Some 2%nat) 1) /\
    w = Rabs (100 - 200).
Proof.
  assert (H1 : fst (50, 120) < fst (100, 100)) by (cbn; Lra.lra).
  assert (H2 : Forall (fun r => fst (100, 100) <= fst r) [(200, 150)])
    by (constructor; [cbn; Lra.lra|constructor]).
  split; [reflexivity|]. split; [exact H1|]. split; [exact H2|].
  destruct (text_box_keeps_edge_of_last_crossing true (100, 100) [] [(200, 150)] (50, 120)
              textTool_init (Canvas true [] [] None 0) eq_refl H1 H2)
    as (t' & tp & w & h & E & W).
  exists t', tp, w, h. split; [exact E|exact W].
Defined.

End TextBoxFacts.

(** ** The opaque bounds of an image *)

Module BBoxFacts.
Import BBox.

Lemma rowHit_spec (data : list N) (w y : nat) :
  rowHit data w y = true <-> exists x, opaqueAt data w x y.
Proof.
  unfold rowHit, opaqueAt. rewrite existsb_exists. split.
  - intros (x & Hin & Ho). apply in_seq in Hin. exists x. split; [lia|exact Ho].
  - intros (x & Hlt & Ho). exists x. split; [apply in_seq; lia|exact Ho].
Qed.

Lemma find_seq_first (f : nat -> bool) (s n a : nat) :
  find f (seq s n) = Some a ->
  (s <= a < s + n)%nat /\ f a = true /\ forall y, (s <= y < a)%nat -> f y = false.
Proof.
  revert s. induction n as [|n IH]; intros s; cbn [seq find]; [discriminate|].
  destruct (f s) eqn:E.
  - intros H. injection H as <-. split; [lia|]. split; [exact E|]. intros y Hy. lia.
  - intros H. destruct (IH (S s) H) as (B & F & N). split; [lia|]. split; [exact F|].
    intros y Hy. destruct (Nat.eq_dec y s) as [->|Hne]; [exact E|]. apply N. lia.
Qed.

Lemma find_seq_none (f : nat -> bool) (s n : nat) :
  find f (seq s n) = None <-> forall y, (s <= y < s + n)%nat -> f y = false.
Proof.
  split.
  - intros H y Hy. apply (find_none _ _ H). apply in_seq. exact Hy.
  - revert s. induction n as [|n IH]; intros s Hall; cbn [seq find]; [reflexivity|].
    rewrite (Hall s) by lia. apply IH. intros y Hy. apply Hall. lia.
Qed.

Lemma find_rev_seq_last (f : nat -> bool) (s n b : nat) :
  find f (rev (seq s n)) = Some b ->
  (s <= b < s + n)%nat /\ f b = true /\ forall y, (b < y < s + n)%nat -> f y = false.
Proof.
  induction n as [|n IH]; [discriminate|].
  rewrite seq_S, rev_app_distr. cbn [rev app find].
  destruct (f (s + n)%nat) eqn:E.
  - intros H. injection H as <-. split; [lia|]. split; [exact E|]. intros y Hy. lia.
  - intros H. destruct (IH H) as (B & F & N). split; [lia|]. split; [exact F|].
    intros y Hy. destruct (Nat.eq_dec y (s + n)) as [->|Hne]; [exact E|]. apply N. lia.
Qed.

Lemma find_rev_seq_none (f : nat -> bool) (s n : nat) :
  find f (rev (seq s n)) = None <-> forall y, (s <= y < s + n)%nat -> f y = false.
Proof.
  split.
  - intros H y Hy. apply (find_none _ _ H). apply in_rev. rewrite rev_involutive.
    apply in_seq. exact Hy.
  - induction n as [|n IH]; intros Hall; [reflexivity|].
    rewrite seq_S, rev_app_distr. cbn [rev app find].
    rewrite (Hall (s + n)%nat) by lia. apply IH. intros y Hy. apply Hall. lia.
Qed.

(** [y1] is the first row with an opaque pixel and [y2] the last one, when
    that is another row; each is undefined exactly when there is no such
    row. *)
Theorem scanPixels_rows (data : list N) (w h : nat) :
  let b := scanPixels data w h in
  (forall a, y1 b = Some a ->
     (a < h)%nat /\ rowHit data w a = true /\
     forall y, (y < a)%nat -> rowHit data w y = false) /\
  (y1 b = None <-> forall y, (y < h)%nat -> rowHit data w y = false) /\
  (forall a c, y1 b = Some a -> y2 b = Some c ->
     (a < c < h)%nat /\ rowHit data w c = true /\
     forall y, (c < y < h)%nat -> rowHit data w y = false) /\
  (forall a, y1 b = Some a ->
     (y2 b = None <-> forall y, (a < y < h)%nat -> rowHit data w y = false)).
Proof.
  cbn [scanPixels y1 y2]. unfold scan_y1. split; [|split; [|split]].
  - intros a Ha. destruct (find_seq_first _ _ _ _ Ha) as (B & F & N).
    split; [lia|]. split; [exact F|]. intros y Hy. apply N. lia.
  - rewrite find_seq_none. split; intros Hall y Hy; apply Hall; lia.
  - intros a c Ha Hc. rewrite Ha in Hc. cbn [scan_y2] in Hc.
    destruct (find_seq_first _ _ _ _ Ha) as (B & _ & _).
    destruct (find_rev_seq_last _ _ _ _ Hc) as (B2 & F & N).
    split; [lia|]. split; [exact F|]. intros y Hy. apply N. lia.
  - intros a Ha. rewrite Ha. cbn [scan_y2].
    destruct (find_seq_first _ _ _ _ Ha) as (B & _ & _).
    rewrite find_rev_seq_none. split; intros Hall y Hy; apply Hall; lia.
Qed.


(** The "x1" scan over the rows [ys], from the bound [x0]. *)
Lemma scan_x1_spec (data : list N) (w : nat) (ys : list nat) (x0 : nat) :
  let r := fold_left
    (fun x1 y =>
       match find (fun x => Nat.ltb x x1 && opaque data (y * w + x)) (seq 0 w) with
       | Some x => x
       | None => x1
       end) ys x0 in
  (r <= x0)%nat /\
  (forall y x, In y ys -> opaqueAt data w x y -> (x0 <= x)%nat \/ (r <= x)%nat) /\
  (r = x0 \/ exists y, In y ys /\ opaqueAt data w r y).
Proof.
  revert x0. induction ys as [|y ys IH]; intros x0; cbn [fold_left].
  - split; [lia|]. split; [intros y x []|now left].
  - set (step := match find _ _ with Some x => x | None => x0 end).
    destruct (IH step) as (Hle & Hcov & Hatt). cbn zeta in *.
    assert (Hstep : (step <= x0)%nat /\
                    (forall x, opaqueAt data w x y -> (x0 <= x)%nat \/ (step <= x)%nat) /\
                    (step = x0 \/ opaqueAt data w step y)).
    { subst step.
      destruct (find (fun x => Nat.ltb x x0 && opaque data (y * w + x)) (seq 0 w))
        as [x|] eqn:Ef.
      - destruct (find_seq_first _ _ _ _ Ef) as (B & F & Nn).
        apply andb_true_iff in F as [F1 F2]. apply Nat.ltb_lt in F1.
        split; [lia|]. split.
        + intros x' [Hx' Ho]. destruct (Nat.lt_ge_cases x' x) as [Hlt|Hge]; [|now right].
          specialize (Nn x' ltac:(lia)). apply andb_false_iff in Nn as [Nn|Nn].
          * apply Nat.ltb_ge in Nn. now left.
          * congruence.
        + right. split; [lia|exact F2].
      - split; [lia|]. split; [|now left].
        intros x' [Hx' Ho]. left.
        pose proof (proj1 (find_seq_none _ _ _) Ef x' ltac:(lia)) as Nn.
        apply andb_false_iff in Nn as [Nn|Nn]; [now apply Nat.ltb_ge in Nn|congruence]. }
    destruct Hstep as (S1 & S2 & S3).
    split; [lia|]. split.
    + intros y' x [<-|Hin] Ho.
      * destruct (S2 x Ho) as [?|?]; [now left|right; lia].
      * destruct (Hcov y' x Hin Ho) as [?|?]; [|now right].
        destruct (Nat.le_gt_cases x0 x); [now left|right; lia].
    + destruct Hatt as [->|(y' & Hin & Ho)].
      * destruct S3 as [->|Ho]; [now left|]. right. exists y. split; [now left|exact Ho].
      * right. exists y'. split; [now right|exact Ho].
Qed.

(** The "x2" scan over the rows [ys], right of the column [c]. *)
Lemma scan_x2_spec (data : list N) (w : nat) (ys : list nat) (c x0 : nat) :
  let r := fold_left
    (fun x2 y =>
       match find (fun x => Nat.ltb x2 x && opaque data (y * w + x))
                  (rev (seq (S c) (w - 1 - c))) with
       | Some x => x
       | None => x2
       end) ys x0 in
  (x0 <= r)%nat /\
  (forall y x, In y ys -> opaqueAt data w x y -> (c < x)%nat -> (x <= r)%nat) /\
  (r = x0 \/ exists y, In y ys /\ opaqueAt data w r y /\ (c < r)%nat).
Proof.
  revert x0. induction ys as [|y ys IH]; intros x0; cbn [fold_left].
  - split; [lia|]. split; [intros y x []|now left].
  - set (step := match find _ _ with Some x => x | None => x0 end).
    destruct (IH step) as (Hle & Hcov & Hatt). cbn zeta in *.
    assert (Hstep : (x0 <= step)%nat /\
                    (forall x, opaqueAt data w x y -> (c < x)%nat -> (x <= step)%nat) /\
                    (step = x0 \/ opaqueAt data w step y /\ (c < step)%nat)).
    { subst step.
      destruct (find (fun x => Nat.ltb x0 x && opaque data (y * w + x))
                     (rev (seq (S c) (w - 1 - c)))) as [x|] eqn:Ef.
      - destruct (find_rev_seq_last _ _ _ _ Ef) as (B & F & Nn).
        apply andb_true_iff in F as [F1 F2]. apply Nat.ltb_lt in F1.
        split; [lia|]. split.
        + intros x' [Hx' Ho] Hc. destruct (Nat.le_gt_cases x' x) as [Hle'|Hgt]; [exact Hle'|].
          specialize (Nn x' ltac:(lia)). apply andb_false_iff in Nn as [Nn|Nn].
          * apply Nat.ltb_ge in Nn. lia.
          * congruence.
        + right. split; [split; [lia|exact F2]|lia].
      - split; [lia|]. split; [|now left].
        intros x' [Hx' Ho] Hc.
        pose proof (proj1 (find_rev_seq_none _ _ _) Ef x' ltac:(lia)) as Nn.
        apply andb_false_iff in Nn as [Nn|Nn]; [now apply Nat.ltb_ge in Nn|congruence]. }
    destruct Hstep as (S1 & S2 & S3).
    split; [lia|]. split.
    + intros y' x [<-|Hin] Ho Hc.
      * specialize (S2 x Ho Hc). lia.
      * exact (Hcov y' x Hin Ho Hc).
    + destruct Hatt as [->|(y' & Hin & Ho)].
      * destruct S3 as [->|[Ho Hc]]; [now left|]. right. exists y. split; [now left|]. tauto.
      * right. exists y'. split; [now right|exact Ho].
Qed.

(** With both rows found, [x1] and [x2] bound the opaque pixels of the rows
    from [y1] up to, and not including, [y2]: none of them is left of [x1],
    and those right of [x1] are not right of [x2].  [x1] is the column of
    such a pixel; [x2] is one too, or 0 when none of them is right of
    [x1]. *)
Theorem scanPixels_columns (data : list N) (w h a c : nat) :
  let b := scanPixels data w h in
  y1 b = Some a -> y2 b = Some c ->
  (forall x y, (a <= y < c)%nat -> opaqueAt data w x y ->
     (x1 b <= x)%nat /\ ((x1 b < x)%nat -> (x <= x2 b)%nat)) /\
  (exists y, (a <= y < c)%nat /\ opaqueAt data w (x1 b) y) /\
  (x2 b = O \/ exists y, (a <= y < c)%nat /\ opaqueAt data w (x2 b) y /\ (x1 b < x2 b)%nat).
Proof.
  cbn [scanPixels y1 y2 x1 x2]. intros Ha Hc. rewrite Ha in *. rewrite Hc. cbn [rows].
  destruct (find_seq_first _ _ _ _ Ha) as (Ba & Fa & _).
  cbn [scan_y2] in Hc. destruct (find_rev_seq_last _ _ _ _ Hc) as (Bc & _ & _).
  pose proof (scan_x1_spec data w (seq a (c - a)) w) as (L1 & C1 & A1).
  fold (scan_x1 data w (seq a (c - a))) in L1, C1, A1.
  pose proof (scan_x2_spec data w (seq a (c - a)) (scan_x1 data w (seq a (c - a))) 0)
    as (L2 & C2 & A2).
  fold (scan_x2 data w (seq a (c - a)) (scan_x1 data w (seq a (c - a)))) in L2, C2, A2.
  assert (Hin : forall y, (a <= y < c)%nat <-> In y (seq a (c - a))).
  { intros y. rewrite in_seq. lia. }
  split; [|split].
  - intros x y Hy Ho. split.
    + destruct (C1 y x (proj1 (Hin y) Hy) Ho) as [Hw|Hle]; [|exact Hle].
      destruct Ho as [Hx _]. lia.
    + intros Hlt. exact (C2 y x (proj1 (Hin y) Hy) Ho Hlt).
  - destruct A1 as [E|(y & Hy & Ho)].
    + (* the row y1 has an opaque pixel, which is below w *)
      apply rowHit_spec in Fa as (x & Ho).
      destruct (C1 a x (proj1 (Hin a) ltac:(lia)) Ho) as [Hw|Hle];
        destruct Ho as [Hx Ho]; lia.
    + exists y. split; [now apply Hin|exact Ho].
  - destruct A2 as [E|(y & Hy & Ho & Hlt)]; [now left|].
    right. exists y. split; [now apply Hin|]. split; [exact Ho|exact Hlt].
Qed.

(** An image whose opaque pixels, if any, all lie in one row: [y2] stays
    undefined, no row is scanned for columns, and the result has
    [x1 = w], [x2 = 0], the width [-w] and no height. *)
Theorem scanPixels_single_row (data : list N) (w h : nat) :
  (forall y y', (y < h)%nat -> (y' < h)%nat ->
     rowHit data w y = true -> rowHit data w y' = true -> y = y') ->
  let b := scanPixels data w h in
  y2 b = None /\ x1 b = w /\ x2 b = O /\
  width b = (- Z.of_nat w)%Z /\ height b = None.
Proof.
  intros Hone. cbn [scanPixels y1 y2 x1 x2 width height].
  assert (H2 : scan_y2 data w h (scan_y1 data w h) = None).
  { unfold scan_y1. destruct (find (rowHit data w) (seq 0 h)) as [a|] eqn:Ha; [|reflexivity].
    cbn [scan_y2]. destruct (find_seq_first _ _ _ _ Ha) as (Ba & Fa & _).
    apply find_rev_seq_none. intros y Hy.
    destruct (rowHit data w y) eqn:E; [|reflexivity].
    specialize (Hone a y ltac:(lia) ltac:(lia) Fa E). lia. }
  rewrite H2.
  assert (Hr : rows (scan_y1 data w h) None = []) by (destruct (scan_y1 data w h); reflexivity).
  rewrite Hr. cbn [scan_x1 scan_x2 fold_left].
  split; [reflexivity|]. split; [reflexivity|]. split; [reflexivity|].
  split; [cbn; lia|]. destruct (scan_y1 data w h); reflexivity.
Qed.

Lemma scanPixels_rows_witness :
  y1 (scanPixels threeByTwo 3 2) = Some 0%nat /\
  y2 (scanPixels threeByTwo 3 2) = Some 1%nat /\
  (0 < 1 < 2)%nat /\ rowHit threeByTwo 3 1 = true.
Proof.
  split; [reflexivity|]. split; [reflexivity|].
  destruct (scanPixels_rows threeByTwo 3 2) as (_ & _ & C & _).
  destruct (C 0%nat 1%nat eq_refl eq_refl) as (B & F & _).
  split; [exact B|exact F].
Defined.

(** In the 3 x 2 image the opaque pixels span the columns 0 to 2, and the
    scan returns [x1 = 1], [x2 = 0]: the row [y2] is not scanned for
    columns. *)
Lemma scanPixels_threeByTwo :
  scanPixels threeByTwo 3 2 = BBoxOf 1 0 (Some 0%nat) (Some 1%nat) (-1) (Some 1%Z).
Proof. reflexivity. Qed.

Lemma scanPixels_columns_witness :
  let data := [0; 0xff000000; 0xff000000; 0;
               0xff000000; 0; 0; 0xff000000;
               0; 0; 0xff000000; 0]%N in
  let b := scanPixels data 4 3 in
  y1 b = Some 0%nat /\ y2 b = Some 2%nat /\
  (forall x y, (0 <= y < 2)%nat -> opaqueAt data 4 x y ->
     (x1 b <= x)%nat /\ ((x1 b < x)%nat -> (x <= x2 b)%nat)).
Proof.
  intros data b. split; [reflexivity|]. split; [reflexivity|].
  exact (proj1 (scanPixels_columns data 4 3 0 2 eq_refl eq_refl)).
Defined.

Lemma scanPixels_single_row_witness :
  let data := [0; 0; 0; 0; 0xff000000; 0xff000000; 0; 0; 0]%N in
  (forall y y', (y < 3)%nat -> (y' < 3)%nat ->
     rowHit data 3 y = true -> rowHit data 3 y' = true -> y = y') /\
  y2 (scanPixels data 3 3) = None /\ x1 (scanPixels data 3 3) = 3%nat /\
  x2 (scanPixels data 3 3) = O.
Proof.
  intros data.
  assert (Hone : forall y y', (y < 3)%nat -> (y' < 3)%nat ->
     rowHit data 3 y = true -> rowHit data 3 y' = true -> y = y').
  { intros y y' Hy Hy'.
    destruct y as [|[|[|y]]]; destruct y' as [|[|[|y']]];
      try lia; vm_compute; intros; try reflexivity; discriminate. }
  split; [exact Hone|].
  destruct (scanPixels_single_row data 3 3 Hone) as (A & B & C & _).
  split; [exact A|]. split; [exact B|exact C].
Defined.

End BBoxFacts.

(** ** Effect sliders: one slider and the others *)

Module EffectsMore.
Import PrimFloat SpecFloat FloatOps.
Import Effects EffectsFacts.
Local Open Scope float_scope.

Ltac split_ifs :=
  repeat match goal with
         | |- context [if ?b then _ else _] => destruct b
         end.



Lemma param_is_fromSlider (e : effects) (effect : effect_id) (y : float)
    (x : filter) (p : float) :
  In x (getUpdatedFilter e effect y) -> paramOf effect x = Some p ->
  p = fromSlider effect y.
Proof.
  unfold getUpdatedFilter, fromSlider.
  destruct e as [o bl br sa [gr gg gb]].
  destruct effect; cbn [opacity blur brightness saturation gamma r g b];
    split_ifs; cbn [app In]; intros Hin Hp;
    repeat (destruct Hin as [<-|Hin]; [cbn [paramOf] in Hp; try discriminate;
                                       now injection Hp as <-|]);
    now destruct Hin.
Qed.

Lemma rangeOn_table (effect : effect_id) : rangeOn effect = true.
Proof. destruct effect; vm_compute; reflexivity. Qed.




End EffectsMore.

(** ** Choosing a tool *)

Module ToolsFacts.
Import Tools.
Local Open Scope string_scope.

Lemma select_does_not_discard (fires : option nat -> bool) (f g : shell -> shell)
    (s : shell) :
  setActiveTool_body fires f "select" s = setActiveTool_body fires g "select" s.
Proof. reflexivity. Qed.

Lemma body_ext (fires : option nat -> bool) (f g : shell -> shell) (id : string)
    (s : shell) :
  (forall x, f x = g x) ->
  setActiveTool_body fires f id s = setActiveTool_body fires g id s.
Proof.
  intros E. unfold setActiveTool_body, leaveSelection.
  destruct (negb (id =? "select")); [|reflexivity].
  destruct (fires _); [|reflexivity]. cbv zeta. now rewrite E.
Qed.

(** Two levels of calls are enough: a larger bound gives the same state. *)
Lemma setActiveTool_fuel (fires : option nat -> bool) (n : nat) (id : string) (s : shell) :
  setActiveTool_upto fires (2 + n) id s = setActiveTool fires id s.
Proof.
  unfold setActiveTool. cbn [Nat.add setActiveTool_upto].
  apply body_ext. intros x. apply select_does_not_discard.
Qed.

(** The [switch] and the reset before it write the canvas only. *)
Lemma switchTool_keeps (id : string) (s : shell) :
  activeTool (switchTool id s) = activeTool s /\
  visiblePanel (switchTool id s) = visiblePanel s /\
  activeObject (switchTool id s) = activeObject s /\
  activeSelection (switchTool id s) = activeSelection s.
Proof.
  unfold switchTool.
  destruct (id =? "draw"); [repeat split|].
  destruct (id =? "line"); [repeat split|].
  destruct (id =? "path"); [repeat split|].
  destruct (id =? "textbox"); [repeat split|].
  destruct (id =? "upload"); repeat split.
Qed.

(** The modes the [switch] leaves after the reset, whatever came before. *)
Lemma switchTool_modes (id : string) (s : shell) :
  let s' := switchTool id (resetCanvas s) in
  isDrawingLineMode s' = (id =? "line") /\
  isDrawingPathMode s' = (id =? "path") /\
  isDrawingMode s' = (id =? "draw") /\
  isDrawingTextMode s' = (id =? "textbox") /\
  selection s' = negb (drawsWithPointer id) /\
  defaultCursor s' = (if drawsWithPointer id then Crosshair else DefaultCursor) /\
  Forall (fun o => selectable o = negb (drawsWithPointer id) /\
                   evented o = negb (drawsWithPointer id)) (objects s').
Proof.
  unfold switchTool, resetCanvas, drawsWithPointer.
  assert (Hall : forall (b : bool) (l : list tobject),
            Forall (fun o => selectable o = b /\ evented o = b)
                   (map (fun _ => TObject b b) l)).
  { intros b l. induction l; cbn [map]; constructor; [split; reflexivity|assumption]. }
  destruct (String.eqb_spec id "draw") as [->|Hd].
  { cbn. repeat split; try reflexivity. rewrite map_map. apply (Hall true). }
  destruct (String.eqb_spec id "line") as [->|Hl].
  { cbn. repeat split; try reflexivity. rewrite map_map. apply (Hall false). }
  destruct (String.eqb_spec id "path") as [->|Hp].
  { cbn. repeat split; try reflexivity. rewrite map_map. apply (Hall false). }
  destruct (String.eqb_spec id "textbox") as [->|Ht].
  { cbn. repeat split; try reflexivity. rewrite map_map. apply (Hall false). }
  destruct (id =? "upload").
  - cbn. repeat split; try reflexivity. apply (Hall true).
  - cbn. repeat split; try reflexivity. apply (Hall true).
Qed.

(** The modes after a choice of tool are those the [switch] leaves. *)
Lemma setActiveTool_modes (fires : option nat -> bool) (id : string) (s : shell) :
  let s' := setActiveTool fires id s in
  isDrawingLineMode s' = (id =? "line") /\
  isDrawingPathMode s' = (id =? "path") /\
  isDrawingMode s' = (id =? "draw") /\
  isDrawingTextMode s' = (id =? "textbox") /\
  selection s' = negb (drawsWithPointer id) /\
  defaultCursor s' = (if drawsWithPointer id then Crosshair else DefaultCursor) /\
  Forall (fun o => selectable o = negb (drawsWithPointer id) /\
                   evented o = negb (drawsWithPointer id)) (objects s').
Proof.
  cbv zeta. unfold setActiveTool. cbn [setActiveTool_upto].
  set (f := fun s0 : shell => _).
  change (setActiveTool_body fires f id s)
    with (switchTool id (resetCanvas (leaveSelection fires f id (showPanel id s)))).
  set (s1 := leaveSelection _ _ _ _). clearbody s1.
  exact (switchTool_modes id s1).
Qed.

(** After any choice of tool, at most one drawing mode is on, the one of
    the chosen tool; the canvas selection and every object are selectable
    and evented unless the tool draws with the pointer (line, path,
    textbox), which also sets the crosshair cursor.  This holds whether or
    not fabric fires ['selection:cleared'] during the call. *)
Theorem tool_choice_sets_at_most_one_mode
    (fires : option nat -> bool) (id : string) (s : shell) :
  let s' := setActiveTool fires id s in
  isDrawingLineMode s' = (id =? "line") /\
  isDrawingPathMode s' = (id =? "path") /\
  isDrawingMode s' = (id =? "draw") /\
  isDrawingTextMode s' = (id =? "textbox") /\
  (modesOn s' <= 1)%nat /\
  selection s' = negb (drawsWithPointer id) /\
  defaultCursor s' = (if drawsWithPointer id then Crosshair else DefaultCursor) /\
  Forall (fun o => selectable o = negb (drawsWithPointer id) /\
                   evented o = negb (drawsWithPointer id)) (objects s').
Proof.
  cbv zeta.
  destruct (setActiveTool_modes fires id s) as (M1 & M2 & M3 & M4 & M5 & M6 & M7).
  cbv zeta in M1, M2, M3, M4, M5, M6, M7.
  split; [exact M1|]. split; [exact M2|]. split; [exact M3|]. split; [exact M4|].
  split; [|split; [exact M5|split; [exact M6|exact M7]]].
  unfold modesOn. rewrite M1, M2, M3, M4.
  destruct (String.eqb_spec id "line") as [->|Hl]; [cbn; lia|].
  destruct (String.eqb_spec id "path") as [->|Hp]; [cbn; lia|].
  destruct (String.eqb_spec id "draw") as [->|Hd]; [cbn; lia|].
  destruct (id =? "textbox"); cbn; lia.
Qed.

(** What the listener of ['selection:cleared'] leaves: the select tool and
    no panel. *)
Lemma cleared_chooses_select (fires : option nat -> bool) (s : shell) :
  let s' := setActiveTool_upto fires 1 "select" (setSelection None s) in
  activeTool s' = Some "select" /\ visiblePanel s' = None /\
  activeObject s' = activeObject s.
Proof. repeat split. Qed.

(** Choosing another tool than select.  If fabric fires
    ['selection:cleared'] while the selection is discarded, its listener
    chooses the select tool in the middle of the call: afterwards
    [activeTool] is ["select"] and no tool panel is visible, although the
    drawing mode of the chosen tool is on.  If it does not fire,
    [activeTool] is the chosen tool, and its panel is visible if it has one
    (background, draw and shapes have, the other tools have not, and then
    no panel is visible).  Either way nothing is selected. *)
Theorem tool_choice_while_selected
    (fires : option nat -> bool) (id : string) (s : shell) :
  id <> "select" ->
  let s' := setActiveTool fires id s in
  (fires (activeObject s) = true ->
     activeTool s' = Some "select" /\ visiblePanel s' = None) /\
  (fires (activeObject s) = false ->
     activeTool s' = Some id /\
     visiblePanel s' = (if hasPanel id then Some (id ++ "-panel", None) else None)) /\
  activeObject s' = None /\ activeSelection s' = None /\
  isDrawingLineMode s' = (id =? "line") /\
  isDrawingPathMode s' = (id =? "path").
Proof.
  intros Hid. cbv zeta.
  destruct (setActiveTool_modes fires id s) as (M1 & M2 & _).
  cbv zeta in M1, M2.
  assert (Hrest :
    (fires (activeObject s) = true ->
       activeTool (setActiveTool fires id s) = Some "select" /\
       visiblePanel (setActiveTool fires id s) = None) /\
    (fires (activeObject s) = false ->
       activeTool (setActiveTool fires id s) = Some id /\
       visiblePanel (setActiveTool fires id s) =
         (if hasPanel id then Some (id ++ "-panel", None) else None)) /\
    activeObject (setActiveTool fires id s) = None /\
    activeSelection (setActiveTool fires id s) = None);
    [|tauto].
  clear M1 M2.
  unfold setActiveTool. cbn [setActiveTool_upto].
  set (f := fun s0 : shell => _).
  change (setActiveTool_body fires f id s)
    with (switchTool id (resetCanvas (leaveSelection fires f id (showPanel id s)))).
  destruct (switchTool_keeps id (resetCanvas (leaveSelection fires f id (showPanel id s))))
    as (K1 & K2 & K3 & K4).
  rewrite K1, K2, K3, K4. clear K1 K2 K3 K4.
  apply String.eqb_neq in Hid.
  assert (Hshow : showPanel id s =
                  onPanel id (setPanel (Some (id ++ "-panel", None)))
                          (setPanel None (setTool (Some id) s))).
  { unfold showPanel. rewrite Hid. reflexivity. }
  rewrite Hshow. unfold leaveSelection, onPanel. rewrite Hid. cbn [negb].
  destruct (hasPanel id).
  - change (activeObject (setPanel (Some (id ++ "-panel", None))
                            (setPanel None (setTool (Some id) s))))
      with (activeObject s).
    destruct (fires (activeObject s)).
    + split; [intros _|split; [discriminate|]]; repeat split.
    + split; [discriminate|split; [intros _|]]; repeat split.
  - change (activeObject (setPanel None (setTool (Some id) s)))
      with (activeObject s).
    destruct (fires (activeObject s)).
    + split; [intros _|split; [discriminate|]]; repeat split.
    + split; [discriminate|split; [intros _|]]; repeat split.
Qed.

(** The line tool chosen while a rectangle is selected and fabric fires the
    event; and the draw and line tools chosen where it does not: the draw
    tool shows its panel, the line tool has none. *)
Lemma tool_choice_while_selected_witness :
  "line" <> "select" /\
  whenActive (activeObject withSelection) = true /\
  activeTool (setActiveTool whenActive "line" withSelection) = Some "select" /\
  visiblePanel (setActiveTool whenActive "line" withSelection) = None /\
  isDrawingLineMode (setActiveTool whenActive "line" withSelection) = true /\
  "draw" <> "select" /\
  visiblePanel (setActiveTool quiet "draw" withSelection) = Some ("draw-panel", None) /\
  activeTool (setActiveTool quiet "line" withSelection) = Some "line" /\
  visiblePanel (setActiveTool quiet "line" withSelection) = None.
Proof.
  assert (Hid : "line" <> "select") by discriminate.
  assert (Hdraw : "draw" <> "select") by discriminate.
  split; [exact Hid|]. split; [reflexivity|].
  destruct (tool_choice_while_selected whenActive "line" withSelection Hid)
    as (A & _ & _ & _ & L & _).
  destruct (A eq_refl) as [A1 A2].
  split; [exact A1|]. split; [exact A2|]. split; [exact L|].
  split; [exact Hdraw|].
  destruct (tool_choice_while_selected quiet "draw" withSelection Hdraw)
    as (_ & D & _).
  destruct (tool_choice_while_selected quiet "line" withSelection Hid)
    as (_ & N & _).
  split; [exact (proj2 (D eq_refl))|].
  split; [exact (proj1 (N eq_refl))|exact (proj2 (N eq_refl))].
Defined.

(** The three drawing tools listen to the same mouse:down event.  After a
    tool is chosen, a press is ignored by each of them but the chosen one:
    the line tool starts a line only after ["line"], the path tool a path
    only after ["path"], the text tool a rectangle only after ["textbox"];
    after any other choice the press changes nothing in any of them. *)
Theorem press_reaches_only_the_chosen_tool
    (fires : option nat -> bool) (id : string) (s : shell) (o : Drawing.mouse_event)
    (lt : Drawing.lineTool) (pt : Drawing.pathTool) (tt : TextBox.textTool)
    (dc : Drawing.canvas) (tc : TextBox.canvas) :
  let s' := setActiveTool fires id s in
  let dc' := drawingCanvas s' dc in
  let tc' := textCanvas s' tc in
  (id <> "line" -> Drawing.lineMouseDown o (lt, dc') = Some (lt, dc')) /\
  (id <> "path" -> Drawing.pathMouseDown o (pt, dc') = Some (pt, dc')) /\
  (id <> "textbox" ->
     TextBox.textMouseDown (Drawing.getPointer o) (tt, tc') = (tt, tc')) /\
  (id = "line" ->
     exists lt' c', Drawing.lineMouseDown o (lt, dc') = Some (lt', c') /\
                    Drawing.isDrawingLine lt' = true) /\
  (id = "path" -> Drawing.pathToDraw pt = None ->
     exists pt' c', Drawing.pathMouseDown o (pt, dc') = Some (pt', c') /\
                    Drawing.isDrawingPath pt' = true) /\
  (id = "textbox" ->
     TextBox.isDrawingText
       (fst (TextBox.textMouseDown (Drawing.getPointer o) (tt, tc'))) = true).
Proof.
  cbv zeta.
  destruct (setActiveTool_modes fires id s) as (M1 & M2 & _ & M4 & _).
  cbv zeta in M1, M2, M4.
  unfold drawingCanvas, textCanvas.
  unfold Drawing.lineMouseDown, Drawing.pathMouseDown, TextBox.textMouseDown.
  cbn [Drawing.isDrawingLineMode Drawing.isDrawingPathMode TextBox.isDrawingTextMode].
  rewrite M1, M2, M4. clear M1 M2 M4.
  set (s' := setActiveTool fires id s). clearbody s'.
  split; [|split; [|split; [|split; [|split]]]].
  - intros Hne. apply String.eqb_neq in Hne. now rewrite Hne.
  - intros Hne. apply String.eqb_neq in Hne. now rewrite Hne.
  - intros Hne. apply String.eqb_neq in Hne. now rewrite Hne.
  - intros ->. cbn. eexists _, _. split; reflexivity.
  - intros -> Hnone. cbn [String.eqb Ascii.eqb Bool.eqb andb negb Drawing.pathToDraw].
    rewrite Hnone. cbn. eexists _, _. split; reflexivity.
  - intros ->. reflexivity.
Qed.

Lemma press_reaches_only_the_chosen_tool_witness :
  let s' := setActiveTool whenActive "path" withSelection in
  let dc' := drawingCanvas s' (Drawing.Canvas false false [] [] 0) in
  "path" <> "line" /\
  Drawing.lineMouseDown (Drawing.MouseEvent (0, 0)%R false) (Drawing.lineTool_init, dc') =
    Some (Drawing.lineTool_init, dc').
Proof.
  intros s' dc'.
  assert (Hne : "path" <> "line") by discriminate.
  split; [exact Hne|].
  exact (proj1 (press_reaches_only_the_chosen_tool whenActive "path" withSelection
                  (Drawing.MouseEvent (0, 0)%R false) Drawing.lineTool_init
                  Drawing.pathTool_init TextBox.textTool_init
                  (Drawing.Canvas false false [] [] 0)
                  (TextBox.Canvas false [] [] None 0)) Hne).
Defined.

End ToolsFacts.

(** ** Gradients *)

Module GradientFacts.
Import Gradient.
Local Open Scope R_scope.

Lemma Math_round_between (a b : Z) (x : R) :
  IZR a <= x <= IZR b -> IZR a <= Math_round x <= IZR b.
Proof.
  intros [Ha Hb]. unfold Math_round.
  destruct (base_Int_part (x + / 2)) as [Hl Hu].
  split; apply IZR_le.
  - assert (H : (a - 1 < Int_part (x + / 2))%Z); [|lia].
    apply lt_IZR. rewrite minus_IZR. Lra.lra.
  - assert (H : (Int_part (x + / 2) < b + 1)%Z); [|lia].
    apply lt_IZR. rewrite plus_IZR. Lra.lra.
Qed.

Lemma percent_in_unit (t : R) : -1 <= t <= 1 -> 0 <= Math_round (50 + t * 50) / 100 <= 1.
Proof.
  intros Ht. pose proof (Math_round_between 0 100 (50 + t * 50) ltac:(Lra.lra)) as H.
  Lra.lra.
Qed.

Lemma scaled_in_box (u w : R) : 0 <= u <= 1 -> 0 <= w -> 0 <= u * w <= w.
Proof. intros Hu Hw. split; Lra.nra. Qed.


Lemma parseInt_plus_180 (angle : R) :
  0 <= angle -> Drawing.parseInt (angle + 180) = Drawing.parseInt angle + 180.
Proof.
  intros Ha. unfold Drawing.parseInt, Drawing.trunc.
  destruct (Rle_dec 0 angle) as [_|N]; [|Lra.lra].
  destruct (Rle_dec 0 (angle + 180)) as [_|N]; [|Lra.lra].
  rewrite <- plus_IZR. f_equal. symmetry. apply Int_part_spec.
  rewrite plus_IZR. destruct (base_Int_part angle) as [Hl Hu]. Lra.lra.
Qed.




End GradientFacts.
